(** * s3n-browser: object operations, storage commands and upload pipeline

A shallow embedding of the storage layer ([lib/s3/s3-commands.ts],
[lib/s3/s3-queries.ts], [lib/s3/s3-helpers.ts]), of the result envelope
([lib/responses]), of the server actions ([actions/s3-actions.ts]), of
the operation orchestrator ([hooks/s3/use-s3-object-operations.ts]), of
the navigation hook ([hooks/s3/use-s3-navigation.ts]) and of the upload
hook ([hooks/s3/use-s3-upload-operations.ts]).

Asynchronous functions run one at a time on the event loop, so an
[await] is sequencing: server code is written in a state-and-exception
monad over the S3 client, hook code as explicit state passing. *)

From Stdlib Require Import ZArith List Bool Ascii String Lia.
From stdpp Require Import base option list strings gmap.

Import ListNotations.
Local Open Scope string_scope.
Local Open Scope list_scope.

(** ** JavaScript strings

    Keys are modelled as Rocq strings; the separators the code splits on are
    single characters. *)
Module Js.

(** [s.endsWith(suffix)] *)
Definition endsWith (s suffix : string) : bool :=
  if (String.length suffix <=? String.length s)%nat
  then String.eqb
         (substring (String.length s - String.length suffix)
                    (String.length suffix) s) suffix
  else false.

(** [s.startsWith(p)] *)
Definition startsWith (s p : string) : bool := String.prefix p s.

(** [s.split(sep)] for a one-character separator: never empty, and
    [''.split(sep)] is [['']]. *)
Fixpoint split (sep : ascii) (s : string) : list string :=
  match s with
  | EmptyString => [EmptyString]
  | String c rest =>
      if Ascii.eqb c sep then EmptyString :: split sep rest
      else match split sep rest with
           | hd :: tl => String c hd :: tl
           | [] => [String c EmptyString]
           end
  end.

(** [s.includes(c)] for a one-character argument. *)
Fixpoint includes (s : string) (c : ascii) : bool :=
  match s with
  | EmptyString => false
  | String x rest => Ascii.eqb x c || includes rest c
  end.

(** [parts.join(sep)] *)
Fixpoint join (sep : string) (parts : list string) : string :=
  match parts with
  | [] => ""
  | [p] => p
  | p :: rest => p +:+ sep +:+ join sep rest
  end.

(** [parts.filter(Boolean)] on strings: the empty string is falsy. *)
Definition filterBoolean (parts : list string) : list string :=
  filter (fun p => negb (String.eqb p "")) parts.

(** [parts[parts.length - k]], [undefined] when the index is negative. *)
Definition fromEnd (parts : list string) (k : nat) : option string :=
  if (k <=? List.length parts)%nat
  then nth_error parts (List.length parts - k)
  else None.

(** [x || ''] for an optional string. *)
Definition orEmpty (x : option string) : string :=
  match x with
  | Some s => s
  | None => ""
  end.

(** A string is truthy when it is not empty; [null] and [undefined] are
    falsy. *)
Definition truthy (x : option string) : bool :=
  match x with
  | Some s => negb (String.eqb s "")
  | None => false
  end.

(** The replacement patterns [String.prototype.replace] expands when the
    pattern is a string (no capture groups): [$$], [$&], [$`] and [$']. *)
Fixpoint getSubstitution (matched before after repl : string) : string :=
  match repl with
  | EmptyString => EmptyString
  | String c r =>
      if Ascii.eqb c "$"
      then match r with
           | String d r' =>
               if Ascii.eqb d "$" then String "$" (getSubstitution matched before after r')
               else if Ascii.eqb d "&" then matched +:+ getSubstitution matched before after r'
               else if Ascii.eqb d "`" then before +:+ getSubstitution matched before after r'
               else if Ascii.eqb d "'" then after +:+ getSubstitution matched before after r'
               else String c (getSubstitution matched before after r)
           | EmptyString => String c EmptyString
           end
      else String c (getSubstitution matched before after r)
  end.

(** [s.replace(pattern, repl)] with a string pattern: the first occurrence
    only. *)
Definition replace (s pattern repl : string) : string :=
  match index 0 pattern s with
  | None => s
  | Some i =>
      let before := substring 0 i s in
      let after :=
        substring (i + String.length pattern)
                  (String.length s - (i + String.length pattern)) s in
      before +:+ getSubstitution pattern before after repl +:+ after
  end.

End Js.

(** ** Errors and the result envelope ([lib/responses/operation-result.ts]) *)

(** The values the code throws and catches. [S3ServiceException] is the
    SDK's error class, told apart by its [name]; [CanceledError] and
    [AxiosError] are what [axios.isCancel] and [axios.isAxiosError]
    recognise. *)
Inductive JsError : Type :=
| Error (message : string)
| S3ServiceException (name message : string)
| CanceledError (message : string)
| AxiosError (message : string).

#[global] Instance JsError_eq_dec : EqDecision JsError.
Proof. solve_decision. Defined.

Record OperationResult (T : Type) : Type := mkResult {
  data : option T;
  error : option JsError;
  message : option string;
  success : bool
}.
Arguments mkResult {T} _ _ _ _.
Arguments data {T} _.
Arguments error {T} _.
Arguments message {T} _.
Arguments success {T} _.

Module Result.

(** [OperationResult.Success(data, message)] *)
Definition Success {T} (d : option T) (m : option string) : OperationResult T :=
  {| data := d; error := None; message := m; success := true |}.

(** [OperationResult.Failure(message, error)] *)
Definition Failure {T} (m : string) (e : option JsError) : OperationResult T :=
  {| data := None; error := e; message := Some m; success := false |}.

(** [OperationResult.ConvertFailure(failureResult)]; called on a success
    it logs and still answers a failure. *)
Definition ConvertFailure {T U} (failureResult : OperationResult T)
  : OperationResult U :=
  {| data := None;
     error := error failureResult;
     message := message failureResult;
     success := false |}.

(** An [OperationResult] is an object, and every object is truthy. *)
Definition truthy {T} (r : OperationResult T) : bool := true.

End Result.

(** [lib/responses/s3-responses.ts] *)
Module S3Responses.

Definition FileNameExists : OperationResult string :=
  Result.Failure "Object already exists. Please choose a different name."
    (Some (Error "Object already exists. Please choose a different name.")).

Definition DestinationKeyExist : OperationResult bool :=
  Result.Failure "Destination key already exists, copy operation aborted"
    (Some (Error "Destination key already exists, copy operation aborted")).

End S3Responses.

(** ** The S3 client

    Every command is sent to the one configured bucket, so the [Bucket]
    field is left out; [CopySource] keeps the bucket name the code puts in
    front of the source key. The code builds a [ListObjectsV2Command] in two
    ways: from a prefix and a continuation token in the recursive listers,
    and from a prefix and a [Delimiter] in [getObjectsByKeyCommand]; each way
    has its constructor. *)
Inductive Command : Type :=
| CopyObjectCommand (CopySource Key : string)
| DeleteObjectCommand (Key : string)
| PutObjectCommand (Key : string) (ContentLength : option Z)
| HeadObjectCommand (Key : string)
| ListObjectsV2Command (Prefix : string) (ContinuationToken : option string)
| ListObjectsV2CommandDelimiter (Prefix Delimiter : string).

(** Equality of commands, for the fault table of the in-memory bucket. *)
Definition optionEqb {A} (eqb : A -> A -> bool) (x y : option A) : bool :=
  match x, y with
  | Some a, Some b => eqb a b
  | None, None => true
  | _, _ => false
  end.

Definition commandEqb (c1 c2 : Command) : bool :=
  match c1, c2 with
  | CopyObjectCommand s1 k1, CopyObjectCommand s2 k2 =>
      String.eqb s1 s2 && String.eqb k1 k2
  | DeleteObjectCommand k1, DeleteObjectCommand k2 => String.eqb k1 k2
  | PutObjectCommand k1 n1, PutObjectCommand k2 n2 =>
      String.eqb k1 k2 && optionEqb Z.eqb n1 n2
  | HeadObjectCommand k1, HeadObjectCommand k2 => String.eqb k1 k2
  | ListObjectsV2Command p1 t1, ListObjectsV2Command p2 t2 =>
      String.eqb p1 p2 && optionEqb String.eqb t1 t2
  | ListObjectsV2CommandDelimiter p1 d1, ListObjectsV2CommandDelimiter p2 d2 =>
      String.eqb p1 p2 && String.eqb d1 d2
  | _, _ => false
  end.

(** [_Object] of the SDK, with the fields the code reads. *)
Record _Object : Type := mkObject {
  Key : option string;
  Size : option Z
}.

(** [ListObjectsV2CommandOutput]; each entry of [CommonPrefixes] is reduced
    to its [Prefix] field. *)
Record ListObjectsV2Output : Type := mkListOutput {
  CommonPrefixes : option (list (option string));
  Contents : option (list _Object);
  Prefix : option string;
  NextContinuationToken : option string
}.

Inductive CommandOutput : Type :=
| ListOutput (out : ListObjectsV2Output)
| OtherOutput.

(** [response.Contents] and [response.NextContinuationToken]; a field that
    an output does not have reads as [undefined]. *)
Definition outputContents (r : CommandOutput) : option (list _Object) :=
  match r with
  | ListOutput out => Contents out
  | OtherOutput => None
  end.

Definition outputNextContinuationToken (r : CommandOutput) : option string :=
  match r with
  | ListOutput out => NextContinuationToken out
  | OtherOutput => None
  end.

(** How a statement ends: with a value, or by throwing. *)
Inductive Completion (A : Type) : Type :=
| Normal (a : A)
| Throw (e : JsError).
Arguments Normal {A} _.
Arguments Throw {A} _.

(** The storage backend behind [client.send]: any state, any answers. *)
Class S3Client (B : Type) : Type :=
  client_send : Command -> B -> Completion CommandOutput * B.

(** The backend together with the log of the commands sent so far. *)
Record World (B : Type) : Type := mkWorld {
  backend : B;
  sent : list Command
}.
Arguments mkWorld {B} _ _.
Arguments backend {B} _.
Arguments sent {B} _.

Definition Async (B A : Type) : Type := World B -> Completion A * World B.

Definition ret {B A} (a : A) : Async B A := fun w => (Normal a, w).

Definition throw {B A} (e : JsError) : Async B A := fun w => (Throw e, w).

Definition bind {B A C} (m : Async B A) (k : A -> Async B C) : Async B C :=
  fun w =>
    match m w with
    | (Normal a, w') => k a w'
    | (Throw e, w') => (Throw e, w')
    end.

(** [try { body } catch (error) { handler }] *)
Definition tryCatch {B A} (body : Async B A) (handler : JsError -> Async B A)
  : Async B A :=
  fun w =>
    match body w with
    | (Normal a, w') => (Normal a, w')
    | (Throw e, w') => handler e w'
    end.

(** [await client.send(command)] *)
Definition send {B} `{S3Client B} (command : Command) : Async B CommandOutput :=
  fun w =>
    let (r, b') := client_send command (backend w) in
    (r, {| backend := b'; sent := sent w ++ [command] |}).

Notation "'await' x <- m ; k" := (bind m (fun x => k))
  (at level 10, x name, m at level 100, k at level 200).

(** ** Storage queries and commands ([lib/s3/s3-queries.ts],
    [lib/s3/s3-commands.ts]) *)
Section Storage.

Context {B : Type} `{S3Client B}.

(** [s3BucketName] of the configuration. *)
Variable BucketName : string.

(** [checkIfObjectKeyExists] *)
Definition checkIfObjectKeyExists (key : string)
  : Async B (OperationResult bool) :=
  tryCatch
    (await _response <- send (HeadObjectCommand key);
     ret (Result.Success (Some true) None))
    (fun error =>
       match error with
       | S3ServiceException name _ =>
           if String.eqb name "NotFound"
           then ret (Result.Success (Some false) None)
           else ret (Result.Failure "Error checking if S3 object exists"
                       (Some error))
       | _ => ret (Result.Failure "Error checking if S3 object exists"
                     (Some error))
       end).

(** The normalisation of [rootKey] at the head of
    [listAllS3ObjectsInDirectory]. *)
Definition normalizePrefix (rootKey : string) : string :=
  let prefix :=
    if String.eqb rootKey "/" then ""
    else if Js.startsWith rootKey "/"
         then substring 1 (String.length rootKey - 1) rootKey
         else rootKey in
  if negb (String.eqb prefix "") && negb (Js.endsWith prefix "/")
  then prefix +:+ "/"
  else prefix.

(** [listAllS3ObjectsInDirectory]: one [ListObjectsV2Command], whose
    [Contents] are the answer. *)
Definition listAllS3ObjectsInDirectory (rootKey : string)
  : Async B (OperationResult (list _Object)) :=
  let prefix := normalizePrefix rootKey in
  let command := ListObjectsV2Command prefix None in
  tryCatch
    (await response <- send command;
     ret (Result.Success
            (Some (match outputContents response with
                   | Some contents => contents
                   | None => []
                   end)) None))
    (fun error =>
       ret (Result.Failure "Error fetching S3 objects" (Some error))).

(** The [do ... while (continuationToken)] loop of [listAllObjects];
    [fuel] bounds the number of pages, and [None] is the loop still running
    when the fuel is spent. *)
Fixpoint listAllObjects_loop (fuel : nat) (prefix : string)
    (continuationToken : option string) (allKeys : list string)
  : Async B (option (OperationResult (list string))) :=
  match fuel with
  | O => ret None
  | S fuel' =>
      let command := ListObjectsV2Command prefix continuationToken in
      await page <-
        tryCatch
          (await response <- send command;
           let keys :=
             match outputContents response with
             | Some contents => map (fun item => Js.orEmpty (Key item)) contents
             | None => []
             end in
           ret (inl (allKeys ++ keys, outputNextContinuationToken response)))
          (fun error =>
             ret (inr (Result.Failure "Error fetching list of S3 objects"
                         (Some error))));
      match page with
      | inr failure => ret (Some failure)
      | inl (allKeys', continuationToken') =>
          if Js.truthy continuationToken'
          then listAllObjects_loop fuel' prefix continuationToken' allKeys'
          else ret (Some (Result.Success (Some allKeys') None))
      end
  end.

(** [listAllObjects] *)
Definition listAllObjects (fuel : nat) (prefix : string)
  : Async B (option (OperationResult (list string))) :=
  listAllObjects_loop fuel prefix None [].

(** [copyS3ObjectCommand] *)
Definition copyS3ObjectCommand (sourceKey destinationKey : string)
  : Async B (OperationResult bool) :=
  let command :=
    CopyObjectCommand (BucketName +:+ "/" +:+ sourceKey) destinationKey in
  tryCatch
    (await existOperationResult <- checkIfObjectKeyExists destinationKey;
     if success existOperationResult
        && bool_decide (data existOperationResult = Some true)
     then ret S3Responses.DestinationKeyExist
     else
       await _response <- send command;
       ret (Result.Success (Some true) None))
    (fun error =>
       ret (Result.Failure "Error copying S3 object" (Some error))).

(** [deleteS3ObjectCommand] *)
Definition deleteS3ObjectCommand (key : string)
  : Async B (OperationResult bool) :=
  let command := DeleteObjectCommand key in
  tryCatch
    (await _response <- send command;
     ret (Result.Success (Some true) None))
    (fun error =>
       ret (Result.Failure "Error deleting S3 object" (Some error))).

(** [transformS3DirectoryKeys] *)
Definition transformS3DirectoryKeys (currentObjectKey destinationKey : string)
  : string :=
  let normalizedDestKey :=
    if Js.endsWith destinationKey "/" then destinationKey
    else destinationKey +:+ "/" in
  let sourcePrefix :=
    Js.orEmpty (head (Js.split "/" currentObjectKey)) +:+ "/" in
  Js.replace currentObjectKey sourcePrefix normalizedDestKey.

(** The [for ... of] loop of [checkIfDestinationDirectoryExist]. *)
Fixpoint checkIfDestinationDirectoryExist_loop (objects : list _Object)
    (destinationKey : string) : Async B (OperationResult bool) :=
  match objects with
  | [] => ret (Result.Success (Some false) None)
  | object :: rest =>
      let objectKey := Js.orEmpty (Key object) in
      let destinationObjectKey :=
        transformS3DirectoryKeys objectKey destinationKey in
      await existOperationResult <- checkIfObjectKeyExists destinationObjectKey;
      if success existOperationResult
         && bool_decide (data existOperationResult = Some true)
      then ret (Result.Success (Some true) None)
      else checkIfDestinationDirectoryExist_loop rest destinationKey
  end.

(** [checkIfDestinationDirectoryExist] *)
Definition checkIfDestinationDirectoryExist (objects : list _Object)
    (destinationKey : string) : Async B (OperationResult bool) :=
  if (List.length objects =? 0)%nat
  then ret (Result.Success (Some false) None)
  else checkIfDestinationDirectoryExist_loop objects destinationKey.

(** The [for ... of] loop of [copyS3DirectoryCommand]; the guard is
    [if (!response)]. *)
Fixpoint copyS3DirectoryCommand_loop (objects : list _Object)
    (destinationKey : string) : Async B unit :=
  match objects with
  | [] => ret tt
  | object :: rest =>
      let objectKey := Js.orEmpty (Key object) in
      let destinationObjectKey :=
        transformS3DirectoryKeys objectKey destinationKey in
      await response <- copyS3ObjectCommand objectKey destinationObjectKey;
      if negb (Result.truthy response)
      then throw (Error "Copy operation failed or returned no response")
      else copyS3DirectoryCommand_loop rest destinationKey
  end.

(** [copyS3DirectoryCommand] *)
Definition copyS3DirectoryCommand (sourceKey destinationKey : string)
  : Async B (OperationResult bool) :=
  tryCatch
    (await listOperationResult <- listAllS3ObjectsInDirectory sourceKey;
     match success listOperationResult, data listOperationResult with
     | true, Some objects =>
         await existOperationResult <-
           checkIfDestinationDirectoryExist objects destinationKey;
         if bool_decide (data existOperationResult = Some true)
         then ret S3Responses.DestinationKeyExist
         else
           await _done <- copyS3DirectoryCommand_loop objects destinationKey;
           ret (Result.Success (Some true) None)
     | _, _ => ret (Result.ConvertFailure listOperationResult)
     end)
    (fun error =>
       ret (Result.Failure "Error copying S3 directory" (Some error))).

(** The [for ... of] loop of [deleteS3DirectoryCommand]; the guard is
    [if (!response)]. *)
Fixpoint deleteS3DirectoryCommand_loop (objects : list _Object)
  : Async B unit :=
  match objects with
  | [] => ret tt
  | object :: rest =>
      let objectKey := Js.orEmpty (Key object) in
      await response <- deleteS3ObjectCommand objectKey;
      if negb (Result.truthy response)
      then throw (Error "Delete operation failed or returned no response")
      else deleteS3DirectoryCommand_loop rest
  end.

(** [deleteS3DirectoryCommand] *)
Definition deleteS3DirectoryCommand (key : string)
  : Async B (OperationResult bool) :=
  tryCatch
    (await listOperationResult <- listAllS3ObjectsInDirectory key;
     match success listOperationResult, data listOperationResult with
     | true, Some objects =>
         await _done <- deleteS3DirectoryCommand_loop objects;
         ret (Result.Success (Some true) None)
     | _, _ => ret (Result.ConvertFailure listOperationResult)
     end)
    (fun error =>
       ret (Result.Failure "Error deleting S3 directory" (Some error))).

(** [moveS3ObjectCommand] *)
Definition moveS3ObjectCommand (sourceKey destinationKey : string)
  : Async B (OperationResult bool) :=
  tryCatch
    (await copyResponse <- copyS3ObjectCommand sourceKey destinationKey;
     if negb (success copyResponse) then ret copyResponse
     else
       await deleteResponse <- deleteS3ObjectCommand sourceKey;
       if negb (success deleteResponse) then ret deleteResponse
       else ret (Result.Success (Some true) None))
    (fun error =>
       ret (Result.Failure "Error copy S3 object" (Some error))).

(** [moveS3DirectoryCommand] *)
Definition moveS3DirectoryCommand (sourceKey destinationKey : string)
  : Async B (OperationResult bool) :=
  tryCatch
    (await copyResponse <- copyS3DirectoryCommand sourceKey destinationKey;
     if negb (success copyResponse) then ret copyResponse
     else
       await deleteResponse <- deleteS3DirectoryCommand sourceKey;
       if negb (success deleteResponse) then ret deleteResponse
       else ret (Result.Success (Some true) None))
    (fun error =>
       ret (Result.Failure "Error moving S3 directory" (Some error))).

(** [renameS3ObjectCommand] *)
Definition renameS3ObjectCommand (key destinationKey : string)
  : Async B (OperationResult bool) :=
  moveS3ObjectCommand key destinationKey.

(** [renameS3DirectoryCommand] *)
Definition renameS3DirectoryCommand (key newLocationName : string)
  : Async B (OperationResult bool) :=
  moveS3DirectoryCommand key newLocationName.

(** [createS3FolderCommand] *)
Definition createS3FolderCommand (key : string)
  : Async B (OperationResult bool) :=
  let key := if negb (Js.endsWith key "/") then key +:+ "/" else key in
  let command := PutObjectCommand key (Some 0%Z) in
  tryCatch
    (await _response <- send command;
     ret (Result.Success (Some true) None))
    (fun error =>
       ret (Result.Failure "Error creating S3 object" (Some error))).

End Storage.

(** ** An in-memory bucket

    A reference backend for concrete runs: objects in key order, listings cut
    into pages of [maxKeys] keys with the last key of a page as continuation
    token, and a table of injected faults (transport or authorisation errors
    raised instead of an answer). A listing with a delimiter groups the keys
    under their common prefixes. *)
Module MemoryBucket.

Record t : Type := mk {
  name : string;
  objects : list (string * Z);
  maxKeys : nat;
  faults : list (Command * JsError)
}.

(** The injected fault for a command, if any. *)
Definition fault (c : Command) (table : list (Command * JsError))
  : option JsError :=
  snd <$> find (fun ce => commandEqb (fst ce) c) table.

Definition lookup (k : string) (l : list (string * Z)) : option Z :=
  match find (fun kv => String.eqb (fst kv) k) l with
  | Some kv => Some (snd kv)
  | None => None
  end.

Fixpoint put (k : string) (v : Z) (l : list (string * Z))
  : list (string * Z) :=
  match l with
  | [] => [(k, v)]
  | (k', v') :: rest =>
      match String.compare k k' with
      | Eq => (k, v) :: rest
      | Lt => (k, v) :: l
      | Gt => (k', v') :: put k v rest
      end
  end.

Definition remove (k : string) (l : list (string * Z)) : list (string * Z) :=
  filter (fun kv => negb (String.eqb (fst kv) k)) l.

(** The entries after the one whose key is the continuation token. *)
Fixpoint after (token : string) (l : list (string * Z)) : list (string * Z) :=
  match l with
  | [] => []
  | (k, _) :: rest => if String.eqb k token then rest else after token rest
  end.

Definition toObject (kv : string * Z) : _Object :=
  {| Key := Some (fst kv); Size := Some (snd kv) |}.

Definition list_page (b : t) (prefix : string) (token : option string)
  : ListObjectsV2Output :=
  let matching :=
    filter (fun kv => Js.startsWith (fst kv) prefix) (objects b) in
  let remaining :=
    match token with
    | Some tk => after tk matching
    | None => matching
    end in
  let page := firstn (maxKeys b) remaining in
  {| CommonPrefixes := None;
     Contents :=
       match page with
       | [] => None
       | _ => Some (map toObject page)
       end;
     Prefix := Some prefix;
     NextContinuationToken :=
       if (maxKeys b <? List.length remaining)%nat
       then fst <$> last page
       else None |}.

(** The common prefix a key is grouped under in a listing with a
    delimiter: the listed prefix and what follows it in the key up to and
    with the first delimiter; none when the delimiter is empty or does not
    occur after the prefix. *)
Definition commonPrefix (prefix delimiter k : string) : option string :=
  let rest :=
    substring (String.length prefix)
              (String.length k - String.length prefix) k in
  if String.eqb delimiter "" then None
  else
    match index 0 delimiter rest with
    | Some i =>
        Some (prefix +:+ substring 0 (i + String.length delimiter) rest)
    | None => None
    end.

(** The entries of a listing with a delimiter, in key order: a common
    prefix once, where its first key stands, or the object itself. *)
Fixpoint grouped (prefix delimiter : string) (seen : option string)
    (l : list (string * Z)) : list (string + string * Z) :=
  match l with
  | [] => []
  | kv :: rest =>
      match commonPrefix prefix delimiter (fst kv) with
      | Some p =>
          if optionEqb String.eqb seen (Some p)
          then grouped prefix delimiter seen rest
          else inl p :: grouped prefix delimiter (Some p) rest
      | None => inr kv :: grouped prefix delimiter seen rest
      end
  end.

Definition list_delimited (b : t) (prefix delimiter : string)
  : ListObjectsV2Output :=
  let matching :=
    filter (fun kv => Js.startsWith (fst kv) prefix) (objects b) in
  let entries := grouped prefix delimiter None matching in
  let page := firstn (maxKeys b) entries in
  let prefixes :=
    omap (fun e => match e with inl p => Some (Some p) | inr _ => None end)
         page in
  let contents :=
    omap (fun e => match e with inl _ => None | inr kv => Some (toObject kv) end)
         page in
  {| CommonPrefixes :=
       match prefixes with
       | [] => None
       | _ => Some prefixes
       end;
     Contents :=
       match contents with
       | [] => None
       | _ => Some contents
       end;
     Prefix := Some prefix;
     NextContinuationToken :=
       if (maxKeys b <? List.length entries)%nat
       then match last page with
            | Some (inl p) => Some p
            | Some (inr kv) => Some (fst kv)
            | None => None
            end
       else None |}.

Definition notFound : JsError := S3ServiceException "NotFound" "UnknownError".
Definition noSuchKey : JsError :=
  S3ServiceException "NoSuchKey" "The specified key does not exist.".

Definition handle (c : Command) (b : t) : Completion CommandOutput * t :=
  match fault c (faults b) with
  | Some e => (Throw e, b)
  | None =>
      match c with
      | HeadObjectCommand k =>
          match lookup k (objects b) with
          | Some _ => (Normal OtherOutput, b)
          | None => (Throw notFound, b)
          end
      | CopyObjectCommand source k =>
          let bucketPrefix := name b +:+ "/" in
          let sourceKey :=
            substring (String.length bucketPrefix)
                      (String.length source - String.length bucketPrefix)
                      source in
          if Js.startsWith source bucketPrefix
          then match lookup sourceKey (objects b) with
               | Some v =>
                   (Normal OtherOutput,
                    mk (name b) (put k v (objects b)) (maxKeys b) (faults b))
               | None => (Throw noSuchKey, b)
               end
          else (Throw noSuchKey, b)
      | DeleteObjectCommand k =>
          (Normal OtherOutput,
           mk (name b) (remove k (objects b)) (maxKeys b) (faults b))
      | PutObjectCommand k _ =>
          (Normal OtherOutput,
           mk (name b) (put k 0%Z (objects b)) (maxKeys b) (faults b))
      | ListObjectsV2Command prefix token =>
          (Normal (ListOutput (list_page b prefix token)), b)
      | ListObjectsV2CommandDelimiter prefix delimiter =>
          (Normal (ListOutput (list_delimited b prefix delimiter)), b)
      end
  end.

#[global] Instance client : S3Client t := handle.

Definition start (b : t) : World t := {| backend := b; sent := [] |}.

End MemoryBucket.

(** A backend that is out of reach: every command fails in transport. *)
Module Offline.

Definition networkError : JsError := Error "getaddrinfo ENOTFOUND".

#[global] Instance unreachable : S3Client unit :=
  fun _ b => (Throw networkError, b).

End Offline.

(** ** Signed read URLs ([getSignedUrlCommand] of [lib/s3/s3-queries.ts])

Times are in milliseconds as [Date.now()] gives them, expiries in seconds;
both are taken as integers. *)

Record CacheEntry : Type := mkCacheEntry {
  url : string;
  expiresAt : Z
}.

(** The presigner behind [getSignedUrl(client, command, { expiresIn })], for
    a [GetObjectCommand] on the given key. *)
Class Presigner (S : Type) : Type :=
  getSignedUrl : string -> Z -> S -> Completion string * S.

(** The module-level [signedUrlCache], the presigner and the log of the
    signing requests made so far. *)
Record SigningWorld (S : Type) : Type := mkSigningWorld {
  signedUrlCache : gmap string CacheEntry;
  presigner : S;
  signingRequests : list (string * Z)
}.
Arguments mkSigningWorld {S} _ _ _.
Arguments signedUrlCache {S} _.
Arguments presigner {S} _.
Arguments signingRequests {S} _.

Section SignedUrl.

Context {S : Type} `{Presigner S}.

(** [s3SignedUrlExpires] of the configuration (900 unless configured). *)
Variable s3SignedUrlExpires : Z.


End SignedUrl.

(** A presigner whose URLs differ from one request to the next, as signed
    URLs carrying the signing time do: the state counts the requests. *)
Module CountingPresigner.

Fixpoint marks (n : nat) : string :=
  match n with
  | O => ""
  | S n' => String "i" (marks n')
  end.

#[global] Instance signer : Presigner nat :=
  fun key _ n => (Normal ("https://media.s3/" +:+ key +:+ "?X-Amz-Signature=" +:+ marks n),
                  Datatypes.S n).

Definition start : SigningWorld nat :=
  {| signedUrlCache := ∅; presigner := O; signingRequests := [] |}.

End CountingPresigner.

(** ** Listing conversion and key transforms ([lib/s3/s3-types.ts],
    [lib/s3/s3-helpers.ts]) *)

Inductive S3ObjectType : Type := FILE | DIRECTORY.

Record S3Object : Type := mkS3Object {
  type : S3ObjectType;
  key : string;
  name : string;
  object : option _Object
}.

(** [handlePrefixNameSplit] *)
Definition handlePrefixNameSplit (prefix : string) : string :=
  let parts := Js.split "/" prefix in
  if (2 <=? List.length parts)%nat
  then Js.orEmpty (Js.fromEnd parts 2)
  else Js.orEmpty (head parts).

(** The test of the listing conversion on one entry of [Contents]:
    [object?.Key?.split('.')[0] === object.Key || object.Key?.endsWith('/')]. *)
Definition looksLikeDirectory (objectKey : option string) : bool :=
  match objectKey with
  | Some k =>
      bool_decide (head (Js.split "." k) = Some k) || Js.endsWith k "/"
  | None => true
  end.

(** [object.Key?.split('/').pop() || ''] *)
Definition lastSegment (objectKey : option string) : string :=
  match objectKey with
  | Some k => Js.orEmpty (last (Js.split "/" k))
  | None => ""
  end.

(** What the [forEach] callback over [Contents] pushes for one object. *)
Definition contentEntry (responsePrefix : option string) (o : _Object)
  : list S3Object :=
  if bool_decide (Key o = responsePrefix) then []
  else if looksLikeDirectory (Key o)
       then [ {| type := DIRECTORY; key := Js.orEmpty (Key o);
                 name := lastSegment (Key o); object := None |} ]
       else [ {| type := FILE; key := Js.orEmpty (Key o);
                 name := lastSegment (Key o); object := Some o |} ].

(** [ListObjectsV2CommandOutputToS3Object] *)
Definition ListObjectsV2CommandOutputToS3Object (response : ListObjectsV2Output)
  : list S3Object :=
  let fromPrefixes :=
    match CommonPrefixes response with
    | Some prefixes =>
        map (fun prefix =>
               {| type := DIRECTORY;
                  key := Js.orEmpty prefix;
                  name := handlePrefixNameSplit (Js.orEmpty prefix);
                  object := None |}) prefixes
    | None => []
    end in
  let fromContents :=
    match Contents response with
    | Some contents => concat (map (contentEntry (Prefix response)) contents)
    | None => []
    end in
  fromPrefixes ++ fromContents.

(** [convertSourceKeyToDestinationKey] *)
Definition convertSourceKeyToDestinationKey (sourceKey destinationKey : string)
  : string :=
  let sourceParts := Js.split "/" sourceKey in
  let sourceName :=
    if Js.endsWith sourceKey "/"
    then Js.orEmpty (Js.fromEnd sourceParts 2) +:+ "/"
    else Js.orEmpty (Js.fromEnd sourceParts 1) in
  if Js.endsWith destinationKey "/"
  then destinationKey +:+ sourceName
  else destinationKey.

(** [parts[parts.length - 1] = newName]; on an empty array the assignment
    adds no element. *)
Definition setLast (parts : list string) (newName : string) : list string :=
  match parts with
  | [] => []
  | _ => removelast parts ++ [newName]
  end.

(** [renameDestinationKey] *)
Definition renameDestinationKey (destinationKey newName : string) : string :=
  if Js.endsWith destinationKey "/"
  then
    let parts := setLast (Js.filterBoolean (Js.split "/" destinationKey)) newName in
    let result := "/" +:+ Js.join "/" parts in
    if Js.endsWith result "/" then result else result +:+ "/"
  else
    let parts := setLast (Js.split "/" destinationKey) newName in
    Js.join "/" parts.

(** ** The stores ([stores/slices/s3-object-slice.ts], the path slice) and
    the operation orchestrator ([hooks/s3/use-s3-object-operations.ts]) *)

Inductive FileOperationType : Type := RENAME | DELETE | COPY | MOVE | CREATE.

#[global] Instance FileOperationType_eq_dec : EqDecision FileOperationType.
Proof. solve_decision. Defined.

#[global] Instance S3ObjectType_eq_dec : EqDecision S3ObjectType.
Proof. solve_decision. Defined.

(** The state of the object slice that the orchestrator reads and writes,
    with the [path] of the persisted path slice. *)
Record Store : Type := mkStore {
  s3Objects : list S3Object;
  sourceKey : option string;
  destinationKey : option string;
  newName : option string;
  operationType : option FileOperationType;
  operationMessage : option string;
  path : string
}.

(** [setPath] of the path slice; [key.replace(/^\//, '')] drops one leading
    slash. *)
Definition setPath (k : string) (st : Store) : Store :=
  let formatted :=
    if String.eqb k "/" || String.eqb k "" then ""
    else
      let k' := if Js.startsWith k "/"
                then substring 1 (String.length k - 1) k else k in
      if Js.endsWith k' "/" then k' else k' +:+ "/" in
  mkStore (s3Objects st) (sourceKey st) (destinationKey st) (newName st)
    (operationType st) (operationMessage st) formatted.

(** [getPath] *)
Definition getPath (st : Store) : string := path st.

(** [setS3Objects] *)
Definition setS3Objects (objects : list S3Object) (st : Store) : Store :=
  mkStore objects (sourceKey st) (destinationKey st) (newName st)
    (operationType st) (operationMessage st) (path st).

(** [setSourceKey] *)
Definition setSourceKey (k : string) (st : Store) : Store :=
  mkStore (s3Objects st) (Some k) (destinationKey st) (newName st)
    (operationType st) (operationMessage st) (path st).

(** [setOperationType] *)
Definition setOperationType (op : FileOperationType) (st : Store) : Store :=
  mkStore (s3Objects st) (sourceKey st) (destinationKey st) (newName st)
    (Some op) (operationMessage st) (path st).

(** [setOperationMessage] *)
Definition setOperationMessage (m : string) (st : Store) : Store :=
  mkStore (s3Objects st) (sourceKey st) (destinationKey st) (newName st)
    (operationType st) (Some m) (path st).

(** [resetFileOperation] *)
Definition resetFileOperation (st : Store) : Store :=
  mkStore (s3Objects st) None None None None None (path st).

(** The server actions of [actions/s3-actions.ts] as the hooks call them:
    functions of the server's state that answer a Result. The hooks are
    written against this interface; the actions themselves, with the
    module-level [s3ObjectCache] of [getObjectsAction], are the instance
    [ServerActions.actions] further down. The delimiter of [getObjectsAction]
    is left out here, the hooks always passing [undefined]. *)
Class S3Actions (Srv : Type) : Type := {
  createS3FolderAction : string -> Srv -> OperationResult bool * Srv;
  moveS3ObjectAction : string -> string -> Srv -> OperationResult bool * Srv;
  moveS3DirectoryAction : string -> string -> Srv -> OperationResult bool * Srv;
  copyS3ObjectAction : string -> string -> Srv -> OperationResult bool * Srv;
  copyS3DirectoryAction : string -> string -> Srv -> OperationResult bool * Srv;
  renameS3ObjectAction : string -> string -> Srv -> OperationResult bool * Srv;
  renameS3DirectoryAction : string -> string -> Srv -> OperationResult bool * Srv;
  deleteS3ObjectAction : string -> Srv -> OperationResult bool * Srv;
  deleteS3DirectoryAction : string -> Srv -> OperationResult bool * Srv;
  getObjectsAction :
    string -> bool -> Srv -> OperationResult (list S3Object) * Srv
}.

(** The calls made to the server actions, as they are logged. *)
Inductive ActionCall : Type :=
| CreateS3Folder (destination : string)
| MoveS3Object (source destination : string)
| MoveS3Directory (source destination : string)
| CopyS3Object (source destination : string)
| CopyS3Directory (source destination : string)
| RenameS3Object (source destination : string)
| RenameS3Directory (source destination : string)
| DeleteS3Object (source : string)
| DeleteS3Directory (source : string)
| GetObjects (k : string) (refresh : bool).

(** The browser side: the stores, the server behind the actions, and the log
    of the action calls made so far. *)
Record Client (Srv : Type) : Type := mkClient {
  store : Store;
  server : Srv;
  calls : list ActionCall
}.
Arguments mkClient {Srv} _ _ _.
Arguments store {Srv} _.
Arguments server {Srv} _.
Arguments calls {Srv} _.

Section Orchestrator.

Context {Srv : Type} `{S3Actions Srv}.

(** [await action(...)]: the call is logged and the server moves on. *)
Definition callAction {T} (call : ActionCall)
    (action : Srv -> OperationResult T * Srv) (c : Client Srv)
  : OperationResult T * Client Srv :=
  let (response, server') := action (server c) in
  (response, mkClient (store c) server' (calls c ++ [call])).

Definition updateStore (f : Store -> Store) (c : Client Srv) : Client Srv :=
  mkClient (f (store c)) (server c) (calls c).

(** [getS3Objects(key, refresh)] of [use-s3-navigation.ts] *)
Definition getS3Objects (k : string) (refresh : bool) (c : Client Srv)
  : OperationResult bool * Client Srv :=
  let (response, c1) :=
    callAction (GetObjects k refresh) (getObjectsAction k refresh) c in
  match success response, data response with
  | true, Some objects =>
      (Result.Success (Some true) None,
       updateStore (setPath k) (updateStore (setS3Objects objects) c1))
  | _, _ => (Result.ConvertFailure response, c1)
  end.

(** [dispatchS3Action] *)
Definition dispatchS3Action (operationType : FileOperationType)
    (objectType : S3ObjectType) (sourceKey destination : string)
    (c : Client Srv) : OperationResult bool * Client Srv :=
  let dispatched :=
    match operationType, objectType with
    | CREATE, DIRECTORY =>
        Some (callAction (CreateS3Folder destination)
                (createS3FolderAction destination) c)
    | MOVE, FILE =>
        Some (callAction (MoveS3Object sourceKey destination)
                (moveS3ObjectAction sourceKey destination) c)
    | MOVE, DIRECTORY =>
        Some (callAction (MoveS3Directory sourceKey destination)
                (moveS3DirectoryAction sourceKey destination) c)
    | COPY, FILE =>
        Some (callAction (CopyS3Object sourceKey destination)
                (copyS3ObjectAction sourceKey destination) c)
    | COPY, DIRECTORY =>
        Some (callAction (CopyS3Directory sourceKey destination)
                (copyS3DirectoryAction sourceKey destination) c)
    | RENAME, FILE =>
        Some (callAction (RenameS3Object sourceKey destination)
                (renameS3ObjectAction sourceKey destination) c)
    | RENAME, DIRECTORY =>
        Some (callAction (RenameS3Directory sourceKey destination)
                (renameS3DirectoryAction sourceKey destination) c)
    | DELETE, FILE =>
        Some (callAction (DeleteS3Object sourceKey)
                (deleteS3ObjectAction sourceKey) c)
    | DELETE, DIRECTORY =>
        Some (callAction (DeleteS3Directory sourceKey)
                (deleteS3DirectoryAction sourceKey) c)
    | CREATE, FILE => None
    end in
  match dispatched with
  | None => (Result.Failure "Invalid operation or file type" None, c)
  | Some (response, c1) =>
      if success response
      then
        let (_, c2) := getS3Objects (getPath (store c1)) false c1 in
        (response, updateStore resetFileOperation c2)
      else (response, c1)
  end.

(** The string value of the enumeration, which is already lower case. *)
Definition operationName (operationType : FileOperationType) : string :=
  match operationType with
  | RENAME => "rename"
  | DELETE => "delete"
  | COPY => "copy"
  | MOVE => "move"
  | CREATE => "create"
  end.

Definition missingParameters (operationType : FileOperationType)
  : OperationResult bool :=
  let message :=
    "Missing required parameters for " +:+ operationName operationType
      +:+ " operation, sourcekey, operationType" in
  Result.Failure message (Some (Error message)).

(** The local [objectType] of [validateAndDispatchS3Action]:
    [sourceKey.endsWith('/') ? DIRECTORY : FILE]. *)
Definition sourceObjectType (sourceKey : string) : S3ObjectType :=
  if Js.endsWith sourceKey "/" then DIRECTORY else FILE.

(** [validateAndDispatchS3Action]; [sourceKey] is the store's. *)
Definition validateAndDispatchS3Action (operationType : FileOperationType)
    (newName : option string) (c : Client Srv)
  : OperationResult bool * Client Srv :=
  match sourceKey (store c) with
  | Some sourceKey =>
      if String.eqb sourceKey ""
      then (missingParameters operationType, c)
      else
        let objectType := sourceObjectType sourceKey in
        if bool_decide (operationType = DELETE)
        then dispatchS3Action operationType objectType sourceKey "" c
        else
          let destinationKey :=
            if String.eqb (getPath (store c)) "" then "/"
            else getPath (store c) in
          let destination :=
            convertSourceKeyToDestinationKey sourceKey destinationKey in
          let destination :=
            if Js.truthy newName
            then renameDestinationKey destination (Js.orEmpty newName)
            else destination in
          if bool_decide (operationType = CREATE)
          then
            let destination :=
              if negb (Js.endsWith destination "/")
              then destination +:+ "/" else destination in
            dispatchS3Action operationType DIRECTORY sourceKey destination c
          else dispatchS3Action operationType objectType sourceKey destination c
  | None => (missingParameters operationType, c)
  end.

(** [getDefaultMessage] *)
Definition getDefaultMessage (operation : option FileOperationType) : string :=
  match operation with
  | Some MOVE => "Moving S3 object..."
  | Some COPY => "Copying S3 object..."
  | Some DELETE => "Deleting S3 object..."
  | Some RENAME => "Renaming S3 object..."
  | Some CREATE => "Creating S3 directory..."
  | None => "Processing S3 operation..."
  end.

(** [updateProcessingState(operation)] *)
Definition updateProcessingState (operation : option FileOperationType)
    (c : Client Srv) : Client Srv :=
  updateStore (setOperationMessage (getDefaultMessage operation)) c.

(** [createS3Directory] *)
Definition createS3Directory (newName : string) (c : Client Srv)
  : OperationResult bool * Client Srv :=
  if negb (bool_decide (operationType (store c) = Some CREATE))
  then (Result.Failure "Invalid operation type for create operation"
          (Some (Error "Expected CREATE operation type")), c)
  else if String.eqb newName ""
  then (Result.Failure "New name cannot be empty" None, c)
  else validateAndDispatchS3Action CREATE (Some newName)
         (updateProcessingState (Some CREATE) c).

(** [moveS3Object] *)
Definition moveS3Object (c : Client Srv) : OperationResult bool * Client Srv :=
  if negb (bool_decide (operationType (store c) = Some MOVE))
  then (Result.Failure "Opoeration type is not set to MOVE"
          (Some (Error "Expected MOVE operation type")), c)
  else validateAndDispatchS3Action MOVE None
         (updateProcessingState (Some MOVE) c).

(** [copyS3Object] *)
Definition copyS3Object (c : Client Srv) : OperationResult bool * Client Srv :=
  if negb (bool_decide (operationType (store c) = Some COPY))
  then (Result.Failure "Operation type is not set to COPY"
          (Some (Error "Expected COPY operation type")), c)
  else validateAndDispatchS3Action COPY None
         (updateProcessingState (Some COPY) c).

(** [deleteS3Object] *)
Definition deleteS3Object (c : Client Srv) : OperationResult bool * Client Srv :=
  if negb (bool_decide (operationType (store c) = Some DELETE))
  then (Result.Failure "Operation type is not set to DELETE"
          (Some (Error "Expected DELETE operation type")), c)
  else validateAndDispatchS3Action DELETE None
         (updateProcessingState (Some DELETE) c).

(** [renameS3Object] *)
Definition renameS3Object (newName : string) (c : Client Srv)
  : OperationResult bool * Client Srv :=
  if negb (bool_decide (operationType (store c) = Some RENAME))
  then (Result.Failure "Operation type is not set to RENAME"
          (Some (Error "Expected RENAME operation type")), c)
  else validateAndDispatchS3Action RENAME (Some newName)
         (updateProcessingState (Some RENAME) c).

(** The five operations the orchestrator offers. *)
Inductive Operation : Type :=
| Create (newName : string)
| Move
| Copy
| Delete
| Rename (newName : string).

Definition perform (op : Operation) (c : Client Srv)
  : OperationResult bool * Client Srv :=
  match op with
  | Create newName => createS3Directory newName c
  | Move => moveS3Object c
  | Copy => copyS3Object c
  | Delete => deleteS3Object c
  | Rename newName => renameS3Object newName c
  end.

End Orchestrator.

(** ** The upload hook ([hooks/s3/use-s3-upload-operations.ts])

    The state of the hook is passed explicitly, and state updates take effect
    in the order they are issued. What happens at the awaits of one upload
    (the upload-URL request, [axios.put], the re-listing) is an input of
    [uploadSingleFile]. Progress events are left out. *)
Module Upload.

Record File : Type := mkFile {
  fileName : string;
  size : Z
}.

Inductive Status : Type := pending | uploading | completed | error | cancelled.

Record FileUploadStatus : Type := mkFileUploadStatus {
  file : File;
  progress : Z;
  status : Status;
  errorMessage : option string
}.

(** [Partial<Omit<FileUploadStatus, 'file'>>] *)
Record StatusUpdate : Type := mkStatusUpdate {
  newProgress : option Z;
  newStatus : option Status;
  newError : option string
}.

Record AbortController : Type := mkAbortController {
  aborted : bool
}.

(** What happens during one upload. With the server actions answering:
    the transfer completes, it fails with an error, or the user cancels
    through [cancelUpload] or [cancelAllUploads], which aborts the
    controller's signal. Or an awaited server action rejects instead of
    answering: the upload-URL request, or the re-listing that follows a
    completed transfer. *)
Inductive InFlight : Type :=
| Completes
| Fails (e : JsError)
| UserCancels
| UserCancelsAll
| UrlRequestRejects (e : JsError)
| RelistingRejects (e : JsError).

Record State : Type := mkState {
  files : list File;
  fileStatuses : list FileUploadStatus;
  currentFileIndex : Z;
  isSubmitting : bool;
  uploadProgress : Z;
  fileNameExist : bool;
  currentFile : option File;
  abortControllerRef : option AbortController;
  navigationPath : string;
  refreshes : list string
}.

Definition setFileStatuses (f : list FileUploadStatus -> list FileUploadStatus)
    (st : State) : State :=
  mkState (files st) (f (fileStatuses st)) (currentFileIndex st) (isSubmitting st)
    (uploadProgress st) (fileNameExist st) (currentFile st)
    (abortControllerRef st) (navigationPath st) (refreshes st).

Definition setCurrentFileIndex (i : Z) (st : State) : State :=
  mkState (files st) (fileStatuses st) i (isSubmitting st)
    (uploadProgress st) (fileNameExist st) (currentFile st)
    (abortControllerRef st) (navigationPath st) (refreshes st).

Definition setIsSubmitting (b : bool) (st : State) : State :=
  mkState (files st) (fileStatuses st) (currentFileIndex st) b
    (uploadProgress st) (fileNameExist st) (currentFile st)
    (abortControllerRef st) (navigationPath st) (refreshes st).

Definition setProgress (p : Z) (st : State) : State :=
  mkState (files st) (fileStatuses st) (currentFileIndex st) (isSubmitting st)
    p (fileNameExist st) (currentFile st)
    (abortControllerRef st) (navigationPath st) (refreshes st).

Definition setFileNameExist (b : bool) (st : State) : State :=
  mkState (files st) (fileStatuses st) (currentFileIndex st) (isSubmitting st)
    (uploadProgress st) b (currentFile st)
    (abortControllerRef st) (navigationPath st) (refreshes st).

Definition setCurrentFile (f : option File) (st : State) : State :=
  mkState (files st) (fileStatuses st) (currentFileIndex st) (isSubmitting st)
    (uploadProgress st) (fileNameExist st) f
    (abortControllerRef st) (navigationPath st) (refreshes st).

Definition setAbortControllerRef (c : option AbortController) (st : State) : State :=
  mkState (files st) (fileStatuses st) (currentFileIndex st) (isSubmitting st)
    (uploadProgress st) (fileNameExist st) (currentFile st)
    c (navigationPath st) (refreshes st).

(** [await updateS3Objects(getPath())] when it settles: the re-listing is
    logged in [refreshes]. *)
Definition updateS3Objects (k : string) (st : State) : State :=
  mkState (files st) (fileStatuses st) (currentFileIndex st) (isSubmitting st)
    (uploadProgress st) (fileNameExist st) (currentFile st)
    (abortControllerRef st) (navigationPath st) (refreshes st ++ [k]).

(** [handleError]; an error of any class carries a message. *)
Definition handleError (e : JsError) : string :=
  match e with
  | CanceledError _ => "Upload cancelled"
  | AxiosError m => m
  | Error m => m
  | S3ServiceException _ m => m
  end.

(** [updateFileStatus], for an index inside the array, which is what its
    callers pass; beyond it JavaScript would extend the array, and the
    list is left as it is. *)
Definition updateFileStatus (prevStatuses : list FileUploadStatus)
    (index : nat) (statusUpdate : StatusUpdate) : list FileUploadStatus :=
  match prevStatuses !! index with
  | Some old =>
      <[index :=
          {| file := file old;
             progress := default (progress old) (newProgress statusUpdate);
             status := default (status old) (newStatus statusUpdate);
             errorMessage :=
               match newError statusUpdate with
               | Some m => Some m
               | None => errorMessage old
               end |}]> prevStatuses
  | None => prevStatuses
  end.

(** [handleFiles] *)
Definition handleFiles (newFiles : list File) (st : State) : State :=
  setFileStatuses
    (fun _ => map (fun f => {| file := f; progress := 0%Z; status := pending;
                               errorMessage := None |}) newFiles)
    (mkState newFiles (fileStatuses st) (currentFileIndex st) (isSubmitting st)
       (uploadProgress st) (fileNameExist st) (currentFile st)
       (abortControllerRef st) (navigationPath st) (refreshes st)).

(** [cancelUpload] *)
Definition cancelUpload (st : State) : State :=
  match abortControllerRef st with
  | Some _ =>
      setProgress 0%Z
        (setAbortControllerRef (Some {| aborted := true |}) st)
  | None => st
  end.

(** The loop of [cancelAllUploads]: [n] more rounds from index [i] on. *)
Fixpoint cancelAll_loop (n i : nat) (updated : list FileUploadStatus)
  : list FileUploadStatus :=
  match n with
  | O => updated
  | Datatypes.S n' =>
      let updated' :=
        match updated !! i with
        | Some s =>
            match status s with
            | uploading | pending =>
                updateFileStatus updated i
                  {| newProgress := None; newStatus := Some cancelled;
                     newError := None |}
            | _ => updated
            end
        | None => updated
        end in
      cancelAll_loop n' (Datatypes.S i) updated'
  end.

(** [cancelAllUploads] *)
Definition cancelAllUploads (st : State) : State :=
  setCurrentFileIndex (-1)%Z
    (setFileStatuses
       (fun prev => cancelAll_loop (List.length prev) 0 prev)
       (cancelUpload st)).

(** [performUpload]: [Some true] for [true], [None] for [undefined]. The
    transfer also completes in the run whose re-listing rejects afterwards;
    in the run whose URL request rejects no transfer is started, and
    [uploadSingleFile] does not get here. *)
Definition performUpload (f : File) (signedUrl : string)
    (controller : AbortController) (inFlight : InFlight) (st : State)
  : option bool * State :=
  let finally (st : State) :=
    setFileNameExist false (setAbortControllerRef None st) in
  match inFlight with
  | Completes | RelistingRejects _ => (Some true, finally st)
  | UrlRequestRejects e => (None, finally st)
  | Fails e =>
      let _message := handleError e in
      (None, finally st)
  | UserCancels =>
      let _message := handleError (CanceledError "canceled") in
      (None, finally (cancelUpload st))
  | UserCancelsAll =>
      let _message := handleError (CanceledError "canceled") in
      (None, finally (cancelAllUploads st))
  end.

Record UploadDetails : Type := mkUploadDetails {
  location : string;
  signedUrl : string;
  controller : AbortController
}.

Section Hook.

(** [getUploadPresignedUrlAction] of [actions/s3-actions.ts], a wrapper
    of [generateUploadPresignedUrl]: the answer it gives when it
    answers, any function here. Whether the call answers or rejects is
    said by [InFlight]. *)
Variable getUploadPresignedUrlAction : string -> bool -> OperationResult string.

(** [prepareUpload], which throws when the awaited action rejects; the
    response is compared with [S3Responses.FileNameExists] by its
    message, and the path is taken to have no white space around it, so
    that [trim] changes nothing. *)
Definition prepareUpload (f : File) (overwrite : bool)
    (inFlight : InFlight) (st : State)
  : Completion (OperationResult UploadDetails) * State :=
  let path := navigationPath st in
  let currentLocation :=
    if Js.endsWith path "/" then path else path +:+ "/" in
  let location := currentLocation +:+ fileName f in
  match inFlight with
  | UrlRequestRejects e => (Throw e, st)
  | _ =>
      let response := getUploadPresignedUrlAction location overwrite in
      if negb (success response) || negb (Js.truthy (data response))
      then
        (Normal (Result.ConvertFailure response),
         setFileNameExist
           (bool_decide
              (message response = message S3Responses.FileNameExists))
           st)
      else
        let controller := {| aborted := false |} in
        (Normal
           (Result.Success
              (Some {| location := location;
                       signedUrl := Js.orEmpty (data response);
                       controller := controller |}) None),
         setAbortControllerRef (Some controller) st)
  end.

(** [uploadSingleFile]; [catch] is its [catch] block, entered when
    [prepareUpload] throws or when [await updateS3Objects(getPath())]
    rejects. *)
Definition uploadSingleFile (f : File) (overwrite : bool)
    (inFlight : InFlight) (st : State) : OperationResult bool * State :=
  let catch (thrown : JsError) (st : State) :=
    (Result.Failure ("Upload error: " +:+ handleError thrown) None, st) in
  let st := setCurrentFile (Some f) st in
  match prepareUpload f overwrite inFlight st with
  | (Throw thrown, st) => catch thrown st
  | (Normal uploadResult, st) =>
      if negb (success uploadResult)
      then (Result.ConvertFailure uploadResult, st)
      else
        match data uploadResult with
        | Some details =>
            if negb (Js.truthy (Some (signedUrl details)))
            then (Result.ConvertFailure uploadResult, st)
            else
              let (uploadSuccess, st) :=
                performUpload f (signedUrl details) (controller details)
                  inFlight st in
              match uploadSuccess with
              | Some true =>
                  let st := setProgress 0%Z st in
                  match inFlight with
                  | RelistingRejects thrown => catch thrown st
                  | _ =>
                      let st := updateS3Objects (navigationPath st) st in
                      let st := setCurrentFile None st in
                      (Result.Success (Some true) None, st)
                  end
              | _ => (Result.Failure "Upload failed" None, st)
              end
        | None => (Result.ConvertFailure uploadResult, st)
        end
  end.

Record Counts : Type := mkCounts {
  successCount : nat;
  errorCount : nat
}.

(** The [for] loop of [uploadMultipleFiles] from index [i] on; [files]
    and [fileStatuses] are the ones the function captured when it was
    called, [inFlight i] is what happens during the upload of file
    [i]. Reading the status of a missing entry throws, which ends the
    loop. *)
Fixpoint uploadMultipleFiles_loop (remaining : list File) (i : nat)
    (capturedStatuses : list FileUploadStatus) (overwrite : bool)
    (inFlight : nat -> InFlight) (counts : Counts) (st : State)
  : Counts * State :=
  match remaining with
  | [] => (counts, st)
  | f :: rest =>
      match status <$> capturedStatuses !! i with
      | None => (counts, st)
      | Some completed | Some cancelled =>
          uploadMultipleFiles_loop rest (Datatypes.S i) capturedStatuses
            overwrite inFlight counts st
      | Some _ =>
          let st := setCurrentFileIndex (Z.of_nat i) st in
          let st :=
            setFileStatuses
              (fun prev =>
                 updateFileStatus prev i
                   {| newProgress := None; newStatus := Some uploading;
                      newError := None |}) st in
          let (result, st) := uploadSingleFile f overwrite (inFlight i) st in
          let st :=
            setFileStatuses
              (fun prev =>
                 if negb (success result)
                 then updateFileStatus prev i
                        {| newProgress := None; newStatus := Some error;
                           newError := message result |}
                 else updateFileStatus prev i
                        {| newProgress := Some 100%Z;
                           newStatus := Some completed;
                           newError := None |}) st in
          let counts :=
            if negb (success result)
            then mkCounts (successCount counts) (Datatypes.S (errorCount counts))
            else mkCounts (Datatypes.S (successCount counts)) (errorCount counts) in
          uploadMultipleFiles_loop rest (Datatypes.S i) capturedStatuses
            overwrite inFlight counts st
      end
  end.

(** [uploadMultipleFiles]; the re-listing of its [finally] block is
    taken to settle. *)
Definition uploadMultipleFiles (overwrite : bool)
    (inFlight : nat -> InFlight) (st : State) : Counts * State :=
  if (List.length (files st) =? 0)%nat then (mkCounts 0 0, st)
  else
    let st1 := setIsSubmitting true st in
    let (counts, st2) :=
      uploadMultipleFiles_loop (files st) 0 (fileStatuses st) overwrite
        inFlight (mkCounts 0 0) st1 in
    let st3 := setIsSubmitting false (setCurrentFileIndex (-1)%Z st2) in
    (counts, updateS3Objects (navigationPath st3) st3).

End Hook.

(** The hook's state right after [setFiles(newFiles)] in the folder
    [path]. *)
Definition selected (path : string) (newFiles : list File) : State :=
  handleFiles newFiles
    {| files := []; fileStatuses := []; currentFileIndex := (-1)%Z;
       isSubmitting := false; uploadProgress := 0%Z; fileNameExist := false;
       currentFile := None; abortControllerRef := None;
       navigationPath := path; refreshes := [] |}.

(** An upload-URL action that signs every request. *)
Definition signsAll (location : string) (overwrite : bool)
  : OperationResult string :=
  Result.Success (Some ("https://media.s3/" +:+ location +:+ "?X-Amz-Signature=0"))
    None.

End Upload.

(** A server for concrete runs of the hooks: its state says whether the
    mutations succeed, and every listing is empty. *)
Module StubServer.

Definition mutate (ok : bool) : OperationResult bool * bool :=
  (if ok then Result.Success (Some true) None
   else Result.Failure "Error" None, ok).

#[global] Instance actions : S3Actions bool := {|
  createS3FolderAction := fun _ => mutate;
  moveS3ObjectAction := fun _ _ => mutate;
  moveS3DirectoryAction := fun _ _ => mutate;
  copyS3ObjectAction := fun _ _ => mutate;
  copyS3DirectoryAction := fun _ _ => mutate;
  renameS3ObjectAction := fun _ _ => mutate;
  renameS3DirectoryAction := fun _ _ => mutate;
  deleteS3ObjectAction := fun _ => mutate;
  deleteS3DirectoryAction := fun _ => mutate;
  getObjectsAction := fun _ _ ok => (Result.Success (Some []) None, ok)
|}.

(** A client in the folder [docs/] with a pending operation on [source]. *)
Definition pending (source : string) (op : FileOperationType) (ok : bool)
  : Client bool :=
  {| store := mkStore [] (Some source) None None (Some op) None "docs/";
     server := ok;
     calls := [] |}.

End StubServer.

(** ** Observations used to state the properties *)

(** [error instanceof S3ServiceException && error.name === 'NotFound'] *)
Definition isNotFound (e : JsError) : bool :=
  match e with
  | S3ServiceException name _ => String.eqb name "NotFound"
  | _ => false
  end.

Section Observations.

Context {B : Type} `{S3Client B}.

(** The world once [command] has been sent from [w]. *)
Definition afterSend (command : Command) (w : World B) : World B :=
  {| backend := snd (client_send command (backend w));
     sent := sent w ++ [command] |}.

(** The probe's answer, read off the backend's answer to [HeadObject]. *)
Definition probeAnswer (c : Completion CommandOutput) : OperationResult bool :=
  match c with
  | Normal _ => Result.Success (Some true) None
  | Throw e =>
      if isNotFound e then Result.Success (Some false) None
      else Result.Failure "Error checking if S3 object exists" (Some e)
  end.

(** The probe says "definitely exists". *)
Definition saysExists (r : OperationResult bool) : bool :=
  success r && bool_decide (data r = Some true).

End Observations.

Section OrchestratorObservations.

Context {Srv : Type} `{S3Actions Srv}.

(** What a successful dispatch leaves behind, seen from the client [c] it
    started from: the mutation and then the re-listing of the current path
    were called, the context is cleared, and the listing is replaced when
    the re-listing answered one. *)
Definition refreshedAndReset (c c' : Client Srv) : Prop :=
  exists (mutation : ActionCall) (srv1 : Srv),
    let listing := getObjectsAction (path (store c)) false srv1 in
    calls c' = calls c ++ [mutation; GetObjects (path (store c)) false]
    /\ server c' = snd listing
    /\ sourceKey (store c') = None
    /\ operationType (store c') = None
    /\ (forall objects,
          success (fst listing) = true ->
          data (fst listing) = Some objects ->
          s3Objects (store c') = objects).


End OrchestratorObservations.

(** ** Upload URLs ([generateUploadPresignedUrl] of [lib/s3/s3-queries.ts]) *)

(** The presigner behind [getSignedUrl(client, command, { expiresIn })] for a
    [PutObjectCommand] with the given key and content type. *)
Class UploadPresigner (S : Type) : Type :=
  getSignedUploadUrl : string -> string -> Z -> S -> Completion string * S.

(** The storage, the presigner and the log of the signing requests. *)
Record UploadUrlWorld (B S : Type) : Type := mkUploadUrlWorld {
  storage : World B;
  uploadPresigner : S;
  uploadSigningRequests : list (string * string * Z)
}.
Arguments mkUploadUrlWorld {B S} _ _ _.
Arguments storage {B S} _.
Arguments uploadPresigner {B S} _.
Arguments uploadSigningRequests {B S} _.

Section UploadUrl.

Context {B : Type} `{S3Client B} {S : Type} `{UploadPresigner S}.

(** [s3SignedUrlExpires] of the configuration. *)
Variable s3SignedUrlExpires : Z.

(** [generateUploadPresignedUrl(key, overwrite, contentType)]. The guard
    [if (!key || key.trim() === '') key = key || '/'] replaces a missing or
    empty key by ['/'] and leaves every other key, one of white space
    included, as it is. *)
Definition generateUploadPresignedUrl (key : option string) (overwrite : bool)
    (contentType : string) (w : UploadUrlWorld B S)
  : OperationResult string * UploadUrlWorld B S :=
  let key := if Js.truthy key then Js.orEmpty key else "/" in
  match checkIfObjectKeyExists key (storage w) with
  | (Throw error, storage') =>
      (Result.Failure "Error generating presigned URL" (Some error),
       mkUploadUrlWorld storage' (uploadPresigner w) (uploadSigningRequests w))
  | (Normal exists_, storage') =>
      if success exists_ && bool_decide (data exists_ = Some true)
         && negb overwrite
      then (S3Responses.FileNameExists,
            mkUploadUrlWorld storage' (uploadPresigner w) (uploadSigningRequests w))
      else
        let (signed, presigner') :=
          getSignedUploadUrl key contentType s3SignedUrlExpires (uploadPresigner w) in
        let requests :=
          uploadSigningRequests w ++ [(key, contentType, s3SignedUrlExpires)] in
        match signed with
        | Normal url =>
            (Result.Success (Some url) None,
             mkUploadUrlWorld storage' presigner' requests)
        | Throw error =>
            (Result.Failure "Error generating presigned URL" (Some error),
             mkUploadUrlWorld storage' presigner' requests)
        end
  end.

End UploadUrl.

(** A presigner for concrete runs that signs every upload. *)
Module UploadStub.

#[global] Instance signer : UploadPresigner unit :=
  fun k _ _ s => (Normal ("https://media.s3/" +:+ k +:+ "?X-Amz-Signature=put"), s).

End UploadStub.

(** ** More of the orchestrator and of the navigation
    ([hooks/s3/use-s3-object-operations.ts], [hooks/s3/use-s3-navigation.ts]) *)

Module JsIndex.

(** [s.lastIndexOf(c)] for a one-character argument; [None] is [-1]. *)
Fixpoint lastIndexOf (s : string) (c : ascii) : option nat :=
  match s with
  | EmptyString => None
  | String x rest =>
      match lastIndexOf rest c with
      | Some i => Some (S i)
      | None => if Ascii.eqb x c then Some O else None
      end
  end.

(** [s.slice(0, -1)] *)
Definition dropLast (s : string) : string :=
  substring 0 (String.length s - 1) s.

End JsIndex.

Section Navigation.

Context {Srv : Type} `{S3Actions Srv}.

(** [setOperationContext] *)
Definition setOperationContext (k : string) (operationType : FileOperationType)
    (c : Client Srv) : OperationResult bool * Client Srv :=
  if String.eqb k ""
  then (Result.Failure "Key cannot be empty" None, c)
  else (Result.Success (Some true) None,
        updateStore (setOperationType operationType)
          (updateStore (setSourceKey k) c)).

(** [updateS3Objects(key)] of the navigation hook; the [loading] flag is
    left out. *)
Definition updateS3Objects (k : string) (c : Client Srv) : Client Srv :=
  snd (getS3Objects k true (updateStore (setPath k) c)).

(** [refreshCurrentPath] *)
Definition refreshCurrentPath (c : Client Srv) : Client Srv :=
  let currentPath := getPath (store c) in
  if String.eqb currentPath "" then c
  else snd (getS3Objects currentPath false c).

(** [toParentDirectory] *)
Definition toParentDirectory (c : Client Srv) : Client Srv :=
  let currentLocation := getPath (store c) in
  if String.eqb currentLocation "/" || String.eqb currentLocation "" then c
  else
    let trimmedPath :=
      if Js.endsWith currentLocation "/"
      then JsIndex.dropLast currentLocation
      else currentLocation in
    match JsIndex.lastIndexOf trimmedPath "/" with
    | Some (S i) =>
        let parentLocation := substring 0 (S i) trimmedPath +:+ "/" in
        snd (getS3Objects parentLocation false c)
    | _ =>
        updateStore (setPath "") (snd (getS3Objects "" false c))
    end.

(** The operation type each operation of the orchestrator expects. *)
Definition expectedType (op : Operation) : FileOperationType :=
  match op with
  | Create _ => CREATE
  | Move => MOVE
  | Copy => COPY
  | Delete => DELETE
  | Rename _ => RENAME
  end.


End Navigation.

(** ** More of the upload hook ([hooks/s3/use-s3-upload-operations.ts]) *)

From Stdlib Require Import DecimalString.

Module UploadChecks.

(** [`${n}`] for a count. *)
Definition showCount (n : nat) : string :=
  NilZero.string_of_uint (Nat.to_uint n).

Section Validation.

(** [readableFileSize] of [lib/file-utilities], which computes with
    floating-point logarithms and is taken as given. *)
Variable readableFileSize : Z -> string.

(** [validateFiles], for the limit that [s3UploadLimit()] answers
    ([None] for [null]); a limit of [0] is falsy, like [null]. *)
Definition validateFiles (uploadLimit : option Z) (st : Upload.State)
  : OperationResult bool :=
  if (List.length (Upload.files st) =? 0)%nat
  then Result.Failure "Please select at least one file" None
  else
    match uploadLimit with
    | Some limit =>
        if Z.eqb limit 0 then Result.Success None None
        else
          let oversizedFiles :=
            List.filter (fun f => (Upload.size f >? limit)%Z) (Upload.files st) in
          if (0 <? List.length oversizedFiles)%nat
          then Result.Failure
                 (showCount (List.length oversizedFiles)
                    +:+ " file(s) exceed the maximum allowed size ("
                    +:+ readableFileSize limit +:+ ")") None
          else Result.Success None None
    | None => Result.Success None None
    end.

End Validation.

(** The upload-URL request of this upload answers (it does not reject). *)
Definition urlRequestAnswers (inFlight : Upload.InFlight) : bool :=
  match inFlight with
  | Upload.UrlRequestRejects _ => false
  | _ => true
  end.

(** What [cancelAllUploads] does to one entry. *)
Definition markCancelled (s : Upload.FileUploadStatus) : Upload.FileUploadStatus :=
  match Upload.status s with
  | Upload.uploading | Upload.pending =>
      {| Upload.file := Upload.file s;
         Upload.progress := Upload.progress s;
         Upload.status := Upload.cancelled;
         Upload.errorMessage := Upload.errorMessage s |}
  | _ => s
  end.

(** An entry that a batch upload takes up: neither completed nor
    cancelled when the batch starts. *)
Definition attempted (s : Upload.FileUploadStatus) : bool :=
  match Upload.status s with
  | Upload.completed | Upload.cancelled => false
  | _ => true
  end.

End UploadChecks.

(** ** Further observations *)

(** A folder prefix: the empty prefix of the root, or a key that ends with
    ['/']. *)
Definition folderPrefix (p : string) : bool :=
  String.eqb p "" || Js.endsWith p "/".

(** A command that changes nothing in the bucket and that the directory
    commands send: a probe or a listing by prefix. *)
Definition readsOnly (c : Command) : bool :=
  match c with
  | HeadObjectCommand _ | ListObjectsV2Command _ _ => true
  | _ => false
  end.

(** A backend that plays a script: each command gets the next answer. *)
Module Scripted.

#[global] Instance script : S3Client (list (Completion CommandOutput)) :=
  fun _ answers =>
    match answers with
    | [] => (Throw (Error "no answer left"), [])
    | answer :: rest => (answer, rest)
    end.

(** A page of a listing, with its continuation token if it has one. *)
Definition page (contents : list _Object) (token : option string)
  : Completion CommandOutput :=
  Normal (ListOutput {| CommonPrefixes := None;
                        Contents := Some contents;
                        Prefix := None;
                        NextContinuationToken := token |}).

(** The requests of a listing that starts with [token] and is then handed
    the [tokens] one after the other. *)
Fixpoint requests (prefix : string) (token : option string)
    (tokens : list string) : list Command :=
  match tokens with
  | [] => [ListObjectsV2Command prefix token]
  | t :: rest =>
      ListObjectsV2Command prefix token :: requests prefix (Some t) rest
  end.

End Scripted.

(** ** The signing-service URL ([lib/url-utilities.ts]) *)

Module UrlUtilities.

(** [configProvider] of [lib/configuration/config-provider]:
    [signingServiceUrl] is the value of the environment variable, [None]
    when it is not set. *)
Definition configProvider (signingServiceUrl : option string) : option string :=
  if negb (Js.truthy signingServiceUrl) then None else signingServiceUrl.

Section Trim.

(** [String.prototype.trim], taken as given. *)
Variable trim : string -> string.

(** [keyToSigningServiceUrl] *)
Definition keyToSigningServiceUrl (signingServiceUrl : option string)
    (key : string) : option string :=
  let apiUrl := configProvider signingServiceUrl in
  if negb (Js.truthy apiUrl) then None
  else
    let apiUrl := Js.orEmpty apiUrl in
    let safeKey := trim key in
    let baseUrl :=
      if Js.endsWith apiUrl "/" then JsIndex.dropLast apiUrl else apiUrl in
    let keyPath :=
      if Js.startsWith safeKey "/" then safeKey else "/" +:+ safeKey in
    Some (baseUrl +:+ keyPath).

End Trim.

End UrlUtilities.

(** ** The listing query ([getObjectsByKeyCommand] of [lib/s3/s3-queries.ts])
    and the server actions ([actions/s3-actions.ts]) *)

Section ListingQuery.

Context {B : Type} `{S3Client B}.

(** A command output is an object, and every object is truthy. *)
Definition outputTruthy (r : CommandOutput) : bool := true.

(** The output as [ListObjectsV2CommandOutputToS3Object] reads it: a field
    that an output does not have reads as [undefined]. *)
Definition listOutput (r : CommandOutput) : ListObjectsV2Output :=
  match r with
  | ListOutput out => out
  | OtherOutput =>
      {| CommonPrefixes := None; Contents := None; Prefix := None;
         NextContinuationToken := None |}
  end.

(** [getObjectsByKeyCommand(key, delimiter = '/')] *)
Definition getObjectsByKeyCommand (key delimiter : option string)
  : Async B (OperationResult (list S3Object)) :=
  let delimiter := default "/" delimiter in
  let key := Js.orEmpty key in
  let command := ListObjectsV2CommandDelimiter key delimiter in
  tryCatch
    (await response <- send command;
     if negb (outputTruthy response)
     then ret (Result.Failure
                 "Response is null or undefined when fetching S3 objects" None)
     else
       let objects := ListObjectsV2CommandOutputToS3Object (listOutput response) in
       ret (Result.Success (Some objects) None))
    (fun error =>
       ret (Result.Failure "Error fetching S3 objects" (Some error))).

End ListingQuery.

Module ServerActions.

(** The state behind the actions: the storage, and the module-level
    [s3ObjectCache]. A cached promise is a resolved one, so the cache holds
    the Result itself. *)
Record Server (B : Type) : Type := mkServer {
  storage : World B;
  s3ObjectCache : gmap string (OperationResult (list S3Object))
}.
Arguments mkServer {B} _ _.
Arguments storage {B} _.
Arguments s3ObjectCache {B} _.

Section Actions.

Context {B : Type} `{S3Client B}.

(** [s3BucketName] of the configuration. *)
Variable BucketName : string.

(** [return await command(...)] in an action: the command runs on the
    storage and its Result is the action's answer. The commands catch
    whatever is thrown in them, so the second case does not arise (an
    action would reject there). *)
Definition answered {T} (command : Async B (OperationResult T))
    (srv : Server B) : OperationResult T * Server B :=
  match command (storage srv) with
  | (Normal result, w) => (result, mkServer w (s3ObjectCache srv))
  | (Throw error, w) =>
      (Result.Failure "rejected" (Some error), mkServer w (s3ObjectCache srv))
  end.

(** [getObjectsAction(key, delimiter, forceRefresh = false)] *)
Definition getObjectsAction (key delimiter : option string)
    (forceRefresh : bool) (srv : Server B)
  : OperationResult (list S3Object) * Server B :=
  match s3ObjectCache srv !! Js.orEmpty key, forceRefresh with
  | Some cached, false => (cached, srv)
  | _, _ =>
      let (result, srv1) :=
        answered (getObjectsByKeyCommand key delimiter) srv in
      (result,
       mkServer (storage srv1)
         (<[Js.orEmpty key := result]> (s3ObjectCache srv1)))
  end.

(** [createS3FolderAction] *)
Definition createS3FolderAction (key : string) :=
  answered (createS3FolderCommand key).

(** [moveS3ObjectAction] *)
Definition moveS3ObjectAction (sourceKey destinationKey : string) :=
  answered (moveS3ObjectCommand BucketName sourceKey destinationKey).

(** [copyS3ObjectAction] *)
Definition copyS3ObjectAction (sourceKey destinationKey : string) :=
  answered (copyS3ObjectCommand BucketName sourceKey destinationKey).

(** [copyS3DirectoryAction] *)
Definition copyS3DirectoryAction (sourceKey destinationKey : string) :=
  answered (copyS3DirectoryCommand BucketName sourceKey destinationKey).

(** [moveS3DirectoryAction] *)
Definition moveS3DirectoryAction (sourceKey destinationKey : string) :=
  answered (moveS3DirectoryCommand BucketName sourceKey destinationKey).

(** [renameS3ObjectAction] *)
Definition renameS3ObjectAction (key newName : string) :=
  answered (renameS3ObjectCommand BucketName key newName).

(** [renameS3DirectoryAction] *)
Definition renameS3DirectoryAction (key newLocationName : string) :=
  answered (renameS3DirectoryCommand BucketName key newLocationName).

(** [deleteS3ObjectAction] *)
Definition deleteS3ObjectAction (key : string) :=
  answered (deleteS3ObjectCommand key).

(** [deleteS3DirectoryAction] *)
Definition deleteS3DirectoryAction (key : string) :=
  answered (deleteS3DirectoryCommand key).

(** The actions as the hooks call them; [getS3Objects] passes
    [undefined] for the delimiter. *)
Definition actions : S3Actions (Server B) :=
  Build_S3Actions (Server B)
    createS3FolderAction
    moveS3ObjectAction
    moveS3DirectoryAction
    copyS3ObjectAction
    copyS3DirectoryAction
    renameS3ObjectAction
    renameS3DirectoryAction
    deleteS3ObjectAction
    deleteS3DirectoryAction
    (fun key refresh => getObjectsAction (Some key) None refresh).

End Actions.

End ServerActions.

(** The application on an in-memory bucket named [media] that holds two
    files in the folder [docs/]: the server with an empty cache, and the
    browser at the root with nothing listed yet. *)
Module MediaApp.

Definition bucket : MemoryBucket.t :=
  MemoryBucket.mk "media" [("docs/a.txt", 1%Z); ("docs/b.txt", 2%Z)] 1000 [].

#[global] Instance actions : S3Actions (ServerActions.Server MemoryBucket.t) :=
  ServerActions.actions "media".

Definition start : Client (ServerActions.Server MemoryBucket.t) :=
  {| store := mkStore [] None None None None None "";
     server := ServerActions.mkServer (MemoryBucket.start bucket) ∅;
     calls := [] |}.

(** The user opens [docs/], picks [docs/a.txt] and asks for its
    deletion. *)
Definition browsed : Client (ServerActions.Server MemoryBucket.t) :=
  snd (getS3Objects "docs/" false start).

Definition deleting : Client (ServerActions.Server MemoryBucket.t) :=
  snd (setOperationContext "docs/a.txt" DELETE browsed).

End MediaApp.
(** * Sample evaluations *)

Example split_path : Js.split "/" "a/b/c.txt" = ["a"; "b"; "c.txt"].
Proof. reflexivity. Qed.

Example split_dir : Js.split "/" "a/b/" = ["a"; "b"; ""].
Proof. reflexivity. Qed.

Example replace_first : Js.replace "a/b/a/c" "a/" "x/y/" = "x/y/b/a/c".
Proof. reflexivity. Qed.

Example replace_dollar : Js.replace "a/b" "a/" "[$&]$$/" = "[a/]$/b".
Proof. reflexivity. Qed.

Example convert_file : convertSourceKeyToDestinationKey "a/b/c.txt" "x/y/" = "x/y/c.txt".
Proof. reflexivity. Qed.

Example convert_directory : convertSourceKeyToDestinationKey "a/b/" "x/y/" = "x/y/b/".
Proof. reflexivity. Qed.

Example rename_file : renameDestinationKey "a/b/c.txt" "new.txt" = "a/b/new.txt".
Proof. reflexivity. Qed.

Example rename_directory : renameDestinationKey "a/b/" "new" = "/a/new/".
Proof. reflexivity. Qed.

Example transform_child : transformS3DirectoryKeys "docs/a.txt" "backup" = "backup/a.txt".
Proof. reflexivity. Qed.

Example transform_first_segment_only :
  transformS3DirectoryKeys "a/b/c.txt" "x/" = "x/b/c.txt".
Proof. reflexivity. Qed.

Example prefix_name : handlePrefixNameSplit "docs/img/" = "img".
Proof. reflexivity. Qed.

(** * Properties *)

(** ** The storage layer *)

Section StorageFacts.

Context {B : Type} `{S3Client B}.
Variable BucketName : string.

Lemma send_eq (command : Command) (w : World B) :
  send command w = (fst (client_send command (backend w)), afterSend command w).
Proof.
  unfold send, afterSend.
  destruct (client_send command (backend w)); reflexivity.
Qed.

Lemma checkIfObjectKeyExists_eq (key : string) (w : World B) :
  checkIfObjectKeyExists key w =
    (Normal (probeAnswer (fst (client_send (HeadObjectCommand key) (backend w)))),
     afterSend (HeadObjectCommand key) w).
Proof.
  unfold checkIfObjectKeyExists, tryCatch, bind.
  rewrite send_eq.
  destruct (fst (client_send (HeadObjectCommand key) (backend w))) as [out|e];
    simpl; [reflexivity|].
  destruct e as [m|n m|m|m]; simpl; try reflexivity.
  destruct (String.eqb n "NotFound"); reflexivity.
Qed.

Lemma deleteS3ObjectCommand_eq (key : string) (w : World B) :
  deleteS3ObjectCommand key w =
    (Normal (match fst (client_send (DeleteObjectCommand key) (backend w)) with
             | Normal _ => Result.Success (Some true) None
             | Throw e => Result.Failure "Error deleting S3 object" (Some e)
             end),
     afterSend (DeleteObjectCommand key) w).
Proof.
  unfold deleteS3ObjectCommand, tryCatch, bind.
  rewrite send_eq.
  destruct (fst (client_send (DeleteObjectCommand key) (backend w)));
    reflexivity.
Qed.

Lemma copyS3ObjectCommand_eq (sourceKey destinationKey : string) (w : World B) :
  let probe := fst (client_send (HeadObjectCommand destinationKey) (backend w)) in
  let w1 := afterSend (HeadObjectCommand destinationKey) w in
  let command :=
    CopyObjectCommand (BucketName +:+ "/" +:+ sourceKey) destinationKey in
  copyS3ObjectCommand BucketName sourceKey destinationKey w =
    if saysExists (probeAnswer probe)
    then (Normal S3Responses.DestinationKeyExist, w1)
    else (Normal (match fst (client_send command (backend w1)) with
                  | Normal _ => Result.Success (Some true) None
                  | Throw e => Result.Failure "Error copying S3 object" (Some e)
                  end),
          afterSend command w1).
Proof.
  intros probe w1 command.
  unfold copyS3ObjectCommand, tryCatch, bind.
  rewrite checkIfObjectKeyExists_eq.
  fold probe. fold w1. fold command. unfold saysExists.
  destruct (success (probeAnswer probe)
            && bool_decide (data (probeAnswer probe) = Some true));
    [reflexivity|].
  rewrite send_eq.
  destruct (fst (client_send command (backend w1))); reflexivity.
Qed.

End StorageFacts.

Lemma probeAnswer_success (c : Completion CommandOutput) :
  success (probeAnswer c) = false <->
  exists e, c = Throw e /\ isNotFound e = false.
Proof.
  destruct c as [out|e]; simpl.
  - split; [discriminate|]. intros (e & He & _). discriminate.
  - destruct (isNotFound e) eqn:E; simpl.
    + split; [discriminate|]. intros (e' & He & Hn).
      injection He as <-. congruence.
    + split; [|reflexivity]. intros _. exists e. split; [reflexivity|assumption].
Qed.

Lemma saysExists_spec (r : OperationResult bool) :
  saysExists r = true <-> success r = true /\ data r = Some true.
Proof.
  unfold saysExists. rewrite andb_true_iff, bool_decide_eq_true. reflexivity.
Qed.

Lemma memory_head (b : MemoryBucket.t) (k : string) :
  MemoryBucket.fault (HeadObjectCommand k) (MemoryBucket.faults b) = None ->
  client_send (HeadObjectCommand k) b =
    (match MemoryBucket.lookup k (MemoryBucket.objects b) with
     | Some _ => Normal OtherOutput
     | None => Throw MemoryBucket.notFound
     end, b).
Proof.
  intros Hf. unfold client_send, MemoryBucket.client, MemoryBucket.handle.
  rewrite Hf. destruct (MemoryBucket.lookup k (MemoryBucket.objects b)); reflexivity.
Qed.

(** C4: The existence check answers a success Result whatever the backend
    says to [HeadObject] short of an error other than not-found: a normal
    answer gives [Success(true)], a [NotFound] service exception gives
    [Success(false)], and the Result is a failure exactly when the backend
    raised some other error, which the failure carries. In the in-memory
    bucket, a key that holds no object (and whose probe meets no injected
    fault) gives [Success(false)]. *)
Theorem checkIfObjectKeyExists_maps_not_found_to_success :
  (forall (B : Type) (client : S3Client B) (key : string) (w : World B),
     exists (r : OperationResult bool) (w' : World B),
       checkIfObjectKeyExists key w = (Normal r, w')
       /\ match fst (client_send (HeadObjectCommand key) (backend w)) with
          | Normal _ => r = Result.Success (Some true) None
          | Throw e =>
              if isNotFound e
              then r = Result.Success (Some false) None
              else r = Result.Failure "Error checking if S3 object exists" (Some e)
          end
       /\ (success r = false <->
           exists e, fst (client_send (HeadObjectCommand key) (backend w)) = Throw e
                     /\ isNotFound e = false))
  /\ (forall (b : MemoryBucket.t) (key : string),
        MemoryBucket.lookup key (MemoryBucket.objects b) = None ->
        MemoryBucket.fault (HeadObjectCommand key) (MemoryBucket.faults b) = None ->
        checkIfObjectKeyExists key (MemoryBucket.start b) =
          (Normal (Result.Success (Some false) None),
           {| backend := b; sent := [HeadObjectCommand key] |})).
Proof.
  split.
  - intros B client key w.
    eexists. eexists. split; [apply checkIfObjectKeyExists_eq|].
    split; [|apply probeAnswer_success].
    destruct (fst (client_send (HeadObjectCommand key) (backend w))) as [out|e];
      simpl; [reflexivity|].
    destruct (isNotFound e); reflexivity.
  - intros b key Hnone Hfault.
    rewrite checkIfObjectKeyExists_eq. unfold afterSend. simpl.
    rewrite (memory_head b key Hfault), Hnone. reflexivity.
Qed.

Lemma checkIfObjectKeyExists_maps_not_found_to_success_witness :
  let b := MemoryBucket.mk "media" [("docs/a.txt", 1%Z)] 1000 [] in
  MemoryBucket.lookup "docs/never.txt" (MemoryBucket.objects b) = None
  /\ MemoryBucket.fault (HeadObjectCommand "docs/never.txt") (MemoryBucket.faults b) = None
  /\ checkIfObjectKeyExists "docs/never.txt" (MemoryBucket.start b) =
       (Normal (Result.Success (Some false) None),
        {| backend := b; sent := [HeadObjectCommand "docs/never.txt"] |}).
Proof.
  intros b. split; [reflexivity|]. split; [reflexivity|].
  apply (proj2 checkIfObjectKeyExists_maps_not_found_to_success); reflexivity.
Defined.

(** C3: When the probe of the destination key answers success with value
    true, [copyS3ObjectCommand] returns the [DestinationKeyExist] sentinel; the
    only command the backend has received is the probe's [HeadObject] (no
    [CopyObject]), and its state is the one the probe left. The sentinel is a
    failure whose message differs from the generic copy failure, and a copy
    whose probe did not say "exists" never returns it. *)
Theorem copyS3ObjectCommand_existing_destination
    (B : Type) (client : S3Client B)
    (BucketName sourceKey destinationKey : string)
    (w w' : World B) (r : OperationResult bool) :
  checkIfObjectKeyExists destinationKey w = (Normal r, w') ->
  success r = true ->
  data r = Some true ->
  copyS3ObjectCommand BucketName sourceKey destinationKey w =
    (Normal S3Responses.DestinationKeyExist, w')
  /\ sent w' = sent w ++ [HeadObjectCommand destinationKey]
  /\ backend w' = snd (client_send (HeadObjectCommand destinationKey) (backend w))
  /\ success S3Responses.DestinationKeyExist = false
  /\ (forall e : option JsError,
        S3Responses.DestinationKeyExist <> Result.Failure "Error copying S3 object" e)
  /\ (forall (s d : string) (w0 w1 : World B) (r0 : OperationResult bool),
        checkIfObjectKeyExists d w0 = (Normal r0, w1) ->
        saysExists r0 = false ->
        fst (copyS3ObjectCommand BucketName s d w0)
          <> Normal S3Responses.DestinationKeyExist).
Proof.
  intros Hprobe Hs Hd.
  rewrite checkIfObjectKeyExists_eq in Hprobe.
  injection Hprobe as Hr Hw. subst w'.
  split.
  { rewrite copyS3ObjectCommand_eq. cbv zeta. rewrite Hr.
    replace (saysExists r) with true; [reflexivity|].
    symmetry. apply saysExists_spec. split; assumption. }
  split; [reflexivity|]. split; [reflexivity|]. split; [reflexivity|].
  split; [intros e Heq; inversion Heq|].
  intros s d w0 w1 r0 Hp Hno.
  rewrite checkIfObjectKeyExists_eq in Hp. injection Hp as Hr0 _.
  rewrite copyS3ObjectCommand_eq. cbv zeta. rewrite Hr0, Hno. simpl.
  unfold S3Responses.DestinationKeyExist, Result.Success, Result.Failure.
  match goal with
  | |- context [match ?c with Normal _ => _ | Throw _ => _ end] => destruct c
  end; intros Heq; inversion Heq.
Qed.

Lemma copyS3ObjectCommand_existing_destination_witness :
  let b := MemoryBucket.mk "media" [("a.txt", 1%Z); ("b.txt", 2%Z)] 1000 [] in
  let w' := {| backend := b; sent := [HeadObjectCommand "b.txt"] |} in
  checkIfObjectKeyExists "b.txt" (MemoryBucket.start b) =
    (Normal (Result.Success (Some true) None), w')
  /\ copyS3ObjectCommand "media" "a.txt" "b.txt" (MemoryBucket.start b) =
       (Normal S3Responses.DestinationKeyExist, w').
Proof.
  intros b w'. split; [reflexivity|].
  apply (copyS3ObjectCommand_existing_destination MemoryBucket.t _
           "media" "a.txt" "b.txt" (MemoryBucket.start b) w'
           (Result.Success (Some true) None));
    reflexivity.
Defined.

Lemma moveS3ObjectCommand_same_key
    (B : Type) (client : S3Client B) (BucketName key : string)
    (w : World B) (out : CommandOutput) (b' : B) :
  client_send (HeadObjectCommand key) (backend w) = (Normal out, b') ->
  moveS3ObjectCommand BucketName key key w =
    (Normal S3Responses.DestinationKeyExist,
     {| backend := b'; sent := sent w ++ [HeadObjectCommand key] |}).
Proof.
  intros Hhead.
  unfold moveS3ObjectCommand, tryCatch, bind.
  rewrite copyS3ObjectCommand_eq. cbv zeta.
  unfold afterSend. rewrite Hhead. reflexivity.
Qed.

(** C9 (amended): Moving (or renaming) an object onto its own key: whenever
    the backend answers the [HeadObject] probe for the key, so that the
    object is reported to exist, [moveS3ObjectCommand key key] returns the
    [DestinationKeyExist] sentinel, a failure, and the probe is the only
    command sent: no copy and no delete. [renameS3ObjectCommand] does the
    same. In the in-memory bucket this holds for every key that holds an
    object and whose probe meets no injected fault, and the bucket is left as
    it was. When the probe is not answered (the backend raises an error for
    it) the move goes on as for a free destination: the copy of the key onto
    itself is sent, and if that is accepted the delete of the key; the move
    answers success when both are accepted. *)
Theorem moveS3ObjectCommand_onto_itself :
  (forall (B : Type) (client : S3Client B) (BucketName key : string)
          (w : World B) (out : CommandOutput) (b' : B),
     client_send (HeadObjectCommand key) (backend w) = (Normal out, b') ->
     moveS3ObjectCommand BucketName key key w =
       (Normal S3Responses.DestinationKeyExist,
        {| backend := b'; sent := sent w ++ [HeadObjectCommand key] |})
     /\ renameS3ObjectCommand BucketName key key w =
          (Normal S3Responses.DestinationKeyExist,
           {| backend := b'; sent := sent w ++ [HeadObjectCommand key] |}))
  /\ (forall (b : MemoryBucket.t) (key : string) (v : Z),
        MemoryBucket.lookup key (MemoryBucket.objects b) = Some v ->
        MemoryBucket.fault (HeadObjectCommand key) (MemoryBucket.faults b) = None ->
        moveS3ObjectCommand (MemoryBucket.name b) key key (MemoryBucket.start b) =
          (Normal S3Responses.DestinationKeyExist,
           {| backend := b; sent := [HeadObjectCommand key] |})
        /\ renameS3ObjectCommand (MemoryBucket.name b) key key (MemoryBucket.start b) =
             (Normal S3Responses.DestinationKeyExist,
              {| backend := b; sent := [HeadObjectCommand key] |}))
  /\ success S3Responses.DestinationKeyExist = false
  /\ (forall (B : Type) (client : S3Client B) (BucketName key : string)
             (w : World B) (e : JsError) (b' : B),
        client_send (HeadObjectCommand key) (backend w) = (Throw e, b') ->
        let copy := CopyObjectCommand (BucketName +:+ "/" +:+ key) key in
        let w1 := afterSend (HeadObjectCommand key) w in
        let w2 := afterSend copy w1 in
        moveS3ObjectCommand BucketName key key w =
          match fst (client_send copy (backend w1)) with
          | Throw e' =>
              (Normal (Result.Failure "Error copying S3 object" (Some e')), w2)
          | Normal _ =>
              (Normal
                 (match fst (client_send (DeleteObjectCommand key) (backend w2)) with
                  | Normal _ => Result.Success (Some true) None
                  | Throw e' =>
                      Result.Failure "Error deleting S3 object" (Some e')
                  end),
               afterSend (DeleteObjectCommand key) w2)
          end).
Proof.
  split; [|split; [|split; [reflexivity|]]]; cycle 2.
  { intros B client BucketName key w e b' Hhead copy w1 w2.
    unfold moveS3ObjectCommand, tryCatch, bind.
    rewrite copyS3ObjectCommand_eq. cbv zeta.
    fold w1. fold copy. fold w2.
    replace (saysExists
               (probeAnswer (fst (client_send (HeadObjectCommand key) (backend w)))))
      with false
      by (rewrite Hhead; cbn [fst probeAnswer]; unfold saysExists;
          destruct (isNotFound e); reflexivity).
    destruct (fst (client_send copy (backend w1))); cbn [negb success Result.Success Result.Failure];
      [|reflexivity].
    rewrite deleteS3ObjectCommand_eq.
    destruct (fst (client_send (DeleteObjectCommand key) (backend w2)));
      reflexivity. }
  - intros B client BucketName key w out b' Hhead.
    unfold renameS3ObjectCommand.
    split; apply (moveS3ObjectCommand_same_key B client BucketName key w out b' Hhead).
  - intros b key v Hsome Hfault.
    unfold renameS3ObjectCommand.
    assert (Hhead : client_send (HeadObjectCommand key)
                      (backend (MemoryBucket.start b)) = (Normal OtherOutput, b)).
    { simpl. rewrite (memory_head b key Hfault), Hsome. reflexivity. }
    split;
      apply (moveS3ObjectCommand_same_key _ _ (MemoryBucket.name b) key
               (MemoryBucket.start b) OtherOutput b Hhead).
Qed.

Lemma moveS3ObjectCommand_onto_itself_witness :
  let b := MemoryBucket.mk "media" [("docs/a.txt", 1%Z); ("docs/b.txt", 2%Z)] 1000 [] in
  MemoryBucket.lookup "docs/a.txt" (MemoryBucket.objects b) = Some 1%Z
  /\ MemoryBucket.fault (HeadObjectCommand "docs/a.txt") (MemoryBucket.faults b) = None
  /\ moveS3ObjectCommand "media" "docs/a.txt" "docs/a.txt" (MemoryBucket.start b) =
       (Normal S3Responses.DestinationKeyExist,
        {| backend := b; sent := [HeadObjectCommand "docs/a.txt"] |}).
Proof.
  intros b. split; [reflexivity|]. split; [reflexivity|].
  apply (proj1 (proj2 moveS3ObjectCommand_onto_itself) b "docs/a.txt" 1%Z);
    reflexivity.
Defined.

(** C9 as stated fails: [docs/a.txt] exists in the bucket, but its probe
    meets a transport error. Renaming the object to its current name then
    sends the copy and the delete, answers success, and the object is gone:
    the sentinel is not returned and the rename is a successful operation
    that destroys the object. *)
Lemma rename_onto_itself_with_failed_probe_deletes :
  let b := MemoryBucket.mk "media" [("docs/a.txt", 1%Z); ("docs/b.txt", 2%Z)] 1000
             [(HeadObjectCommand "docs/a.txt", Error "socket hang up")] in
  let run := renameS3ObjectCommand "media" "docs/a.txt" "docs/a.txt"
               (MemoryBucket.start b) in
  MemoryBucket.lookup "docs/a.txt" (MemoryBucket.objects b) = Some 1%Z
  /\ fst run = Normal (Result.Success (Some true) None)
  /\ fst run <> Normal S3Responses.DestinationKeyExist
  /\ sent (snd run) =
       [HeadObjectCommand "docs/a.txt";
        CopyObjectCommand "media/docs/a.txt" "docs/a.txt";
        DeleteObjectCommand "docs/a.txt"]
  /\ MemoryBucket.lookup "docs/a.txt" (MemoryBucket.objects (backend (snd run))) = None
  /\ fst (moveS3ObjectCommand "media" "docs/a.txt" "docs/a.txt" (MemoryBucket.start b)) =
       Normal (Result.Success (Some true) None).
Proof.
  intros b run.
  split; [reflexivity|].
  split; [vm_compute; reflexivity|].
  split; [vm_compute; intros Heq; inversion Heq|].
  split; [vm_compute; reflexivity|].
  split; vm_compute; reflexivity.
Qed.

(** *** Strings of the bucket's copy source *)

Lemma append_assoc (a b c : string) : (a +:+ b) +:+ c = a +:+ (b +:+ c).
Proof.
  induction a as [|x a IH]; [reflexivity|].
  change (String x ((a +:+ b) +:+ c) = String x (a +:+ (b +:+ c))).
  f_equal. exact IH.
Qed.

Lemma prefix_append (a b : string) : String.prefix a (a +:+ b) = true.
Proof.
  induction a as [|x a IH].
  - destruct b; reflexivity.
  - change (String.prefix (String x a) (String x (a +:+ b)) = true). simpl.
    destruct (ascii_dec x x) as [_|Hne]; [exact IH|congruence].
Qed.

Lemma substring_all (s : string) : substring 0 (String.length s) s = s.
Proof. induction s as [|x s IH]; simpl; [reflexivity|]. f_equal. exact IH. Qed.

Lemma substring_append (a b : string) :
  substring (String.length a) (String.length (a +:+ b) - String.length a) (a +:+ b) = b.
Proof.
  induction a as [|x a IH].
  - change ("" +:+ b) with b. simpl. rewrite Nat.sub_0_r. apply substring_all.
  - change (String x a +:+ b) with (String x (a +:+ b)). simpl. exact IH.
Qed.

Lemma compare_refl (k : string) : String.compare k k = Eq.
Proof.
  pose proof (String.compare_antisym k k) as Ha.
  destruct (String.compare k k); simpl in Ha; congruence.
Qed.

Lemma lookup_put (k : string) (v : Z) (l : list (string * Z)) :
  MemoryBucket.lookup k (MemoryBucket.put k v l) = Some v.
Proof.
  unfold MemoryBucket.lookup.
  induction l as [|[k' v'] l IH]; simpl.
  - rewrite String.eqb_refl. reflexivity.
  - destruct (String.compare k k') eqn:Hc; simpl.
    + rewrite String.eqb_refl. reflexivity.
    + rewrite String.eqb_refl. reflexivity.
    + destruct (String.eqb k' k) eqn:He.
      * apply String.eqb_eq in He. subst k'. rewrite compare_refl in Hc. discriminate.
      * exact IH.
Qed.

Lemma memory_copy (b : MemoryBucket.t) (src dst : string) (v : Z) :
  MemoryBucket.lookup src (MemoryBucket.objects b) = Some v ->
  MemoryBucket.fault (CopyObjectCommand (MemoryBucket.name b +:+ "/" +:+ src) dst)
    (MemoryBucket.faults b) = None ->
  client_send (CopyObjectCommand (MemoryBucket.name b +:+ "/" +:+ src) dst) b =
    (Normal OtherOutput,
     MemoryBucket.mk (MemoryBucket.name b)
       (MemoryBucket.put dst v (MemoryBucket.objects b))
       (MemoryBucket.maxKeys b) (MemoryBucket.faults b)).
Proof.
  intros Hsrc Hfault.
  unfold client_send, MemoryBucket.client, MemoryBucket.handle.
  rewrite Hfault. unfold Js.startsWith.
  rewrite <- (append_assoc (MemoryBucket.name b) "/" src).
  rewrite prefix_append, substring_append, Hsrc.
  reflexivity.
Qed.

Lemma probeAnswer_failure_not_exists (c : Completion CommandOutput) :
  success (probeAnswer c) = false -> saysExists (probeAnswer c) = false.
Proof. unfold saysExists. intros ->. reflexivity. Qed.

(** C8: A probe that could not determine existence does not stop a copy.
    (1) When the destination probe answers a failure Result,
    [copyS3ObjectCommand] goes on to send the [CopyObject] command; its own
    Result is then success if the backend accepts the copy, and never the
    probe's failure. (2) In the in-memory bucket, with an injected fault on the
    destination's [HeadObject] and none on the copy, the object already at the
    destination is replaced by the source's. (3) In the directory pre-check,
    a failed probe of an object's destination key is passed over and the loop
    goes on with the remaining objects; when every probe fails the pre-check
    answers [Success(false)]. *)
Theorem failed_probe_does_not_stop_copy :
  (forall (B : Type) (client : S3Client B)
          (BucketName sourceKey destinationKey : string)
          (w w1 : World B) (r : OperationResult bool),
     checkIfObjectKeyExists destinationKey w = (Normal r, w1) ->
     success r = false ->
     let command :=
       CopyObjectCommand (BucketName +:+ "/" +:+ sourceKey) destinationKey in
     exists r' : OperationResult bool,
       copyS3ObjectCommand BucketName sourceKey destinationKey w =
         (Normal r', afterSend command w1)
       /\ sent (afterSend command w1) =
            sent w ++ [HeadObjectCommand destinationKey; command]
       /\ (forall out, fst (client_send command (backend w1)) = Normal out ->
           r' = Result.Success (Some true) None)
       /\ message r' <> message r)
  /\ (forall (b : MemoryBucket.t) (sourceKey destinationKey : string)
             (v old : Z) (e : JsError),
        MemoryBucket.lookup sourceKey (MemoryBucket.objects b) = Some v ->
        MemoryBucket.lookup destinationKey (MemoryBucket.objects b) = Some old ->
        MemoryBucket.fault (HeadObjectCommand destinationKey)
          (MemoryBucket.faults b) = Some e ->
        isNotFound e = false ->
        MemoryBucket.fault
          (CopyObjectCommand (MemoryBucket.name b +:+ "/" +:+ sourceKey) destinationKey)
          (MemoryBucket.faults b) = None ->
        exists w' : World MemoryBucket.t,
          copyS3ObjectCommand (MemoryBucket.name b) sourceKey destinationKey
            (MemoryBucket.start b) = (Normal (Result.Success (Some true) None), w')
          /\ MemoryBucket.lookup destinationKey
               (MemoryBucket.objects (backend w')) = Some v)
  /\ (forall (B : Type) (client : S3Client B) (object : _Object)
             (rest : list _Object) (destinationKey : string)
             (w w1 : World B) (r : OperationResult bool),
        checkIfObjectKeyExists
          (transformS3DirectoryKeys (Js.orEmpty (Key object)) destinationKey) w =
          (Normal r, w1) ->
        success r = false ->
        checkIfDestinationDirectoryExist (object :: rest) destinationKey w =
          checkIfDestinationDirectoryExist_loop rest destinationKey w1)
  /\ (forall (B : Type) (client : S3Client B),
        (forall (key : string) (b : B),
            exists e, fst (client_send (HeadObjectCommand key) b) = Throw e
                      /\ isNotFound e = false) ->
        forall (objects : list _Object) (destinationKey : string) (w : World B),
          fst (checkIfDestinationDirectoryExist objects destinationKey w) =
            Normal (Result.Success (Some false) None)).
Proof.
  split; [|split; [|split]].
  - intros B client BucketName sourceKey destinationKey w w1 r Hprobe Hfail command.
    rewrite checkIfObjectKeyExists_eq in Hprobe.
    injection Hprobe as Hr Hw.
    rewrite copyS3ObjectCommand_eq. cbv zeta.
    rewrite Hr, Hw. fold command.
    unfold saysExists. rewrite Hfail. simpl.
    eexists. split; [reflexivity|].
    split; [subst w1; simpl; rewrite <- app_assoc; reflexivity|].
    split.
    + intros out ->. reflexivity.
    + rewrite <- Hr in Hfail |- *.
      apply probeAnswer_success in Hfail as (e & -> & Hnf). simpl. rewrite Hnf. simpl.
      destruct (fst (client_send command (backend w1))); simpl; intros Heq; inversion Heq.
  - intros b sourceKey destinationKey v old e Hsrc Hdst Hhead Hnf Hcopy.
    rewrite copyS3ObjectCommand_eq. cbv zeta.
    assert (Hsend : client_send (HeadObjectCommand destinationKey) b = (Throw e, b)).
    { unfold client_send, MemoryBucket.client, MemoryBucket.handle.
      rewrite Hhead. reflexivity. }
    unfold afterSend. simpl. rewrite Hsend. simpl.
    unfold saysExists. rewrite Hnf. simpl.
    rewrite (memory_copy b sourceKey destinationKey v Hsrc Hcopy). simpl.
    eexists. split; [reflexivity|]. simpl. apply lookup_put.
  - intros B client object rest destinationKey w w1 r Hprobe Hfail.
    unfold checkIfDestinationDirectoryExist. simpl. unfold bind at 1.
    rewrite Hprobe, Hfail. reflexivity.
  - intros B client Hall objects destinationKey.
    assert (Hloop : forall w : World B,
               fst (checkIfDestinationDirectoryExist_loop objects destinationKey w) =
                 Normal (Result.Success (Some false) None)).
    { induction objects as [|object rest IH]; intros w; [reflexivity|].
      simpl. unfold bind at 1. rewrite checkIfObjectKeyExists_eq.
      destruct (Hall (transformS3DirectoryKeys (Js.orEmpty (Key object)) destinationKey)
                  (backend w)) as (e & -> & Hnf).
      simpl. rewrite Hnf. simpl. apply IH. }
    intros w. unfold checkIfDestinationDirectoryExist.
    destruct (List.length objects =? 0)%nat; [reflexivity|apply Hloop].
Qed.

Lemma failed_probe_does_not_stop_copy_witness :
  let b := MemoryBucket.mk "media" [("a.txt", 1%Z); ("b.txt", 2%Z)] 1000
             [(HeadObjectCommand "b.txt", Error "socket hang up")] in
  (MemoryBucket.lookup "a.txt" (MemoryBucket.objects b) = Some 1%Z
   /\ MemoryBucket.lookup "b.txt" (MemoryBucket.objects b) = Some 2%Z
   /\ exists w' : World MemoryBucket.t,
        copyS3ObjectCommand "media" "a.txt" "b.txt" (MemoryBucket.start b) =
          (Normal (Result.Success (Some true) None), w')
        /\ MemoryBucket.lookup "b.txt" (MemoryBucket.objects (backend w')) = Some 1%Z)
  /\ fst (checkIfDestinationDirectoryExist
            [ {| Key := Some "docs/a.txt"; Size := None |};
              {| Key := Some "docs/b.txt"; Size := None |} ]
            "backup/" ({| backend := tt; sent := [] |} : World unit)) =
       Normal (Result.Success (Some false) None).
Proof.
  intros b. split.
  - split; [reflexivity|]. split; [reflexivity|].
    apply (proj1 (proj2 failed_probe_does_not_stop_copy)
             b "a.txt" "b.txt" 1%Z 2%Z (Error "socket hang up"));
      reflexivity.
  - apply (proj2 (proj2 (proj2 failed_probe_does_not_stop_copy)) unit _).
    intros key u. exists Offline.networkError. split; reflexivity.
Defined.

(** *** The directory loops *)

Section Loops.

Context {B : Type} `{S3Client B}.
Variable BucketName : string.

Lemma copyS3ObjectCommand_normal (sourceKey destinationKey : string) (w : World B) :
  exists r w', copyS3ObjectCommand BucketName sourceKey destinationKey w = (Normal r, w').
Proof.
  rewrite copyS3ObjectCommand_eq. cbv zeta.
  destruct (saysExists _); eexists; eexists; reflexivity.
Qed.

(** Whatever the answers to the deletes, the loop sends one
    [DeleteObject] per listed object, in order, and ends normally. *)
Lemma deleteS3DirectoryCommand_loop_sends_all (objects : list _Object) (w : World B) :
  exists w',
    deleteS3DirectoryCommand_loop objects w = (Normal tt, w')
    /\ sent w' =
         sent w ++ map (fun o => DeleteObjectCommand (Js.orEmpty (Key o))) objects.
Proof.
  revert w. induction objects as [|object rest IH]; intros w; simpl.
  - exists w. split; [reflexivity|]. now rewrite app_nil_r.
  - unfold bind at 1. rewrite deleteS3ObjectCommand_eq. simpl.
    destruct (IH (afterSend (DeleteObjectCommand (Js.orEmpty (Key object))) w))
      as (w' & Hrun & Hsent).
    exists w'. split; [exact Hrun|].
    rewrite Hsent. simpl. now rewrite <- app_assoc.
Qed.

(** The copy loop never throws either. *)
Lemma copyS3DirectoryCommand_loop_normal (objects : list _Object)
    (destinationKey : string) (w : World B) :
  exists w', copyS3DirectoryCommand_loop BucketName objects destinationKey w = (Normal tt, w').
Proof.
  revert w. induction objects as [|object rest IH]; intros w; simpl.
  - exists w. reflexivity.
  - unfold bind at 1.
    destruct (copyS3ObjectCommand_normal (Js.orEmpty (Key object))
                (transformS3DirectoryKeys (Js.orEmpty (Key object)) destinationKey) w)
      as (r & w1 & ->).
    simpl. apply IH.
Qed.

(** Whatever the backend answers, the lister sends one command, without a
    continuation token. *)
Lemma listAllS3ObjectsInDirectory_single_request (rootKey : string) (w : World B) :
  snd (listAllS3ObjectsInDirectory rootKey w) =
    afterSend (ListObjectsV2Command (normalizePrefix rootKey) None) w.
Proof.
  unfold listAllS3ObjectsInDirectory, tryCatch, bind. rewrite send_eq.
  destruct (fst (client_send _ _)); reflexivity.
Qed.

(** Once the listing has succeeded, a directory delete answers success. *)
Lemma deleteS3DirectoryCommand_succeeds (key : string) (w : World B)
    (out : CommandOutput) :
  fst (client_send (ListObjectsV2Command (normalizePrefix key) None) (backend w)) =
    Normal out ->
  fst (deleteS3DirectoryCommand key w) = Normal (Result.Success (Some true) None).
Proof.
  intros Hlist.
  unfold deleteS3DirectoryCommand, listAllS3ObjectsInDirectory, tryCatch, bind.
  rewrite send_eq, Hlist. simpl.
  match goal with
  | |- context [deleteS3DirectoryCommand_loop ?l ?w0] =>
      destruct (deleteS3DirectoryCommand_loop_sends_all l w0) as (w' & -> & _)
  end.
  reflexivity.
Qed.

End Loops.

(** C1: Run on the in-memory bucket with [docs/a.txt] and [docs/b.txt]: the
    delete of [docs/a.txt] (resp. its copy) is made to fail. The directory
    delete still sends the delete of [docs/b.txt] and answers success, with
    [docs/a.txt] left in place; the directory copy still copies [docs/b.txt]
    and answers success, with no [backup/a.txt]. *)
Theorem directory_loops_continue_after_child_failure :
  let objects := [("docs/a.txt", 1%Z); ("docs/b.txt", 2%Z)] in
  let denied := S3ServiceException "AccessDenied" "Access Denied" in
  let b1 := MemoryBucket.mk "media" objects 1000
              [(DeleteObjectCommand "docs/a.txt", denied)] in
  let b2 := MemoryBucket.mk "media" objects 1000
              [(CopyObjectCommand "media/docs/a.txt" "backup/a.txt", denied)] in
  deleteS3ObjectCommand "docs/a.txt" (MemoryBucket.start b1) =
    (Normal (Result.Failure "Error deleting S3 object" (Some denied)),
     {| backend := b1; sent := [DeleteObjectCommand "docs/a.txt"] |})
  /\ deleteS3DirectoryCommand "docs/" (MemoryBucket.start b1) =
       (Normal (Result.Success (Some true) None),
        {| backend := MemoryBucket.mk "media" [("docs/a.txt", 1%Z)] 1000
                        (MemoryBucket.faults b1);
           sent := [ListObjectsV2Command "docs/" None;
                    DeleteObjectCommand "docs/a.txt";
                    DeleteObjectCommand "docs/b.txt"] |})
  /\ copyS3DirectoryCommand "media" "docs/" "backup/" (MemoryBucket.start b2) =
       (Normal (Result.Success (Some true) None),
        {| backend := MemoryBucket.mk "media"
                        [("backup/b.txt", 2%Z); ("docs/a.txt", 1%Z); ("docs/b.txt", 2%Z)]
                        1000 (MemoryBucket.faults b2);
           sent := [ListObjectsV2Command "docs/" None;
                    HeadObjectCommand "backup/a.txt";
                    HeadObjectCommand "backup/b.txt";
                    HeadObjectCommand "backup/a.txt";
                    CopyObjectCommand "media/docs/a.txt" "backup/a.txt";
                    HeadObjectCommand "backup/b.txt";
                    CopyObjectCommand "media/docs/b.txt" "backup/b.txt"] |}).
Proof. repeat split; vm_compute; reflexivity. Qed.

(** C2: Run on the in-memory bucket with three objects under [docs/] and
    pages of two keys: the backend announces a second page, yet
    [listAllS3ObjectsInDirectory] sends a single [ListObjectsV2Command] and
    answers the first page only, so the directory delete built on it leaves
    [docs/c.txt] behind while answering success. [listAllObjects], which
    follows the tokens, returns all three keys. *)
Theorem listAllS3ObjectsInDirectory_first_page_only :
  let b := MemoryBucket.mk "media"
             [("docs/a.txt", 1%Z); ("docs/b.txt", 2%Z); ("docs/c.txt", 3%Z)] 2 [] in
  NextContinuationToken (MemoryBucket.list_page b "docs/" None) = Some "docs/b.txt"
  /\ listAllS3ObjectsInDirectory "docs/" (MemoryBucket.start b) =
       (Normal (Result.Success
                  (Some [ {| Key := Some "docs/a.txt"; Size := Some 1%Z |};
                          {| Key := Some "docs/b.txt"; Size := Some 2%Z |} ]) None),
        {| backend := b; sent := [ListObjectsV2Command "docs/" None] |})
  /\ listAllObjects 3 "docs/" (MemoryBucket.start b) =
       (Normal (Some (Result.Success
                        (Some ["docs/a.txt"; "docs/b.txt"; "docs/c.txt"]) None)),
        {| backend := b;
           sent := [ListObjectsV2Command "docs/" None;
                    ListObjectsV2Command "docs/" (Some "docs/b.txt")] |})
  /\ deleteS3DirectoryCommand "docs/" (MemoryBucket.start b) =
       (Normal (Result.Success (Some true) None),
        {| backend := MemoryBucket.mk "media" [("docs/c.txt", 3%Z)] 2 [];
           sent := [ListObjectsV2Command "docs/" None;
                    DeleteObjectCommand "docs/a.txt";
                    DeleteObjectCommand "docs/b.txt"] |}).
Proof. repeat split; vm_compute; reflexivity. Qed.

(** ** Signed read URLs *)

Section SignedUrlFacts.

Context {S : Type} `{Presigner S}.
Variable s3SignedUrlExpires : Z.




End SignedUrlFacts.




(** ** The operation orchestrator *)

Section OrchestratorFacts.

Context {Srv : Type} `{S3Actions Srv}.

Lemma after_mutation {T} (call : ActionCall)
    (action : Srv -> OperationResult T * Srv) (c : Client Srv) :
  callAction call action c =
    (fst (action (server c)),
     mkClient (store c) (snd (action (server c))) (calls c ++ [call])).
Proof. unfold callAction. destruct (action (server c)); reflexivity. Qed.

Lemma refresh_and_reset (call : ActionCall) (srv1 : Srv) (c : Client Srv) :
  let c1 := mkClient (store c) srv1 (calls c ++ [call]) in
  refreshedAndReset c
    (updateStore resetFileOperation
       (snd (getS3Objects (getPath (store c1)) false c1))).
Proof.
  intros c1. subst c1. cbn [store].
  exists call, srv1. unfold getS3Objects, getPath. rewrite after_mutation. simpl.
  destruct (getObjectsAction (path (store c)) false srv1) as [listing srv2]. simpl.
  destruct (success listing) eqn:Hs; [destruct (data listing) as [objects|] eqn:Hd|];
    simpl; rewrite <- app_assoc; simpl;
    (repeat split; try reflexivity; intros objects' Hs' Hd'; congruence).
Qed.

Lemma dispatchS3Action_outcome (operationType0 : FileOperationType)
    (objectType : S3ObjectType) (source destination : string) (c : Client Srv) :
  let run := dispatchS3Action operationType0 objectType source destination c in
  (success (fst run) = false -> store (snd run) = store c)
  /\ (success (fst run) = true -> refreshedAndReset c (snd run)).
Proof.
  unfold dispatchS3Action.
  destruct operationType0, objectType;
    try (simpl; split; [reflexivity|discriminate]);
    rewrite after_mutation;
    match goal with
    | |- context [success (fst (?action (server c)))] =>
        destruct (success (fst (action (server c)))) eqn:Hs
    end;
    try (simpl; rewrite Hs; split; [reflexivity|discriminate]);
    match goal with
    | |- context [getS3Objects ?p ?r (mkClient (store c) ?srv1 (calls c ++ [?call]))] =>
        generalize (refresh_and_reset call srv1 c); cbv zeta;
        destruct (getS3Objects p r (mkClient (store c) srv1 (calls c ++ [call])))
          as [r2 c2];
        intros Href
    end;
    simpl; rewrite Hs; (split; [discriminate|intros _; exact Href]).
Qed.

End OrchestratorFacts.

Lemma refreshedAndReset_from {Srv : Type} `{S3Actions Srv} (c0 c c' : Client Srv) :
  path (store c0) = path (store c) ->
  calls c0 = calls c ->
  refreshedAndReset c0 c' -> refreshedAndReset c c'.
Proof.
  intros Hp Hc (mutation & srv1 & Href). exists mutation, srv1.
  rewrite <- Hp, <- Hc. exact Href.
Qed.

Lemma validateAndDispatchS3Action_outcome {Srv : Type} `{S3Actions Srv}
    (operationType0 : FileOperationType) (newName0 : option string) (c : Client Srv) :
  let run := validateAndDispatchS3Action operationType0 newName0 c in
  (success (fst run) = false -> store (snd run) = store c)
  /\ (success (fst run) = true -> refreshedAndReset c (snd run)).
Proof.
  unfold validateAndDispatchS3Action.
  destruct (sourceKey (store c)) as [source|];
    [|simpl; split; [reflexivity|discriminate]].
  destruct (String.eqb source ""); [simpl; split; [reflexivity|discriminate]|].
  destruct (bool_decide (operationType0 = DELETE));
    [apply dispatchS3Action_outcome|].
  destruct (bool_decide (operationType0 = CREATE)); apply dispatchS3Action_outcome.
Qed.

Lemma perform_outcome {Srv : Type} `{S3Actions Srv} (op : Operation) (c : Client Srv) :
  let run := perform op c in
  (success (fst run) = false ->
   sourceKey (store (snd run)) = sourceKey (store c)
   /\ operationType (store (snd run)) = operationType (store c))
  /\ (success (fst run) = true -> refreshedAndReset c (snd run)).
Proof.
  destruct op as [n| | | |n]; simpl;
    unfold createS3Directory, moveS3Object, copyS3Object, deleteS3Object, renameS3Object;
    (destruct (negb (bool_decide _));
     [simpl; split; [split; reflexivity|discriminate]|]);
    try (destruct (String.eqb n ""); [simpl; split; [split; reflexivity|discriminate]|]);
    match goal with
    | |- context [validateAndDispatchS3Action ?o ?n' ?c0] =>
        destruct (validateAndDispatchS3Action_outcome o n' c0) as [Hfail Hok]
    end;
    (split;
     [intros Hf; rewrite (Hfail Hf); split; reflexivity
     |intros Hs; eapply refreshedAndReset_from; [| |exact (Hok Hs)]; reflexivity]).
Qed.

(** *** The re-listing on the server actions *)

Section ServerFacts.

Context {B : Type} `{S3Client B}.
Variable BucketName : string.

#[local] Instance serverActions : S3Actions (ServerActions.Server B) :=
  ServerActions.actions BucketName.

(** An action that runs a command leaves the listing cache as it is. *)
Lemma answered_cache {T} (command : Async B (OperationResult T))
    (srv : ServerActions.Server B) :
  ServerActions.s3ObjectCache (snd (ServerActions.answered command srv)) =
    ServerActions.s3ObjectCache srv.
Proof.
  unfold ServerActions.answered.
  destruct (command (ServerActions.storage srv)) as [[result|e] w]; reflexivity.
Qed.

Lemma tryCatch_answers {A} (body : Async B A) (handler : JsError -> Async B A) :
  (forall e w, exists a w', handler e w = (Normal a, w')) ->
  forall w, exists a w', tryCatch body handler w = (Normal a, w').
Proof.
  intros Hhandler w. unfold tryCatch.
  destruct (body w) as [[a|e] w']; [eexists _, _; reflexivity|].
  apply Hhandler.
Qed.

(** The commands behind the actions end with a Result, whatever the
    storage does: the second case of [ServerActions.answered] never
    arises. *)
Lemma server_commands_answer (k k' : string) (w : World B) :
  (exists r w', createS3FolderCommand k w = (Normal r, w'))
  /\ (exists r w', moveS3ObjectCommand BucketName k k' w = (Normal r, w'))
  /\ (exists r w', moveS3DirectoryCommand BucketName k k' w = (Normal r, w'))
  /\ (exists r w', copyS3ObjectCommand BucketName k k' w = (Normal r, w'))
  /\ (exists r w', copyS3DirectoryCommand BucketName k k' w = (Normal r, w'))
  /\ (exists r w', renameS3ObjectCommand BucketName k k' w = (Normal r, w'))
  /\ (exists r w', renameS3DirectoryCommand BucketName k k' w = (Normal r, w'))
  /\ (exists r w', deleteS3ObjectCommand k w = (Normal r, w'))
  /\ (exists r w', deleteS3DirectoryCommand k w = (Normal r, w'))
  /\ (forall key delimiter,
        exists r w', getObjectsByKeyCommand key delimiter w = (Normal r, w')).
Proof.
  unfold createS3FolderCommand, moveS3ObjectCommand, moveS3DirectoryCommand,
    copyS3ObjectCommand, copyS3DirectoryCommand, renameS3ObjectCommand,
    renameS3DirectoryCommand, deleteS3ObjectCommand, deleteS3DirectoryCommand,
    getObjectsByKeyCommand, moveS3ObjectCommand, moveS3DirectoryCommand.
  cbv zeta.
  repeat split; intros;
    apply tryCatch_answers; intros e w0; eexists _, _; reflexivity.
Qed.

(** A key that is in the cache is answered from it, without a word to the
    storage, unless the refresh is forced. *)
Lemma getObjectsAction_cached (key delimiter : option string)
    (srv : ServerActions.Server B) (cached : OperationResult (list S3Object)) :
  ServerActions.s3ObjectCache srv !! Js.orEmpty key = Some cached ->
  ServerActions.getObjectsAction key delimiter false srv = (cached, srv).
Proof.
  intros Hcached. unfold ServerActions.getObjectsAction.
  rewrite Hcached. reflexivity.
Qed.

Lemma getS3Objects_cached (k : string) (c : Client (ServerActions.Server B))
    (cached : OperationResult (list S3Object)) :
  ServerActions.s3ObjectCache (server c) !! k = Some cached ->
  server (snd (getS3Objects k false c)) = server c
  /\ s3Objects (store (snd (getS3Objects k false c))) =
       match success cached, data cached with
       | true, Some objects => objects
       | _, _ => s3Objects (store c)
       end.
Proof.
  intros Hcached. unfold getS3Objects, callAction.
  cbn [getObjectsAction serverActions ServerActions.actions].
  rewrite (getObjectsAction_cached (Some k) None (server c) cached Hcached).
  destruct (success cached); [destruct (data cached)|]; split; reflexivity.
Qed.

(** The tail of [dispatchS3Action] after a mutation that leaves the cache
    alone. *)
Lemma relisting_after_mutation (call : ActionCall)
    (action : ServerActions.Server B ->
              OperationResult bool * ServerActions.Server B)
    (c : Client (ServerActions.Server B))
    (cached : OperationResult (list S3Object)) :
  (forall srv,
     ServerActions.s3ObjectCache (snd (action srv)) =
       ServerActions.s3ObjectCache srv) ->
  ServerActions.s3ObjectCache (server c) !! getPath (store c) = Some cached ->
  let run :=
    let (response, c1) := callAction call action c in
    if success response
    then
      let (_, c2) := getS3Objects (getPath (store c1)) false c1 in
      (response, updateStore resetFileOperation c2)
    else (response, c1) in
  success (fst run) = true ->
  s3Objects (store (snd run)) =
    match success cached, data cached with
    | true, Some objects => objects
    | _, _ => s3Objects (store c)
    end
  /\ ServerActions.s3ObjectCache (server (snd run)) =
       ServerActions.s3ObjectCache (server c).
Proof.
  intros Hkeep Hcached. rewrite after_mutation. cbv zeta.
  specialize (Hkeep (server c)).
  destruct (action (server c)) as [response srv1]. cbn [fst snd] in *.
  destruct (success response) eqn:Hs; [|cbn; rewrite Hs; discriminate].
  set (c1 := mkClient (store c) srv1 (calls c ++ [call])).
  destruct (getS3Objects_cached (getPath (store c1)) c1 cached)
    as [Hsrv Hobjects].
  { subst c1. cbn [server store]. rewrite Hkeep. exact Hcached. }
  destruct (getS3Objects (getPath (store c1)) false c1) as [r2 c2].
  cbn [fst snd] in *. intros _. split.
  - exact Hobjects.
  - cbn [updateStore server]. rewrite Hsrv. exact Hkeep.
Qed.

(** After a successful mutation the orchestrator's re-listing is answered
    from the cache: the store shows the listing cached before the
    operation, and the cache is as before. *)
Lemma dispatchS3Action_relists_from_cache (operationType0 : FileOperationType)
    (objectType : S3ObjectType) (source destination : string)
    (c : Client (ServerActions.Server B))
    (cached : OperationResult (list S3Object)) :
  ServerActions.s3ObjectCache (server c) !! getPath (store c) = Some cached ->
  let run := dispatchS3Action operationType0 objectType source destination c in
  success (fst run) = true ->
  s3Objects (store (snd run)) =
    match success cached, data cached with
    | true, Some objects => objects
    | _, _ => s3Objects (store c)
    end
  /\ ServerActions.s3ObjectCache (server (snd run)) =
       ServerActions.s3ObjectCache (server c).
Proof.
  intros Hcached. unfold dispatchS3Action.
  destruct operationType0, objectType;
    try (simpl; discriminate);
    (apply relisting_after_mutation; [|exact Hcached]);
    intros srv; apply answered_cache.
Qed.

End ServerFacts.

(** C7: The re-listing that follows a successful operation is not a refresh.
    [dispatchS3Action] calls [getS3Objects(getPath())], whose [refresh]
    defaults to [false], and [getObjectsAction] then answers from its
    [s3ObjectCache] whenever the path has been listed before. For every
    backend, operation and client whose server has the current path cached,
    a successful [dispatchS3Action] leaves in the store the listing cached
    before the operation. In the folder [docs/] of the bucket [media],
    listed once, deleting [docs/a.txt] succeeds and removes the object from
    the bucket; the listing action is called, but no command reaches the
    storage for it and the store still lists [docs/a.txt], where a forced
    listing shows [docs/b.txt] alone. The context is reset. *)
Theorem orchestrator_relists_from_cache :
  (forall (B : Type) (client : S3Client B) (BucketName : string)
          (operationType0 : FileOperationType) (objectType : S3ObjectType)
          (source destination : string)
          (c : Client (ServerActions.Server B))
          (cached : OperationResult (list S3Object)),
     ServerActions.s3ObjectCache (server c) !! getPath (store c) = Some cached ->
     let run :=
       dispatchS3Action (H := ServerActions.actions BucketName)
         operationType0 objectType source destination c in
     success (fst run) = true ->
     s3Objects (store (snd run)) =
       match success cached, data cached with
       | true, Some objects => objects
       | _, _ => s3Objects (store c)
       end)
  /\ (let run := deleteS3Object MediaApp.deleting in
      let storage' := ServerActions.storage (server (snd run)) in
      map key (s3Objects (store MediaApp.deleting)) = ["docs/a.txt"; "docs/b.txt"]
      /\ fst run = Result.Success (Some true) None
      /\ MemoryBucket.objects (backend storage') = [("docs/b.txt", 2%Z)]
      /\ calls (snd run) =
           [GetObjects "docs/" false; DeleteS3Object "docs/a.txt";
            GetObjects "docs/" false]
      /\ sent storage' =
           [ListObjectsV2CommandDelimiter "docs/" "/";
            DeleteObjectCommand "docs/a.txt"]
      /\ map key (s3Objects (store (snd run))) = ["docs/a.txt"; "docs/b.txt"]
      /\ map key (s3Objects (store (snd (getS3Objects "docs/" true (snd run))))) =
           ["docs/b.txt"]
      /\ sourceKey (store (snd run)) = None
      /\ operationType (store (snd run)) = None).
Proof.
  split.
  - intros B client BucketName operationType0 objectType source destination c
      cached Hcached run Hok.
    exact (proj1 (dispatchS3Action_relists_from_cache BucketName operationType0
                    objectType source destination c cached Hcached Hok)).
  - repeat split; vm_compute; reflexivity.
Qed.

(** ** File or directory: the two classifications *)

Lemma split_head_without_separator (sep : ascii) (s : string) :
  Js.includes s sep = false -> head (Js.split sep s) = Some s.
Proof.
  induction s as [|x rest IH]; simpl; [reflexivity|].
  intros Hno. apply orb_false_iff in Hno as [Hx Hrest].
  rewrite Hx. specialize (IH Hrest).
  destruct (Js.split sep rest) as [|hd tl]; [discriminate|].
  simpl in IH. injection IH as ->. reflexivity.
Qed.




Lemma getS3Objects_calls {Srv : Type} `{S3Actions Srv}
    (k : string) (refresh : bool) (c : Client Srv) :
  calls (snd (getS3Objects k refresh c)) = calls c ++ [GetObjects k refresh].
Proof.
  unfold getS3Objects. rewrite after_mutation.
  destruct (success _); [destruct (data _)|]; reflexivity.
Qed.




(** ** The upload hook *)

(** A transfer cancelled by the user and a transfer that failed give
    [uploadSingleFile] the same Result, whatever the file, the state and the
    upload-URL action. *)
Lemma uploadSingleFile_cancel_like_failure
    (getUrl : string -> bool -> OperationResult string)
    (f : Upload.File) (overwrite : bool) (e : JsError) (st : Upload.State) :
  fst (Upload.uploadSingleFile getUrl f overwrite Upload.UserCancels st) =
  fst (Upload.uploadSingleFile getUrl f overwrite (Upload.Fails e) st).
Proof.
  unfold Upload.uploadSingleFile, Upload.prepareUpload.
  repeat match goal with
         | |- context [if ?b then _ else _] => destruct b; cbn
         end;
    reflexivity.
Qed.

(** C6: Runs of the upload hook in the folder [docs/] with every upload
    URL granted. [handleError] does name a cancellation ("Upload cancelled"),
    but [performUpload] drops that message and answers [undefined] for a
    cancelled transfer as for a failed one, so [uploadSingleFile] answers the
    same generic failure "Upload failed" in both cases; in a batch the file
    whose transfer the user cancelled ends in the state [error] with that
    message and is counted as an error, also when the cancellation came
    through [cancelAllUploads], which had first marked it [cancelled]. *)
Theorem cancelled_upload_ends_as_error :
  let a := Upload.mkFile "a.txt" 10%Z in
  let b := Upload.mkFile "b.txt" 20%Z in
  let one := Upload.selected "docs/" [a] in
  let two := Upload.selected "docs/" [a; b] in
  let cancelFirst (all : bool) (i : nat) :=
    match i with
    | O => if all then Upload.UserCancelsAll else Upload.UserCancels
    | _ => Upload.Completes
    end in
  let statuses (run : Upload.Counts * Upload.State) :=
    map (fun s => (Upload.status s, Upload.errorMessage s))
        (Upload.fileStatuses (snd run)) in
  Upload.handleError (CanceledError "canceled") = "Upload cancelled"
  /\ fst (Upload.uploadSingleFile Upload.signsAll a false Upload.UserCancels one) =
       Result.Failure "Upload failed" None
  /\ fst (Upload.uploadSingleFile Upload.signsAll a false
            (Upload.Fails (AxiosError "Network Error")) one) =
       Result.Failure "Upload failed" None
  /\ statuses (Upload.uploadMultipleFiles Upload.signsAll false (cancelFirst false) two) =
       [(Upload.error, Some "Upload failed"); (Upload.completed, None)]
  /\ fst (Upload.uploadMultipleFiles Upload.signsAll false (cancelFirst false) two) =
       {| Upload.successCount := 1; Upload.errorCount := 1 |}
  /\ statuses (Upload.uploadMultipleFiles Upload.signsAll false (cancelFirst true) two) =
       [(Upload.error, Some "Upload failed"); (Upload.completed, None)].
Proof. repeat split; vm_compute; reflexivity. Qed.

(** * Further properties *)

(** ** Strings *)

Lemma endsWith_slash_cons (c : ascii) (s : string) :
  Js.endsWith (String c s) "/" =
    match s with
    | EmptyString => Ascii.eqb c "/"
    | String _ _ => Js.endsWith s "/"
    end.
Proof.
  unfold Js.endsWith. destruct s as [|d s']; simpl.
  - destruct (Ascii.eqb c "/"); reflexivity.
  - rewrite Nat.sub_0_r. reflexivity.
Qed.

Lemma append_cons (c : ascii) (a b : string) :
  String c a +:+ b = String c (a +:+ b).
Proof. reflexivity. Qed.

Lemma append_nil_l (b : string) : "" +:+ b = b.
Proof. reflexivity. Qed.

Lemma append_nil_r (a : string) : a +:+ "" = a.
Proof.
  induction a as [|x a IH]; [reflexivity|].
  rewrite append_cons. f_equal. exact IH.
Qed.

Lemma endsWith_append (a b : string) :
  b <> "" -> Js.endsWith (a +:+ b) "/" = Js.endsWith b "/".
Proof.
  intros Hb. induction a as [|x a IH]; [reflexivity|].
  rewrite append_cons, endsWith_slash_cons.
  destruct (a +:+ b) eqn:Hab; [|exact IH].
  destruct a; [rewrite append_nil_l in Hab; contradiction|discriminate].
Qed.

Lemma endsWith_append_slash (a : string) : Js.endsWith (a +:+ "/") "/" = true.
Proof. rewrite endsWith_append; [reflexivity|discriminate]. Qed.

Lemma endsWith_without_slash (s : string) :
  Js.includes s "/" = false -> Js.endsWith s "/" = false.
Proof.
  induction s as [|x s IH]; [reflexivity|].
  simpl. intros Hno. apply orb_false_iff in Hno as [Hx Hs].
  rewrite endsWith_slash_cons. destruct s; [exact Hx|exact (IH Hs)].
Qed.

Lemma split_without_separator (sep : ascii) (s : string) :
  Js.includes s sep = false -> Js.split sep s = [s].
Proof.
  induction s as [|x s IH]; [reflexivity|].
  simpl. intros Hno. apply orb_false_iff in Hno as [Hx Hs].
  rewrite Hx, (IH Hs). reflexivity.
Qed.

Lemma split_nonempty (sep : ascii) (s : string) : Js.split sep s <> [].
Proof.
  destruct s as [|x s]; simpl; [discriminate|].
  destruct (Ascii.eqb x sep); [discriminate|].
  destruct (Js.split sep s); discriminate.
Qed.

(** Splitting at a separator that is there: the pieces of both sides. *)
Lemma split_append_separator (sep : ascii) (a b : string) :
  Js.split sep (a +:+ String sep b) = Js.split sep a ++ Js.split sep b.
Proof.
  induction a as [|x a IH].
  - rewrite append_nil_l. simpl. rewrite Ascii.eqb_refl. reflexivity.
  - rewrite append_cons. simpl. rewrite IH.
    destruct (Ascii.eqb x sep); [reflexivity|].
    pose proof (split_nonempty sep a) as Hne.
    destruct (Js.split sep a); [contradiction|reflexivity].
Qed.

Lemma join_cons (sep p : string) (rest : list string) :
  rest <> [] -> Js.join sep (p :: rest) = p +:+ sep +:+ Js.join sep rest.
Proof. destruct rest; [contradiction|reflexivity]. Qed.

(** [s.split('/').join('/')] gives [s] back. *)
Lemma join_split (sep : ascii) (s : string) :
  Js.join (String sep "") (Js.split sep s) = s.
Proof.
  induction s as [|x s IH]; [reflexivity|].
  simpl. destruct (Ascii.eqb x sep) eqn:Hx.
  - apply Ascii.eqb_eq in Hx. subst x.
    rewrite join_cons by apply split_nonempty. rewrite IH. reflexivity.
  - pose proof (split_nonempty sep s) as Hne.
    destruct (Js.split sep s) as [|hd tl]; [contradiction|].
    destruct tl as [|t tl].
    + simpl in *. f_equal. exact IH.
    + rewrite join_cons by discriminate. rewrite join_cons in IH by discriminate.
      rewrite append_cons. f_equal. exact IH.
Qed.

Lemma join_snoc (sep : string) (parts : list string) (p : string) :
  parts <> [] -> Js.join sep (parts ++ [p]) = Js.join sep parts +:+ sep +:+ p.
Proof.
  induction parts as [|q parts IH]; [contradiction|]. intros _.
  destruct parts as [|r parts].
  - reflexivity.
  - change ((q :: r :: parts) ++ [p]) with (q :: ((r :: parts) ++ [p])).
    rewrite join_cons by (simpl; discriminate).
    rewrite IH by discriminate.
    rewrite (join_cons sep q (r :: parts)) by discriminate.
    rewrite !append_assoc. reflexivity.
Qed.

Lemma endsWith_slash_inv (p : string) :
  Js.endsWith p "/" = true -> exists q, p = q +:+ "/".
Proof.
  induction p as [|c s IH]; [discriminate|].
  rewrite endsWith_slash_cons. destruct s as [|d s'].
  - intros Hc. apply Ascii.eqb_eq in Hc. subst c. exists "". reflexivity.
  - intros Hs. destruct (IH Hs) as [q Hq]. exists (String c q).
    rewrite append_cons, <- Hq. reflexivity.
Qed.

Lemma folderPrefix_inv (p : string) :
  folderPrefix p = true -> p = "" \/ exists q, p = q +:+ "/".
Proof.
  unfold folderPrefix. intros Hp. apply orb_true_iff in Hp as [Hp|Hp].
  - left. apply String.eqb_eq. exact Hp.
  - right. apply endsWith_slash_inv. exact Hp.
Qed.

(** The segments of a key made of a folder prefix and a name. *)
Lemma split_folder_name (parent name0 : string) :
  folderPrefix parent = true ->
  Js.includes name0 "/" = false ->
  Js.split "/" (parent +:+ name0) =
    removelast (Js.split "/" parent) ++ [name0].
Proof.
  intros Hp Hn. destruct (folderPrefix_inv parent Hp) as [->|[q ->]].
  - rewrite append_nil_l. simpl. apply split_without_separator. exact Hn.
  - rewrite append_assoc. change ("/" +:+ name0) with (String "/" name0).
    change (q +:+ "/") with (q +:+ String "/" "").
    rewrite !split_append_separator.
    rewrite (split_without_separator "/" name0 Hn).
    change (Js.split "/" "") with [""].
    rewrite removelast_last. reflexivity.
Qed.

Lemma fromEnd_last (parts : list string) (x : string) :
  Js.fromEnd (parts ++ [x]) 1 = Some x.
Proof.
  unfold Js.fromEnd. rewrite length_app.
  change (List.length [x]) with 1%nat.
  destruct (Nat.leb_spec 1 (List.length parts + 1)) as [_|Hlt]; [|lia].
  replace (List.length parts + 1 - 1)%nat with (List.length parts) by lia.
  rewrite nth_error_app2 by lia. rewrite Nat.sub_diag. reflexivity.
Qed.

Lemma fromEnd_second_last (parts : list string) (x y : string) :
  Js.fromEnd (parts ++ [x; y]) 2 = Some x.
Proof.
  unfold Js.fromEnd. rewrite length_app.
  change (List.length [x; y]) with 2%nat.
  destruct (Nat.leb_spec 2 (List.length parts + 2)) as [_|Hlt]; [|lia].
  replace (List.length parts + 2 - 2)%nat with (List.length parts) by lia.
  rewrite nth_error_app2 by lia. rewrite Nat.sub_diag. reflexivity.
Qed.

Lemma name_not_folder (parent name0 : string) :
  name0 <> "" ->
  Js.includes name0 "/" = false ->
  Js.endsWith (parent +:+ name0) "/" = false.
Proof.
  intros Hne Hn. rewrite endsWith_append by exact Hne.
  apply endsWith_without_slash. exact Hn.
Qed.

(** ** Key transforms ([lib/s3/s3-helpers.ts]) *)

(** X1: [convertSourceKeyToDestinationKey] into a folder (a destination
    ending with ['/']) appends the source's last segment: the name of a file
    key, the name and its slash of a directory key. A destination that does
    not end with ['/'] is returned as it is, whatever the source. *)
Theorem convertSourceKeyToDestinationKey_into_folder
    (parent name0 destination : string) :
  folderPrefix parent = true ->
  Js.includes name0 "/" = false ->
  Js.endsWith destination "/" = true ->
  convertSourceKeyToDestinationKey (parent +:+ name0 +:+ "/") destination =
    destination +:+ name0 +:+ "/"
  /\ (name0 <> "" ->
      convertSourceKeyToDestinationKey (parent +:+ name0) destination =
        destination +:+ name0)
  /\ (forall source other : string,
        Js.endsWith other "/" = false ->
        convertSourceKeyToDestinationKey source other = other).
Proof.
  intros Hp Hn Hd. split; [|split].
  - unfold convertSourceKeyToDestinationKey. rewrite Hd.
    rewrite <- append_assoc, endsWith_append_slash.
    change ((parent +:+ name0) +:+ "/") with ((parent +:+ name0) +:+ String "/" "").
    rewrite split_append_separator, (split_folder_name parent name0 Hp Hn).
    change (Js.split "/" "") with [""].
    rewrite <- app_assoc. simpl app.
    rewrite fromEnd_second_last. reflexivity.
  - intros Hne. unfold convertSourceKeyToDestinationKey. rewrite Hd.
    rewrite (name_not_folder parent name0 Hne Hn).
    rewrite (split_folder_name parent name0 Hp Hn), fromEnd_last. reflexivity.
  - intros source other Ho. unfold convertSourceKeyToDestinationKey.
    rewrite Ho. reflexivity.
Qed.

Lemma convertSourceKeyToDestinationKey_into_folder_witness :
  folderPrefix "a/b/" = true
  /\ Js.includes "c.txt" "/" = false
  /\ Js.endsWith "x/y/" "/" = true
  /\ convertSourceKeyToDestinationKey ("a/b/" +:+ "c.txt" +:+ "/") "x/y/" =
       "x/y/" +:+ "c.txt" +:+ "/".
Proof.
  split; [reflexivity|]. split; [reflexivity|]. split; [reflexivity|].
  apply (convertSourceKeyToDestinationKey_into_folder "a/b/" "c.txt" "x/y/");
    reflexivity.
Defined.

Lemma setLast_snoc (parts : list string) (x y : string) :
  setLast (parts ++ [x]) y = parts ++ [y].
Proof.
  unfold setLast. destruct (parts ++ [x]) eqn:Hl.
  - destruct parts; discriminate.
  - rewrite <- Hl, removelast_last. reflexivity.
Qed.

Lemma join_folder_name (parent name0 : string) :
  folderPrefix parent = true ->
  Js.join "/" (removelast (Js.split "/" parent) ++ [name0]) = parent +:+ name0.
Proof.
  intros Hp. destruct (folderPrefix_inv parent Hp) as [->|[q ->]].
  - reflexivity.
  - change (q +:+ "/") with (q +:+ String "/" "").
    rewrite split_append_separator. change (Js.split "/" "") with [""].
    rewrite removelast_last.
    rewrite join_snoc by apply split_nonempty.
    rewrite (join_split "/" q). rewrite append_assoc. reflexivity.
Qed.

Lemma renameDestinationKey_file (parent name0 newName0 : string) :
  folderPrefix parent = true ->
  name0 <> "" ->
  Js.includes name0 "/" = false ->
  renameDestinationKey (parent +:+ name0) newName0 = parent +:+ newName0.
Proof.
  intros Hp Hne Hn. unfold renameDestinationKey.
  rewrite (name_not_folder parent name0 Hne Hn).
  rewrite (split_folder_name parent name0 Hp Hn), setLast_snoc.
  apply join_folder_name. exact Hp.
Qed.

(** X2: [renameDestinationKey] on a file key (a folder prefix followed by a
    non-empty name without ['/']) replaces the name and keeps the folder
    prefix, whatever the new name. *)
Theorem renameDestinationKey_file_keeps_folder
    (parent name0 newName0 : string) :
  folderPrefix parent = true ->
  name0 <> "" ->
  Js.includes name0 "/" = false ->
  renameDestinationKey (parent +:+ name0) newName0 = parent +:+ newName0.
Proof.
  intros Hp Hne Hn. unfold renameDestinationKey.
  rewrite (name_not_folder parent name0 Hne Hn).
  rewrite (split_folder_name parent name0 Hp Hn), setLast_snoc.
  apply join_folder_name. exact Hp.
Qed.

Lemma renameDestinationKey_file_keeps_folder_witness :
  folderPrefix "a/b/" = true
  /\ "c.txt" <> ""
  /\ Js.includes "c.txt" "/" = false
  /\ renameDestinationKey ("a/b/" +:+ "c.txt") "new.txt" = "a/b/" +:+ "new.txt".
Proof.
  split; [reflexivity|]. split; [discriminate|]. split; [reflexivity|].
  apply (renameDestinationKey_file_keeps_folder "a/b/" "c.txt" "new.txt");
    [reflexivity|discriminate|reflexivity].
Defined.

(** X3: Renaming a file key and then renaming the result back to the old
    name restores the key, when the intermediate name is a proper file name
    too (not empty, no ['/']). *)
Theorem renameDestinationKey_file_round_trip
    (parent name0 newName0 : string) :
  folderPrefix parent = true ->
  name0 <> "" -> Js.includes name0 "/" = false ->
  newName0 <> "" -> Js.includes newName0 "/" = false ->
  renameDestinationKey (renameDestinationKey (parent +:+ name0) newName0) name0 =
    parent +:+ name0.
Proof.
  intros Hp Hne Hn Hne' Hn'.
  rewrite (renameDestinationKey_file parent name0 newName0 Hp Hne Hn).
  apply renameDestinationKey_file; assumption.
Qed.

Lemma renameDestinationKey_file_round_trip_witness :
  renameDestinationKey (renameDestinationKey ("a/b/" +:+ "c.txt") "new.txt") "c.txt" =
    "a/b/" +:+ "c.txt".
Proof.
  apply (renameDestinationKey_file_round_trip "a/b/" "c.txt" "new.txt");
    first [reflexivity|discriminate].
Defined.

(** X4: On a directory key (one ending with ['/']) [renameDestinationKey]
    always answers a key that starts with ['/'] and ends with ['/'], so a
    directory key without a leading slash is never given back, not even when
    it is renamed to its own name. *)
Theorem renameDestinationKey_directory_shape (destination newName0 : string) :
  Js.endsWith destination "/" = true ->
  Js.startsWith (renameDestinationKey destination newName0) "/" = true
  /\ Js.endsWith (renameDestinationKey destination newName0) "/" = true
  /\ (Js.startsWith destination "/" = false ->
      renameDestinationKey destination newName0 <> destination).
Proof.
  intros Hd.
  assert (Hstart : Js.startsWith (renameDestinationKey destination newName0) "/" = true).
  { unfold renameDestinationKey. rewrite Hd.
    unfold Js.startsWith.
    match goal with
    | |- context [if ?b then _ else _] => destruct b
    end; [|rewrite append_assoc]; apply (prefix_append "/"). }
  split; [exact Hstart|]. split.
  - unfold renameDestinationKey. rewrite Hd.
    match goal with
    | |- context [if ?b then _ else _] => destruct b eqn:He
    end; [exact He|apply endsWith_append_slash].
  - intros Hno Heq. rewrite Heq in Hstart. congruence.
Qed.

Lemma renameDestinationKey_directory_shape_witness :
  Js.endsWith "a/b/" "/" = true
  /\ renameDestinationKey "a/b/" "b" = "/a/b/"
  /\ renameDestinationKey "a/b/" "b" <> "a/b/".
Proof.
  split; [reflexivity|]. split; [reflexivity|].
  apply (renameDestinationKey_directory_shape "a/b/" "b"); reflexivity.
Defined.

(** X5: [handlePrefixNameSplit] on a common prefix (a folder prefix, a name
    without ['/'], a closing ['/']) answers the name; on a prefix without any
    ['/'] it answers the prefix itself. *)
Theorem handlePrefixNameSplit_folder_name (parent name0 : string) :
  folderPrefix parent = true ->
  Js.includes name0 "/" = false ->
  handlePrefixNameSplit (parent +:+ name0 +:+ "/") = name0
  /\ handlePrefixNameSplit name0 = name0.
Proof.
  intros Hp Hn. split.
  - unfold handlePrefixNameSplit.
    rewrite <- append_assoc.
    change ((parent +:+ name0) +:+ "/") with ((parent +:+ name0) +:+ String "/" "").
    rewrite split_append_separator, (split_folder_name parent name0 Hp Hn).
    change (Js.split "/" "") with [""].
    rewrite <- app_assoc. simpl app.
    rewrite fromEnd_second_last, length_app.
    change (List.length [name0; ""]) with 2%nat.
    destruct (Nat.leb_spec 2 (List.length (removelast (Js.split "/" parent)) + 2))
      as [_|Hlt]; [reflexivity|lia].
  - unfold handlePrefixNameSplit.
    rewrite (split_without_separator "/" name0 Hn). reflexivity.
Qed.

Lemma handlePrefixNameSplit_folder_name_witness :
  folderPrefix "docs/" = true
  /\ Js.includes "img" "/" = false
  /\ handlePrefixNameSplit ("docs/" +:+ "img" +:+ "/") = "img".
Proof.
  split; [reflexivity|]. split; [reflexivity|].
  apply (handlePrefixNameSplit_folder_name "docs/" "img"); reflexivity.
Defined.

(** ** Keys of a directory operation ([lib/s3/s3-commands.ts]) *)

Lemma includes_append (a b : string) (c : ascii) :
  Js.includes (a +:+ b) c = Js.includes a c || Js.includes b c.
Proof.
  induction a as [|x a IH]; [reflexivity|].
  rewrite append_cons. simpl. rewrite IH. apply orb_assoc.
Qed.

Lemma getSubstitution_plain (matched before after repl : string) :
  Js.includes repl "$" = false ->
  Js.getSubstitution matched before after repl = repl.
Proof.
  induction repl as [|c r IH]; [reflexivity|].
  simpl. intros Hno. apply orb_false_iff in Hno as [Hc Hr].
  rewrite Hc, (IH Hr). reflexivity.
Qed.

Lemma index_of_prefix (p s : string) :
  String.prefix p s = true -> index 0 p s = Some 0%nat.
Proof.
  destruct s as [|x s].
  - destruct p; [reflexivity|discriminate].
  - intros Hp. cbn [index]. rewrite Hp. reflexivity.
Qed.

Lemma substring_length_le (n m : nat) (s : string) :
  (String.length (substring n m s) <= String.length s)%nat.
Proof.
  revert n m. induction s as [|x s IH]; intros n m.
  - destruct n, m; simpl; lia.
  - destruct n as [|n]; [destruct m as [|m]|]; simpl.
    + lia.
    + specialize (IH 0%nat m). lia.
    + specialize (IH n m). lia.
Qed.

Lemma index_of_longer (p s : string) :
  (String.length s < String.length p)%nat -> index 0 p s = None.
Proof.
  intros Hlen. destruct (index 0 p s) as [i|] eqn:Hi; [|reflexivity].
  apply index_correct1 in Hi.
  pose proof (substring_length_le i (String.length p) s) as Hle.
  rewrite Hi in Hle. lia.
Qed.

Lemma length_append (a b : string) :
  String.length (a +:+ b) = (String.length a + String.length b)%nat.
Proof.
  induction a as [|x a IH]; [reflexivity|].
  rewrite append_cons. simpl. rewrite IH. reflexivity.
Qed.

Lemma substring_none (s : string) : substring 0 0 s = "".
Proof. destruct s; reflexivity. Qed.

(** X6: [transformS3DirectoryKeys] replaces the first segment of the object
    key, up to its first ['/'], by the destination closed with a ['/']; what
    follows the first ['/'] is kept as it is, deeper folders included. A key
    without any ['/'] is returned unchanged. (The destination is taken without
    ['$'], which [replace] would expand.) *)
Theorem transformS3DirectoryKeys_first_segment
    (first rest destination : string) :
  Js.includes first "/" = false ->
  Js.includes destination "$" = false ->
  transformS3DirectoryKeys (first +:+ "/" +:+ rest) destination =
    (if Js.endsWith destination "/" then destination else destination +:+ "/")
      +:+ rest
  /\ transformS3DirectoryKeys first destination = first.
Proof.
  intros Hfirst Hdollar. split.
  - unfold transformS3DirectoryKeys.
    set (normalizedDestKey :=
           if Js.endsWith destination "/" then destination else destination +:+ "/").
    assert (Hplain : Js.includes normalizedDestKey "$" = false).
    { subst normalizedDestKey. destruct (Js.endsWith destination "/");
        [exact Hdollar|]. rewrite includes_append, Hdollar. reflexivity. }
    change ("/" +:+ rest) with (String "/" rest).
    rewrite split_append_separator, (split_without_separator "/" first Hfirst).
    simpl head. simpl Js.orEmpty.
    change (first +:+ String "/" rest) with (first +:+ ("/" +:+ rest)).
    rewrite <- append_assoc.
    unfold Js.replace.
    rewrite (index_of_prefix _ _ (prefix_append (first +:+ "/") rest)).
    rewrite substring_none. simpl Nat.add.
    rewrite substring_append, (getSubstitution_plain _ _ _ _ Hplain).
    reflexivity.
  - unfold transformS3DirectoryKeys.
    rewrite (split_without_separator "/" first Hfirst).
    simpl head. simpl Js.orEmpty. unfold Js.replace.
    rewrite index_of_longer; [reflexivity|].
    rewrite length_append. simpl. lia.
Qed.

Lemma transformS3DirectoryKeys_first_segment_witness :
  Js.includes "docs" "/" = false
  /\ Js.includes "backup/2024" "$" = false
  /\ transformS3DirectoryKeys ("docs" +:+ "/" +:+ "img/a.png") "backup/2024" =
       "backup/2024/" +:+ "img/a.png".
Proof.
  split; [reflexivity|]. split; [reflexivity|].
  apply (transformS3DirectoryKeys_first_segment "docs" "img/a.png" "backup/2024");
    reflexivity.
Defined.

Lemma normalizePrefix_folder (rootKey : string) :
  folderPrefix (normalizePrefix rootKey) = true.
Proof.
  unfold normalizePrefix.
  set (prefix := if String.eqb rootKey "/" then ""
                 else if Js.startsWith rootKey "/"
                      then substring 1 (String.length rootKey - 1) rootKey
                      else rootKey).
  unfold folderPrefix.
  destruct (String.eqb prefix "") eqn:He; [simpl; rewrite He; reflexivity|].
  destruct (Js.endsWith prefix "/") eqn:Hs; simpl.
  - rewrite He, Hs. reflexivity.
  - rewrite endsWith_append_slash. apply orb_true_r.
Qed.

(** X7: Whatever the root key and the backend, [listAllS3ObjectsInDirectory]
    sends one [ListObjectsV2Command] whose prefix is empty or ends with
    ['/'], so that listing [docs] never reaches the keys of [docs2/]. The
    root key ['/'] is listed with the empty prefix; a key that has neither a
    leading nor a trailing slash is listed with the key followed by ['/'];
    a key without leading slash that ends with ['/'] is listed as it is; and
    one leading slash is dropped, so that ['/' + k] is listed like [k] when
    [k] is not empty and has no leading slash itself. *)
Theorem listAllS3ObjectsInDirectory_folder_prefix
    (B : Type) (client : S3Client B) (rootKey : string) (w : World B) :
  (exists prefix : string,
     folderPrefix prefix = true
     /\ sent (snd (listAllS3ObjectsInDirectory rootKey w)) =
          sent w ++ [ListObjectsV2Command prefix None])
  /\ sent (snd (listAllS3ObjectsInDirectory "/" w)) =
       sent w ++ [ListObjectsV2Command "" None]
  /\ (rootKey <> "" ->
      Js.startsWith rootKey "/" = false ->
      Js.endsWith rootKey "/" = false ->
      sent (snd (listAllS3ObjectsInDirectory rootKey w)) =
        sent w ++ [ListObjectsV2Command (rootKey +:+ "/") None])
  /\ (Js.startsWith rootKey "/" = false ->
      Js.endsWith rootKey "/" = true ->
      sent (snd (listAllS3ObjectsInDirectory rootKey w)) =
        sent w ++ [ListObjectsV2Command rootKey None])
  /\ (rootKey <> "" ->
      Js.startsWith rootKey "/" = false ->
      listAllS3ObjectsInDirectory ("/" +:+ rootKey) w =
        listAllS3ObjectsInDirectory rootKey w).
Proof.
  assert (Hplain : rootKey <> "" ->
                   Js.startsWith rootKey "/" = false ->
                   Js.endsWith rootKey "/" = false ->
                   normalizePrefix rootKey = rootKey +:+ "/").
  { intros Hne Hstart Hend. unfold normalizePrefix.
    destruct (String.eqb rootKey "/") eqn:Hroot.
    { apply String.eqb_eq in Hroot. subst rootKey. discriminate. }
    rewrite Hstart, Hend.
    apply String.eqb_neq in Hne. rewrite Hne. reflexivity. }
  assert (Hfolder : Js.startsWith rootKey "/" = false ->
                    Js.endsWith rootKey "/" = true ->
                    normalizePrefix rootKey = rootKey).
  { intros Hstart Hend. unfold normalizePrefix.
    destruct (String.eqb rootKey "/") eqn:Hroot.
    { apply String.eqb_eq in Hroot. subst rootKey. discriminate. }
    rewrite Hstart, Hend. rewrite andb_false_r. reflexivity. }
  assert (Hslash : rootKey <> "" ->
                   Js.startsWith rootKey "/" = false ->
                   normalizePrefix ("/" +:+ rootKey) = normalizePrefix rootKey).
  { intros Hne Hstart. unfold normalizePrefix.
    destruct rootKey as [|x rest]; [congruence|].
    change ("/" +:+ String x rest) with (String "/" (String x rest)).
    assert (Hx : Ascii.eqb x "/" = false).
    { destruct (Ascii.eqb_spec x "/") as [->|Hx]; [|reflexivity].
      pose proof (prefix_append "/" rest) as Htrue.
      unfold Js.startsWith in Hstart.
      change ("/" +:+ rest) with (String "/" rest) in Htrue. congruence. }
    replace (String.eqb (String "/" (String x rest)) "/") with false
      by (cbn; reflexivity).
    replace (Js.startsWith (String "/" (String x rest)) "/") with true
      by (symmetry; apply (prefix_append "/" (String x rest))).
    replace (String.eqb (String x rest) "/") with false.
    2:{ symmetry. apply String.eqb_neq. intros Heq. injection Heq as -> _.
        discriminate. }
    rewrite Hstart.
    replace (substring 1 (String.length (String "/" (String x rest)) - 1)
               (String "/" (String x rest))) with (String x rest).
    2:{ symmetry. cbn [String.length]. rewrite Nat.sub_1_r. cbn [Nat.pred].
        cbn [substring]. rewrite substring_all. reflexivity. }
    reflexivity. }
  split; [|split; [|split; [|split]]].
  - exists (normalizePrefix rootKey). split; [apply normalizePrefix_folder|].
    rewrite listAllS3ObjectsInDirectory_single_request. reflexivity.
  - rewrite listAllS3ObjectsInDirectory_single_request. reflexivity.
  - intros Hne Hstart Hend.
    rewrite listAllS3ObjectsInDirectory_single_request.
    rewrite (Hplain Hne Hstart Hend). reflexivity.
  - intros Hstart Hend.
    rewrite listAllS3ObjectsInDirectory_single_request.
    rewrite (Hfolder Hstart Hend). reflexivity.
  - intros Hne Hstart. unfold listAllS3ObjectsInDirectory.
    rewrite (Hslash Hne Hstart). reflexivity.
Qed.

Lemma listAllS3ObjectsInDirectory_folder_prefix_witness :
  "docs" <> ""
  /\ Js.startsWith "docs" "/" = false
  /\ Js.endsWith "docs" "/" = false
  /\ sent (snd (listAllS3ObjectsInDirectory "docs" (MemoryBucket.start MediaApp.bucket))) =
       [ListObjectsV2Command "docs/" None].
Proof.
  split; [discriminate|]. split; [reflexivity|]. split; [reflexivity|].
  apply (proj1 (proj2 (proj2 (listAllS3ObjectsInDirectory_folder_prefix
                         MemoryBucket.t _ "docs"
                         (MemoryBucket.start MediaApp.bucket)))));
    [discriminate|reflexivity|reflexivity].
Defined.

(** ** Storage commands ([lib/s3/s3-commands.ts]) *)

(** X8: [createS3FolderCommand] sends a single [PutObjectCommand] of length
    zero whose key ends with ['/']: the given key when it already does, the
    key followed by ['/'] otherwise. It never throws, and answers success
    exactly when the backend accepted the command. *)
Theorem createS3FolderCommand_marker
    (B : Type) (client : S3Client B) (k : string) (w : World B) :
  let marker := if Js.endsWith k "/" then k else k +:+ "/" in
  Js.endsWith marker "/" = true
  /\ exists r : OperationResult bool,
       createS3FolderCommand k w =
         (Normal r, afterSend (PutObjectCommand marker (Some 0%Z)) w)
       /\ (success r = true <->
           exists out,
             fst (client_send (PutObjectCommand marker (Some 0%Z)) (backend w)) =
               Normal out).
Proof.
  intros marker. split.
  - subst marker. destruct (Js.endsWith k "/") eqn:He;
      [exact He|apply endsWith_append_slash].
  - unfold createS3FolderCommand, tryCatch, bind.
    replace (if negb (Js.endsWith k "/") then k +:+ "/" else k) with marker
      by (subst marker; destruct (Js.endsWith k "/"); reflexivity).
    rewrite send_eq.
    destruct (fst (client_send (PutObjectCommand marker (Some 0%Z)) (backend w)))
      as [out|e]; eexists; (split; [reflexivity|]); simpl.
    + split; [intros _; exists out; reflexivity|reflexivity].
    + split; [discriminate|intros [out Hout]; discriminate].
Qed.

Lemma moveS3ObjectCommand_after_copy
    (B : Type) (client : S3Client B)
    (BucketName sourceKey0 destinationKey0 : string)
    (w wc : World B) (rc : OperationResult bool) :
  copyS3ObjectCommand BucketName sourceKey0 destinationKey0 w = (Normal rc, wc) ->
  moveS3ObjectCommand BucketName sourceKey0 destinationKey0 w =
    if success rc
    then deleteS3ObjectCommand sourceKey0 wc
    else (Normal rc, wc).
Proof.
  intros Hcopy. unfold moveS3ObjectCommand, tryCatch, bind. rewrite Hcopy.
  destruct (success rc); simpl; [|reflexivity].
  rewrite !deleteS3ObjectCommand_eq.
  destruct (fst (client_send (DeleteObjectCommand sourceKey0) (backend wc)));
    reflexivity.
Qed.

(** X9: [moveS3ObjectCommand] is the copy followed by the delete of the
    source, and the delete is sent only after a successful copy: a failed
    copy (the [DestinationKeyExist] sentinel included) is returned as it is
    with nothing more sent; after a successful copy one [DeleteObjectCommand]
    for the source is sent, and the move answers success if it is accepted and
    the delete's failure otherwise. *)
Theorem moveS3ObjectCommand_copy_then_delete
    (B : Type) (client : S3Client B)
    (BucketName sourceKey0 destinationKey0 : string)
    (w wc : World B) (rc : OperationResult bool) :
  copyS3ObjectCommand BucketName sourceKey0 destinationKey0 w = (Normal rc, wc) ->
  (success rc = false ->
   moveS3ObjectCommand BucketName sourceKey0 destinationKey0 w = (Normal rc, wc))
  /\ (success rc = true ->
      moveS3ObjectCommand BucketName sourceKey0 destinationKey0 w =
        (Normal
           (match fst (client_send (DeleteObjectCommand sourceKey0) (backend wc)) with
            | Normal _ => Result.Success (Some true) None
            | Throw e => Result.Failure "Error deleting S3 object" (Some e)
            end),
         afterSend (DeleteObjectCommand sourceKey0) wc)).
Proof.
  intros Hcopy.
  rewrite (moveS3ObjectCommand_after_copy B client _ _ _ _ _ _ Hcopy).
  split; intros Hs; rewrite Hs; [reflexivity|].
  apply deleteS3ObjectCommand_eq.
Qed.

Lemma moveS3ObjectCommand_copy_then_delete_witness :
  let b := MemoryBucket.mk "media" [("a.txt", 1%Z); ("b.txt", 2%Z)] 1000 [] in
  let wc := {| backend := b; sent := [HeadObjectCommand "b.txt"] |} in
  copyS3ObjectCommand "media" "a.txt" "b.txt" (MemoryBucket.start b) =
    (Normal S3Responses.DestinationKeyExist, wc)
  /\ moveS3ObjectCommand "media" "a.txt" "b.txt" (MemoryBucket.start b) =
       (Normal S3Responses.DestinationKeyExist, wc).
Proof.
  intros b wc. split; [reflexivity|].
  refine (proj1 (moveS3ObjectCommand_copy_then_delete MemoryBucket.t _
                   "media" "a.txt" "b.txt" (MemoryBucket.start b) wc
                   S3Responses.DestinationKeyExist _) _);
    reflexivity.
Defined.

(** *** Lookups in the in-memory bucket *)

Lemma lookup_put_other (k k' : string) (v : Z) (l : list (string * Z)) :
  k <> k' ->
  MemoryBucket.lookup k (MemoryBucket.put k' v l) = MemoryBucket.lookup k l.
Proof.
  intros Hne. unfold MemoryBucket.lookup.
  assert (Hk : String.eqb k' k = false) by (apply String.eqb_neq; congruence).
  induction l as [|[k0 v0] l IH]; simpl.
  - rewrite Hk. reflexivity.
  - destruct (String.compare k' k0) eqn:Hc; simpl.
    + apply String.compare_eq_iff in Hc. subst k0. rewrite Hk. reflexivity.
    + rewrite Hk. reflexivity.
    + destruct (String.eqb k0 k); [reflexivity|exact IH].
Qed.

Lemma lookup_remove (k : string) (l : list (string * Z)) :
  MemoryBucket.lookup k (MemoryBucket.remove k l) = None.
Proof.
  unfold MemoryBucket.lookup, MemoryBucket.remove.
  induction l as [|[k0 v0] l IH]; [reflexivity|].
  cbn [filter list_filter]. unfold filter in *. simpl.
  destruct (String.eqb k0 k) eqn:He; simpl.
  - exact IH.
  - rewrite He. exact IH.
Qed.

Lemma lookup_remove_other (k k' : string) (l : list (string * Z)) :
  k <> k' ->
  MemoryBucket.lookup k (MemoryBucket.remove k' l) = MemoryBucket.lookup k l.
Proof.
  intros Hne. unfold MemoryBucket.lookup, MemoryBucket.remove.
  induction l as [|[k0 v0] l IH]; [reflexivity|].
  unfold filter in *. simpl.
  destruct (String.eqb k0 k') eqn:He; simpl.
  - apply String.eqb_eq in He. subst k0.
    assert (Hk : String.eqb k' k = false) by (apply String.eqb_neq; congruence).
    rewrite Hk. exact IH.
  - destruct (String.eqb k0 k); [reflexivity|exact IH].
Qed.

Lemma memory_copy_run (b : MemoryBucket.t) (src dst : string) (v : Z) :
  MemoryBucket.lookup src (MemoryBucket.objects b) = Some v ->
  MemoryBucket.lookup dst (MemoryBucket.objects b) = None ->
  MemoryBucket.fault (HeadObjectCommand dst) (MemoryBucket.faults b) = None ->
  MemoryBucket.fault (CopyObjectCommand (MemoryBucket.name b +:+ "/" +:+ src) dst)
    (MemoryBucket.faults b) = None ->
  copyS3ObjectCommand (MemoryBucket.name b) src dst (MemoryBucket.start b) =
    (Normal (Result.Success (Some true) None),
     {| backend :=
          MemoryBucket.mk (MemoryBucket.name b)
            (MemoryBucket.put dst v (MemoryBucket.objects b))
            (MemoryBucket.maxKeys b) (MemoryBucket.faults b);
        sent := [HeadObjectCommand dst;
                 CopyObjectCommand (MemoryBucket.name b +:+ "/" +:+ src) dst] |}).
Proof.
  intros Hsrc Hdst Hhead Hcopy.
  rewrite copyS3ObjectCommand_eq. cbv zeta.
  unfold afterSend, MemoryBucket.start. simpl backend. simpl sent.
  rewrite (memory_head b dst Hhead), Hdst. simpl.
  rewrite (memory_copy b src dst v Hsrc Hcopy). reflexivity.
Qed.

(** X10: On the in-memory bucket, moving an object to a free key relocates
    it: with the three commands answered, the move succeeds, the destination
    holds the source's content, the source key is gone and every other key is
    as before. If the delete is refused after the copy went through, the move
    answers the delete's failure and the object is at both keys. *)
Theorem moveS3ObjectCommand_relocates
    (b : MemoryBucket.t) (src dst : string) (v : Z) :
  src <> dst ->
  MemoryBucket.lookup src (MemoryBucket.objects b) = Some v ->
  MemoryBucket.lookup dst (MemoryBucket.objects b) = None ->
  MemoryBucket.fault (HeadObjectCommand dst) (MemoryBucket.faults b) = None ->
  MemoryBucket.fault (CopyObjectCommand (MemoryBucket.name b +:+ "/" +:+ src) dst)
    (MemoryBucket.faults b) = None ->
  (MemoryBucket.fault (DeleteObjectCommand src) (MemoryBucket.faults b) = None ->
   exists w',
     moveS3ObjectCommand (MemoryBucket.name b) src dst (MemoryBucket.start b) =
       (Normal (Result.Success (Some true) None), w')
     /\ MemoryBucket.lookup dst (MemoryBucket.objects (backend w')) = Some v
     /\ MemoryBucket.lookup src (MemoryBucket.objects (backend w')) = None
     /\ forall k, k <> src -> k <> dst ->
          MemoryBucket.lookup k (MemoryBucket.objects (backend w')) =
            MemoryBucket.lookup k (MemoryBucket.objects b))
  /\ (forall e,
        MemoryBucket.fault (DeleteObjectCommand src) (MemoryBucket.faults b) = Some e ->
        exists w',
          moveS3ObjectCommand (MemoryBucket.name b) src dst (MemoryBucket.start b) =
            (Normal (Result.Failure "Error deleting S3 object" (Some e)), w')
          /\ MemoryBucket.lookup dst (MemoryBucket.objects (backend w')) = Some v
          /\ MemoryBucket.lookup src (MemoryBucket.objects (backend w')) = Some v).
Proof.
  intros Hne Hsrc Hdst Hhead Hcopy.
  pose proof (memory_copy_run b src dst v Hsrc Hdst Hhead Hcopy) as Hrun.
  rewrite (moveS3ObjectCommand_after_copy MemoryBucket.t _
             (MemoryBucket.name b) src dst _ _ _ Hrun).
  cbn [success Result.Success]. rewrite deleteS3ObjectCommand_eq. clear Hrun.
  unfold afterSend. simpl backend.
  unfold client_send, MemoryBucket.client, MemoryBucket.handle.
  simpl MemoryBucket.faults. simpl MemoryBucket.objects.
  split.
  - intros Hdel. rewrite Hdel. simpl. eexists. split; [reflexivity|]. simpl.
    split; [|split].
    + rewrite lookup_remove_other by congruence. apply lookup_put.
    + apply lookup_remove.
    + intros k Hks Hkd.
      rewrite lookup_remove_other by exact Hks.
      apply lookup_put_other. exact Hkd.
  - intros e Hdel. rewrite Hdel. simpl. eexists. split; [reflexivity|]. simpl.
    split; [apply lookup_put|].
    rewrite lookup_put_other by exact Hne. exact Hsrc.
Qed.

Lemma moveS3ObjectCommand_relocates_witness :
  let b := MemoryBucket.mk "media" [("a.txt", 1%Z); ("b.txt", 2%Z)] 1000 [] in
  exists w',
    moveS3ObjectCommand "media" "a.txt" "c.txt" (MemoryBucket.start b) =
      (Normal (Result.Success (Some true) None), w')
    /\ MemoryBucket.lookup "c.txt" (MemoryBucket.objects (backend w')) = Some 1%Z
    /\ MemoryBucket.lookup "a.txt" (MemoryBucket.objects (backend w')) = None.
Proof.
  intros b.
  destruct (proj1 (moveS3ObjectCommand_relocates b "a.txt" "c.txt" 1%Z
                     ltac:(discriminate) eq_refl eq_refl eq_refl eq_refl) eq_refl)
    as (w' & Hrun & Hdst & Hsrc & _).
  exists w'. split; [exact Hrun|]. split; assumption.
Defined.

(** *** Directory commands *)

Section DirectoryFacts.

Context {B : Type} `{S3Client B}.
Variable BucketName : string.

(** The pre-check only probes, and always answers a success Result. *)
Lemma checkIfDestinationDirectoryExist_probes (objects : list _Object)
    (destinationKey0 : string) (w : World B) :
  exists (found : bool) (w' : World B) (probes : list Command),
    checkIfDestinationDirectoryExist objects destinationKey0 w =
      (Normal (Result.Success (Some found) None), w')
    /\ sent w' = sent w ++ probes
    /\ forallb readsOnly probes = true.
Proof.
  assert (Hloop : forall w : World B,
             exists (found : bool) (w' : World B) (probes : list Command),
               checkIfDestinationDirectoryExist_loop objects destinationKey0 w =
                 (Normal (Result.Success (Some found) None), w')
               /\ sent w' = sent w ++ probes
               /\ forallb readsOnly probes = true).
  { induction objects as [|object rest IH]; intros w0.
    - exists false, w0, []. split; [reflexivity|].
      split; [now rewrite app_nil_r|reflexivity].
    - simpl. unfold bind at 1. rewrite checkIfObjectKeyExists_eq.
      set (probe := HeadObjectCommand _).
      destruct (success _ && bool_decide _).
      + exists true, (afterSend probe w0), [probe].
        split; [reflexivity|]. split; reflexivity.
      + destruct (IH (afterSend probe w0)) as (found & w' & probes & Hrun & Hsent & Hro).
        exists found, w', (probe :: probes).
        split; [exact Hrun|]. split; [|exact Hro].
        rewrite Hsent. simpl. rewrite <- app_assoc. reflexivity. }
  unfold checkIfDestinationDirectoryExist.
  destruct (List.length objects =? 0)%nat; [|apply Hloop].
  exists false, w, []. split; [reflexivity|].
  split; [now rewrite app_nil_r|reflexivity].
Qed.

Lemma listAllS3ObjectsInDirectory_eq (rootKey : string) (w : World B) :
  let command := ListObjectsV2Command (normalizePrefix rootKey) None in
  listAllS3ObjectsInDirectory rootKey w =
    (Normal (match fst (client_send command (backend w)) with
             | Normal response =>
                 Result.Success
                   (Some (match outputContents response with
                          | Some contents => contents
                          | None => []
                          end)) None
             | Throw e => Result.Failure "Error fetching S3 objects" (Some e)
             end),
     afterSend command w).
Proof.
  intros command. unfold listAllS3ObjectsInDirectory, tryCatch, bind.
  fold command. rewrite send_eq.
  destruct (fst (client_send command (backend w))); reflexivity.
Qed.

Lemma copyS3ObjectCommand_extends (sourceKey0 destinationKey0 : string)
    (w : World B) :
  exists r w' commands,
    copyS3ObjectCommand BucketName sourceKey0 destinationKey0 w = (Normal r, w')
    /\ sent w' = sent w ++ commands.
Proof.
  rewrite copyS3ObjectCommand_eq. cbv zeta.
  destruct (saysExists _); eexists; eexists; eexists;
    (split; [reflexivity|]); simpl; [|rewrite <- app_assoc]; reflexivity.
Qed.

Lemma copyS3DirectoryCommand_loop_extends (objects : list _Object)
    (destinationKey0 : string) (w : World B) :
  exists w' commands,
    copyS3DirectoryCommand_loop BucketName objects destinationKey0 w = (Normal tt, w')
    /\ sent w' = sent w ++ commands.
Proof.
  revert w. induction objects as [|object rest IH]; intros w; simpl.
  - exists w, []. split; [reflexivity|now rewrite app_nil_r].
  - unfold bind at 1.
    destruct (copyS3ObjectCommand_extends (Js.orEmpty (Key object))
                (transformS3DirectoryKeys (Js.orEmpty (Key object)) destinationKey0) w)
      as (r & w1 & cs1 & -> & Hs1).
    simpl.
    destruct (IH w1) as (w2 & cs2 & Hrun & Hs2).
    exists w2, (cs1 ++ cs2). split; [exact Hrun|].
    rewrite Hs2, Hs1, <- app_assoc. reflexivity.
Qed.

(** A directory copy that answers a failure has sent no mutation. *)
Lemma copyS3DirectoryCommand_failure_reads_only (sourceKey0 destinationKey0 : string)
    (w : World B) :
  exists (r : OperationResult bool) (w' : World B) (commands : list Command),
    copyS3DirectoryCommand BucketName sourceKey0 destinationKey0 w = (Normal r, w')
    /\ sent w' = sent w ++ commands
    /\ (success r = false -> forallb readsOnly commands = true).
Proof.
  unfold copyS3DirectoryCommand, tryCatch. unfold bind at 1.
  rewrite listAllS3ObjectsInDirectory_eq. cbv zeta.
  set (command := ListObjectsV2Command (normalizePrefix sourceKey0) None).
  destruct (fst (client_send command (backend w))) as [response|e].
  - cbn [success data Result.Success].
    set (objects := match outputContents response with
                    | Some contents => contents
                    | None => []
                    end).
    unfold bind at 1.
    destruct (checkIfDestinationDirectoryExist_probes objects destinationKey0
                (afterSend command w)) as (found & w1 & probes & -> & Hsent & Hro).
    cbn [data Result.Success].
    destruct found.
    + rewrite bool_decide_eq_true_2 by reflexivity.
      exists S3Responses.DestinationKeyExist, w1, (command :: probes).
      split; [reflexivity|]. split; [|intros _; exact Hro].
      rewrite Hsent. simpl. rewrite <- app_assoc. reflexivity.
    + rewrite bool_decide_eq_false_2 by discriminate.
      unfold bind.
      destruct (copyS3DirectoryCommand_loop_extends objects destinationKey0 w1)
        as (w2 & copies & -> & Hcopies).
      exists (Result.Success (Some true) None), w2, (command :: probes ++ copies).
      split; [reflexivity|]. split; [|discriminate].
      rewrite Hcopies, Hsent. simpl. rewrite <- !app_assoc. reflexivity.
  - exists (Result.ConvertFailure
              (Result.Failure "Error fetching S3 objects" (Some e)
               : OperationResult (list _Object))),
      (afterSend command w), [command].
    split; [reflexivity|]. split; [reflexivity|intros _; reflexivity].
Qed.

End DirectoryFacts.

(** X11: A directory copy that answers a failure (the listing failed, or
    some destination key exists) has sent nothing but the listing and
    [HeadObject] probes: no object was copied. [moveS3DirectoryCommand]
    then returns that same failure with nothing more sent, so nothing was
    deleted either. *)
Theorem copyS3DirectoryCommand_failure_copies_nothing
    (B : Type) (client : S3Client B)
    (BucketName sourceKey0 destinationKey0 : string) (w : World B) :
  exists (r : OperationResult bool) (w' : World B) (commands : list Command),
    copyS3DirectoryCommand BucketName sourceKey0 destinationKey0 w = (Normal r, w')
    /\ sent w' = sent w ++ commands
    /\ (success r = false ->
        forallb readsOnly commands = true
        /\ moveS3DirectoryCommand BucketName sourceKey0 destinationKey0 w =
             (Normal r, w')).
Proof.
  destruct (copyS3DirectoryCommand_failure_reads_only BucketName
              sourceKey0 destinationKey0 w) as (r & w' & commands & Hrun & Hsent & Hro).
  exists r, w', commands. split; [exact Hrun|]. split; [exact Hsent|].
  intros Hfail. split; [exact (Hro Hfail)|].
  unfold moveS3DirectoryCommand, tryCatch, bind. rewrite Hrun, Hfail. reflexivity.
Qed.

Lemma copyS3DirectoryCommand_failure_copies_nothing_witness :
  let b := MemoryBucket.mk "media"
             [("backup/b.txt", 9%Z); ("docs/a.txt", 1%Z); ("docs/b.txt", 2%Z)] 1000 [] in
  exists r w',
    moveS3DirectoryCommand "media" "docs/" "backup/" (MemoryBucket.start b) = (Normal r, w')
    /\ success r = false
    /\ backend w' = b.
Proof.
  intros b.
  destruct (copyS3DirectoryCommand_failure_copies_nothing MemoryBucket.t _
              "media" "docs/" "backup/" (MemoryBucket.start b))
    as (r & w' & commands & Hrun & Hsent & Hfail).
  vm_compute in Hrun. injection Hrun as <- <-.
  eexists. eexists. split; [apply Hfail; reflexivity|].
  split; reflexivity.
Defined.

(** X12: When the backend refuses the listing, the three directory commands
    (copy, delete, move) answer the failure "Error fetching S3 objects" with
    the backend's error, the listing being the only command sent. *)
Theorem directory_commands_listing_failure
    (B : Type) (client : S3Client B)
    (BucketName sourceKey0 destinationKey0 : string) (w : World B) (e : JsError) :
  let command := ListObjectsV2Command (normalizePrefix sourceKey0) None in
  let failure := Result.Failure "Error fetching S3 objects" (Some e) in
  fst (client_send command (backend w)) = Throw e ->
  copyS3DirectoryCommand BucketName sourceKey0 destinationKey0 w =
    (Normal failure, afterSend command w)
  /\ deleteS3DirectoryCommand sourceKey0 w = (Normal failure, afterSend command w)
  /\ moveS3DirectoryCommand BucketName sourceKey0 destinationKey0 w =
       (Normal failure, afterSend command w).
Proof.
  intros command failure Hthrow.
  assert (Hcopy : copyS3DirectoryCommand BucketName sourceKey0 destinationKey0 w =
                    (Normal failure, afterSend command w)).
  { unfold copyS3DirectoryCommand, tryCatch. unfold bind at 1.
    rewrite listAllS3ObjectsInDirectory_eq. cbv zeta. fold command.
    rewrite Hthrow. reflexivity. }
  split; [exact Hcopy|]. split.
  - unfold deleteS3DirectoryCommand, tryCatch. unfold bind at 1.
    rewrite listAllS3ObjectsInDirectory_eq. cbv zeta. fold command.
    rewrite Hthrow. reflexivity.
  - unfold moveS3DirectoryCommand, tryCatch, bind. rewrite Hcopy. reflexivity.
Qed.

Lemma directory_commands_listing_failure_witness :
  deleteS3DirectoryCommand "docs" ({| backend := tt; sent := [] |} : World unit) =
    (Normal (Result.Failure "Error fetching S3 objects" (Some Offline.networkError)),
     {| backend := tt; sent := [ListObjectsV2Command "docs/" None] |}).
Proof.
  exact (proj1 (proj2 (directory_commands_listing_failure unit _
                         "media" "docs" "backup/"
                         {| backend := tt; sent := [] |} Offline.networkError
                         eq_refl))).
Defined.

(** X13: Once the listing is answered, [deleteS3DirectoryCommand] sends one
    [DeleteObjectCommand] per listed object, in the order of the listing and
    nothing else, whatever the backend answers to each of them. *)
Theorem deleteS3DirectoryCommand_in_listing_order
    (B : Type) (client : S3Client B) (key0 : string) (w : World B)
    (response : CommandOutput) :
  let command := ListObjectsV2Command (normalizePrefix key0) None in
  fst (client_send command (backend w)) = Normal response ->
  exists (r : OperationResult bool) (w' : World B),
    deleteS3DirectoryCommand key0 w = (Normal r, w')
    /\ sent w' =
         sent w ++ command ::
           map (fun o => DeleteObjectCommand (Js.orEmpty (Key o)))
               (match outputContents response with
                | Some contents => contents
                | None => []
                end).
Proof.
  intros command Hlist.
  unfold deleteS3DirectoryCommand, tryCatch. unfold bind at 1.
  rewrite listAllS3ObjectsInDirectory_eq. cbv zeta. fold command.
  rewrite Hlist. cbn [success data Result.Success].
  set (objects := match outputContents response with
                  | Some contents => contents
                  | None => []
                  end).
  unfold bind.
  destruct (deleteS3DirectoryCommand_loop_sends_all objects (afterSend command w))
    as (w' & -> & Hsent).
  eexists. eexists. split; [reflexivity|].
  rewrite Hsent. simpl. rewrite <- app_assoc. reflexivity.
Qed.

Lemma deleteS3DirectoryCommand_in_listing_order_witness :
  let b := MemoryBucket.mk "media"
             [("docs/a.txt", 1%Z); ("docs/b.txt", 2%Z); ("other.txt", 3%Z)] 1000 [] in
  exists r w',
    deleteS3DirectoryCommand "docs/" (MemoryBucket.start b) = (Normal r, w')
    /\ sent w' = [ListObjectsV2Command "docs/" None;
                  DeleteObjectCommand "docs/a.txt";
                  DeleteObjectCommand "docs/b.txt"].
Proof.
  intros b.
  destruct (deleteS3DirectoryCommand_in_listing_order MemoryBucket.t
              MemoryBucket.client "docs/"
              (MemoryBucket.start b)
              (ListOutput (MemoryBucket.list_page b "docs/" None))
              ltac:(vm_compute; reflexivity))
    as (r & w' & Hrun & Hsent).
  exists r, w'. split; [exact Hrun|exact Hsent].
Defined.

(** ** Paginated listing ([listAllObjects] of [lib/s3/s3-queries.ts]) *)

Lemma listAllObjects_loop_step (fuel : nat) (prefix : string)
    (token : option string) (allKeys : list string)
    (answer : Completion CommandOutput) (rest : list (Completion CommandOutput))
    (log : list Command) :
  listAllObjects_loop (S fuel) prefix token allKeys
    {| backend := answer :: rest; sent := log |} =
    let w' := {| backend := rest;
                 sent := log ++ [ListObjectsV2Command prefix token] |} in
    match answer with
    | Throw e =>
        (Normal (Some (Result.Failure "Error fetching list of S3 objects" (Some e))), w')
    | Normal response =>
        let allKeys' :=
          allKeys ++
            match outputContents response with
            | Some contents => map (fun item => Js.orEmpty (Key item)) contents
            | None => []
            end in
        if Js.truthy (outputNextContinuationToken response)
        then listAllObjects_loop fuel prefix
               (outputNextContinuationToken response) allKeys' w'
        else (Normal (Some (Result.Success (Some allKeys') None)), w')
    end.
Proof.
  cbn [listAllObjects_loop]. unfold bind, tryCatch, send, ret. cbn [backend sent].
  unfold client_send, Scripted.script.
  destruct answer as [response|e]; [|reflexivity].
  cbv zeta. destruct (Js.truthy (outputNextContinuationToken response)); reflexivity.
Qed.

Lemma listAllObjects_loop_page (fuel : nat) (prefix : string)
    (token next : option string) (allKeys : list string)
    (contents : list _Object) (rest : list (Completion CommandOutput))
    (log : list Command) :
  listAllObjects_loop (S fuel) prefix token allKeys
    {| backend := Scripted.page contents next :: rest; sent := log |} =
    let w' := {| backend := rest;
                 sent := log ++ [ListObjectsV2Command prefix token] |} in
    let allKeys' := allKeys ++ map (fun item => Js.orEmpty (Key item)) contents in
    if Js.truthy next
    then listAllObjects_loop fuel prefix next allKeys' w'
    else (Normal (Some (Result.Success (Some allKeys') None)), w').
Proof. rewrite listAllObjects_loop_step. reflexivity. Qed.

Lemma truthy_token (t : string) : t <> "" -> Js.truthy (Some t) = true.
Proof.
  intros Ht. unfold Js.truthy. apply String.eqb_neq in Ht. rewrite Ht. reflexivity.
Qed.

Lemma listAllObjects_loop_script (prefix : string)
    (pages : list (list _Object * string)) (final : list _Object) :
  Forall (fun p => snd p <> "") pages ->
  forall (fuel : nat) (token : option string) (allKeys : list string)
         (log : list Command),
    (List.length pages < fuel)%nat ->
    let script := map (fun p => Scripted.page (fst p) (Some (snd p))) pages in
    let w' := {| backend := [];
                 sent := log ++ Scripted.requests prefix token (map snd pages) |} in
    listAllObjects_loop fuel prefix token allKeys
      {| backend := script ++ [Scripted.page final None]; sent := log |} =
      (Normal (Some (Result.Success
                       (Some (allKeys ++
                              map (fun o => Js.orEmpty (Key o))
                                  (concat (map fst pages) ++ final))) None)), w')
    /\ forall e : JsError,
         listAllObjects_loop fuel prefix token allKeys
           {| backend := script ++ [Throw e]; sent := log |} =
           (Normal (Some (Result.Failure "Error fetching list of S3 objects" (Some e))),
            w').
Proof.
  intros Htokens.
  induction Htokens as [|[contents t] pages Ht _ IH];
    intros fuel token allKeys log Hfuel;
    (destruct fuel as [|fuel]; [simpl in Hfuel; lia|]); cbv zeta.
  - simpl map. simpl app. split.
    + rewrite listAllObjects_loop_page. reflexivity.
    + intros e. rewrite listAllObjects_loop_step. reflexivity.
  - simpl in Ht.
    assert (Hf : (List.length pages < fuel)%nat) by (simpl in Hfuel; lia).
    specialize (IH fuel (Some t)
                  (allKeys ++ map (fun item => Js.orEmpty (Key item)) contents)
                  (log ++ [ListObjectsV2Command prefix token]) Hf).
    cbv zeta in IH. destruct IH as [IHok IHerr].
    simpl map. simpl app.
    split; [|intros e]; rewrite listAllObjects_loop_page; cbv zeta;
      rewrite (truthy_token t Ht).
    + rewrite IHok. simpl concat. simpl Scripted.requests.
      rewrite <- (app_assoc contents), (map_app _ contents), <- !app_assoc.
      reflexivity.
    + rewrite IHerr. simpl Scripted.requests. rewrite <- app_assoc. reflexivity.
Qed.

(** X14: [listAllObjects] follows the continuation tokens. Against a backend
    that answers page after page, each but the last with a non-empty token,
    it sends one request per page, the first without token and each next one
    with the token of the page before, and answers the keys of all the pages
    in order. If instead of a last page the backend raises an error, the
    answer is the failure "Error fetching list of S3 objects" and the keys
    gathered so far are dropped. The fuel counts pages: any amount above the
    number of tokens gives this result. *)
Theorem listAllObjects_follows_tokens (prefix : string)
    (pages : list (list _Object * string)) (final : list _Object) (fuel : nat) :
  Forall (fun p => snd p <> "") pages ->
  (List.length pages < fuel)%nat ->
  let script := map (fun p => Scripted.page (fst p) (Some (snd p))) pages in
  let requests := Scripted.requests prefix None (map snd pages) in
  listAllObjects fuel prefix
    {| backend := script ++ [Scripted.page final None]; sent := [] |} =
    (Normal (Some (Result.Success
                     (Some (map (fun o => Js.orEmpty (Key o))
                                (concat (map fst pages) ++ final))) None)),
     {| backend := []; sent := requests |})
  /\ forall e : JsError,
       listAllObjects fuel prefix {| backend := script ++ [Throw e]; sent := [] |} =
         (Normal (Some (Result.Failure "Error fetching list of S3 objects" (Some e))),
          {| backend := []; sent := requests |}).
Proof.
  intros Htokens Hfuel script requests.
  exact (listAllObjects_loop_script prefix pages final Htokens fuel None [] [] Hfuel).
Qed.

Lemma listAllObjects_follows_tokens_witness :
  let a := {| Key := Some "docs/a.txt"; Size := None |} in
  let b := {| Key := Some "docs/b.txt"; Size := None |} in
  let c := {| Key := Some "docs/c.txt"; Size := None |} in
  listAllObjects 2 "docs/"
    {| backend := [Scripted.page [a; b] (Some "t1"); Scripted.page [c] None];
       sent := [] |} =
    (Normal (Some (Result.Success
                     (Some ["docs/a.txt"; "docs/b.txt"; "docs/c.txt"]) None)),
     {| backend := [];
        sent := [ListObjectsV2Command "docs/" None;
                 ListObjectsV2Command "docs/" (Some "t1")] |}).
Proof.
  intros a b c.
  apply (proj1 (listAllObjects_follows_tokens "docs/" [([a; b], "t1")] [c] 2
                  ltac:(repeat constructor; discriminate) ltac:(simpl; lia))).
Defined.

(** ** Upload URLs *)

(** X15: [generateUploadPresignedUrl] probes the key (['/'] for a missing or
    empty key) and nothing else in the storage. When the probe says the key
    exists and [overwrite] is false it answers the [FileNameExists] sentinel
    without any signing request. In every other case, a failed probe
    included, it makes one signing request for that key, content type and the
    configured expiry, and answers the URL, or the failure "Error generating
    presigned URL" if the presigner raised an error. *)
Theorem generateUploadPresignedUrl_collision_or_sign
    (B : Type) (client : S3Client B) (S : Type) (signer : UploadPresigner S)
    (s3SignedUrlExpires : Z) (k : option string) (overwrite : bool)
    (contentType : string) (w : UploadUrlWorld B S) :
  let key' := if Js.truthy k then Js.orEmpty k else "/" in
  let probe :=
    probeAnswer (fst (client_send (HeadObjectCommand key') (backend (storage w)))) in
  let run := generateUploadPresignedUrl s3SignedUrlExpires k overwrite contentType w in
  storage (snd run) = afterSend (HeadObjectCommand key') (storage w)
  /\ (saysExists probe = true -> overwrite = false ->
      fst run = S3Responses.FileNameExists
      /\ uploadSigningRequests (snd run) = uploadSigningRequests w)
  /\ (saysExists probe = false \/ overwrite = true ->
      uploadSigningRequests (snd run) =
        uploadSigningRequests w ++ [(key', contentType, s3SignedUrlExpires)]
      /\ match fst (getSignedUploadUrl key' contentType s3SignedUrlExpires
                      (uploadPresigner w)) with
         | Normal u => fst run = Result.Success (Some u) None
         | Throw e => fst run = Result.Failure "Error generating presigned URL" (Some e)
         end).
Proof.
  intros key' probe run. subst run. unfold generateUploadPresignedUrl.
  fold key'. rewrite checkIfObjectKeyExists_eq. fold probe.
  change (success probe && bool_decide (data probe = Some true))
    with (saysExists probe).
  destruct (getSignedUploadUrl key' contentType s3SignedUrlExpires (uploadPresigner w))
    as [signed s'] eqn:Hsign.
  destruct (saysExists probe) eqn:Hp; destruct overwrite; simpl.
  - split; [destruct signed; reflexivity|]. split; [discriminate|].
    intros _. destruct signed; split; reflexivity.
  - split; [reflexivity|]. split; [intros _ _; split; reflexivity|].
    intros [Hc|Hc]; discriminate.
  - split; [destruct signed; reflexivity|]. split; [discriminate|].
    intros _. destruct signed; split; reflexivity.
  - split; [destruct signed; reflexivity|]. split; [discriminate|].
    intros _. destruct signed; split; reflexivity.
Qed.

Lemma generateUploadPresignedUrl_collision_or_sign_witness :
  let b := MemoryBucket.mk "media" [("docs/a.txt", 1%Z)] 1000 [] in
  let w := {| storage := MemoryBucket.start b; uploadPresigner := tt;
              uploadSigningRequests := [] |} in
  fst (generateUploadPresignedUrl 900 (Some "docs/a.txt") false "text/plain" w) =
    S3Responses.FileNameExists
  /\ uploadSigningRequests
       (snd (generateUploadPresignedUrl 900 (Some "docs/a.txt") false "text/plain" w)) = [].
Proof.
  intros b w.
  apply (proj1 (proj2 (generateUploadPresignedUrl_collision_or_sign
                         MemoryBucket.t MemoryBucket.client unit UploadStub.signer
                         900 (Some "docs/a.txt") false "text/plain" w)));
    reflexivity.
Defined.

(** ** The listing conversion ([lib/s3/s3-helpers.ts]) *)

Lemma split_head_with_separator (sep : ascii) (s : string) :
  Js.includes s sep = true -> head (Js.split sep s) <> Some s.
Proof.
  induction s as [|x rest IH]; [discriminate|].
  simpl. destruct (Ascii.eqb x sep) eqn:Hx; simpl.
  - intros _ Heq. discriminate.
  - intros Hin.
    pose proof (split_nonempty sep rest) as Hne.
    destruct (Js.split sep rest) as [|hd tl]; [contradiction|].
    simpl in *. intros Heq. injection Heq as ->. apply (IH Hin). reflexivity.
Qed.

Lemma contentEntry_file (responsePrefix : option string) (o : _Object) (e : S3Object) :
  In e (contentEntry responsePrefix o) ->
  type e = FILE ->
  object e = Some o
  /\ Key o = Some (key e)
  /\ Js.includes (key e) "." = true
  /\ Js.endsWith (key e) "/" = false
  /\ Some (key e) <> responsePrefix.
Proof.
  unfold contentEntry.
  destruct (bool_decide (Key o = responsePrefix)) eqn:Hself; [intros []|].
  apply bool_decide_eq_false in Hself.
  destruct (looksLikeDirectory (Key o)) eqn:Hdir.
  - intros [<-|[]]. discriminate.
  - intros [<-|[]] _. simpl.
    destruct (Key o) as [k|] eqn:Hk; [|discriminate]. simpl in *.
    apply orb_false_iff in Hdir as [Hhead Hslash].
    apply bool_decide_eq_false in Hhead.
    split; [reflexivity|]. split; [reflexivity|].
    split; [|split; [exact Hslash|exact Hself]].
    destruct (Js.includes k ".") eqn:Hdot; [reflexivity|].
    exfalso. apply Hhead. apply split_head_without_separator. exact Hdot.
Qed.

Lemma contentEntry_directory_object (responsePrefix : option string) (o : _Object)
    (e : S3Object) :
  In e (contentEntry responsePrefix o) -> type e = DIRECTORY -> object e = None.
Proof.
  unfold contentEntry.
  destruct (bool_decide (Key o = responsePrefix)); [intros []|].
  destruct (looksLikeDirectory (Key o)); intros [<-|[]]; [reflexivity|discriminate].
Qed.

Lemma length_concat_contentEntry (responsePrefix : option string)
    (contents : list _Object) :
  List.length (concat (map (contentEntry responsePrefix) contents)) =
    List.length (List.filter (fun o => negb (bool_decide (Key o = responsePrefix)))
                   contents).
Proof.
  induction contents as [|o contents IH]; [reflexivity|].
  simpl. rewrite length_app, IH. unfold contentEntry.
  destruct (bool_decide (Key o = responsePrefix)); simpl; [reflexivity|].
  destruct (looksLikeDirectory (Key o)); reflexivity.
Qed.

(** X16: In the output of [ListObjectsV2CommandOutputToS3Object] a FILE
    entry always carries the listed object it comes from, and its key has a
    ['.'], no trailing ['/'] and is not the queried prefix; a DIRECTORY entry
    carries no object. The output has one entry per common prefix and one per
    object of [Contents] whose key is not the queried prefix: the folder's own
    marker is skipped. *)
Theorem ListObjectsV2CommandOutputToS3Object_entries
    (response : ListObjectsV2Output) :
  (forall e : S3Object,
     In e (ListObjectsV2CommandOutputToS3Object response) ->
     match type e with
     | FILE =>
         exists o, object e = Some o
                   /\ Key o = Some (key e)
                   /\ Js.includes (key e) "." = true
                   /\ Js.endsWith (key e) "/" = false
                   /\ Some (key e) <> Prefix response
     | DIRECTORY => object e = None
     end)
  /\ List.length (ListObjectsV2CommandOutputToS3Object response) =
       (List.length (default [] (CommonPrefixes response))
        + List.length
            (List.filter (fun o => negb (bool_decide (Key o = Prefix response)))
               (default [] (Contents response))))%nat.
Proof.
  unfold ListObjectsV2CommandOutputToS3Object. split.
  - intros e Hin. apply in_app_or in Hin as [Hin|Hin].
    + destruct (CommonPrefixes response) as [prefixes|]; [|destruct Hin].
      apply in_map_iff in Hin as (p & <- & _). reflexivity.
    + destruct (Contents response) as [contents|]; [|destruct Hin].
      apply in_concat in Hin as (entries & Hentries & Hin).
      apply in_map_iff in Hentries as (o & <- & _).
      destruct (type e) eqn:Ht.
      * exists o. apply (contentEntry_file (Prefix response) o e Hin Ht).
      * apply (contentEntry_directory_object (Prefix response) o e Hin Ht).
  - rewrite length_app. f_equal.
    + destruct (CommonPrefixes response); [apply length_map|reflexivity].
    + destruct (Contents response); [apply length_concat_contentEntry|reflexivity].
Qed.

Lemma ListObjectsV2CommandOutputToS3Object_entries_witness :
  let o := {| Key := Some "docs/a.txt"; Size := Some 3%Z |} in
  let response :=
    {| CommonPrefixes := Some [Some "docs/img/"];
       Contents := Some [ {| Key := Some "docs/"; Size := Some 0%Z |}; o ];
       Prefix := Some "docs/";
       NextContinuationToken := None |} in
  let e := {| type := FILE; key := "docs/a.txt"; name := "a.txt"; object := Some o |} in
  In e (ListObjectsV2CommandOutputToS3Object response)
  /\ (exists o', object e = Some o' /\ Key o' = Some (key e))
  /\ List.length (ListObjectsV2CommandOutputToS3Object response) = 2%nat.
Proof.
  intros o response e.
  assert (Hin : In e (ListObjectsV2CommandOutputToS3Object response))
    by (right; left; reflexivity).
  split; [exact Hin|]. split; [|reflexivity].
  destruct (proj1 (ListObjectsV2CommandOutputToS3Object_entries response) e Hin)
    as (o' & Ho & Hk & _).
  exists o'. split; assumption.
Defined.

(** ** The orchestrator's preconditions and dispatch *)

Section DispatchFacts.

Context {Srv : Type} `{S3Actions Srv}.

Lemma validateAndDispatchS3Action_missing_source
    (operationType0 : FileOperationType) (newName0 : option string)
    (c : Client Srv) :
  Js.truthy (sourceKey (store c)) = false ->
  validateAndDispatchS3Action operationType0 newName0 c =
    (missingParameters operationType0, c).
Proof.
  unfold validateAndDispatchS3Action, Js.truthy.
  destruct (sourceKey (store c)) as [k|]; [|reflexivity].
  destruct (String.eqb k ""); [reflexivity|discriminate].
Qed.



End DispatchFacts.

(** X17: The orchestrator's operations check their preconditions before any
    server action. With an operation type other than the expected one the
    operation answers a failure and leaves the client exactly as it was; so
    does a create with an empty name. With the expected type but no source
    key (unset or empty) it answers a failure, calls no server action and
    keeps the context. *)
Theorem perform_checks_preconditions_first
    (Srv : Type) (actions : S3Actions Srv) (op : Operation) (c : Client Srv) :
  let run := perform op c in
  (operationType (store c) <> Some (expectedType op) ->
   success (fst run) = false /\ snd run = c)
  /\ (op = Create "" -> success (fst run) = false /\ snd run = c)
  /\ (Js.truthy (sourceKey (store c)) = false ->
      success (fst run) = false
      /\ calls (snd run) = calls c
      /\ server (snd run) = server c
      /\ sourceKey (store (snd run)) = sourceKey (store c)
      /\ operationType (store (snd run)) = operationType (store c)).
Proof.
  intros run. subst run. split; [|split].
  - intros Hop.
    destruct op; simpl in *;
      unfold createS3Directory, moveS3Object, copyS3Object, deleteS3Object,
        renameS3Object;
      rewrite (bool_decide_eq_false_2 _ Hop); split; reflexivity.
  - intros ->. simpl. unfold createS3Directory.
    destruct (negb (bool_decide _)); split; reflexivity.
  - intros Hsource.
    destruct op as [n| | | |n]; simpl;
      unfold createS3Directory, moveS3Object, copyS3Object, deleteS3Object,
        renameS3Object;
      (destruct (negb (bool_decide _)); [repeat split; reflexivity|]);
      try (destruct (String.eqb n ""); [repeat split; reflexivity|]);
      rewrite validateAndDispatchS3Action_missing_source by exact Hsource;
      repeat split; reflexivity.
Qed.

Lemma perform_checks_preconditions_first_witness :
  let c := StubServer.pending "docs/a.txt" COPY true in
  operationType (store c) <> Some (expectedType Move)
  /\ success (fst (perform Move c)) = false
  /\ snd (perform Move c) = c.
Proof.
  intros c. split; [discriminate|].
  apply (proj1 (perform_checks_preconditions_first bool _ Move c)). discriminate.
Defined.



(** ** The key of a created folder *)








(** ** Navigation ([hooks/s3/use-s3-navigation.ts], the path slice) *)

Lemma setPath_folder (k : string) (st : Store) :
  folderPrefix (path (setPath k st)) = true.
Proof.
  unfold setPath. simpl path.
  destruct (String.eqb k "/" || String.eqb k ""); [reflexivity|].
  set (k' := if Js.startsWith k "/" then substring 1 (String.length k - 1) k else k).
  unfold folderPrefix.
  destruct (Js.endsWith k' "/") eqn:He; [rewrite He; apply orb_true_r|].
  rewrite endsWith_append_slash. apply orb_true_r.
Qed.

(** X20: [setPath] keeps the stored path in one shape: empty (the root) or
    ending with ['/']. The keys ['/'] and [''] give the root, a key without
    leading slash that already ends with ['/'] is stored as it is, and one
    without trailing slash gets it. *)
Theorem setPath_normalises (k : string) (st : Store) :
  folderPrefix (path (setPath k st)) = true
  /\ path (setPath "/" st) = ""
  /\ path (setPath "" st) = ""
  /\ (k <> "" -> Js.startsWith k "/" = false ->
      path (setPath k st) = if Js.endsWith k "/" then k else k +:+ "/").
Proof.
  split; [apply setPath_folder|]. split; [reflexivity|]. split; [reflexivity|].
  intros Hne Hstart. unfold setPath. simpl path.
  apply String.eqb_neq in Hne. rewrite Hne, Hstart.
  destruct (String.eqb k "/") eqn:Hroot; [|reflexivity].
  apply String.eqb_eq in Hroot. subst k. discriminate.
Qed.

Lemma setPath_normalises_witness :
  "docs" <> ""
  /\ Js.startsWith "docs" "/" = false
  /\ path (setPath "docs" (mkStore [] None None None None None "")) = "docs/".
Proof.
  split; [discriminate|]. split; [reflexivity|].
  apply (proj2 (proj2 (proj2
           (setPath_normalises "docs" (mkStore [] None None None None None "")))));
    [discriminate|reflexivity].
Defined.

(** X21: [getS3Objects] calls the listing action once. When the listing
    fails (or carries no data) it answers a failure with the listing's
    message and leaves the store as it was, path and objects included. When
    it succeeds the objects are replaced by the answer, the path becomes the
    formatted key, and the pending operation context is untouched.
    [updateS3Objects] differs on failure: it has set the path to the
    formatted key before listing, so the path changes even when the listing
    fails. *)
Theorem getS3Objects_updates_on_success_only
    (Srv : Type) (actions : S3Actions Srv) (k : string) (refresh : bool)
    (c : Client Srv) :
  let listing := fst (getObjectsAction k refresh (server c)) in
  let run := getS3Objects k refresh c in
  calls (snd run) = calls c ++ [GetObjects k refresh]
  /\ (success listing = false \/ data listing = None ->
      success (fst run) = false
      /\ message (fst run) = message listing
      /\ store (snd run) = store c)
  /\ (forall objects,
        success listing = true -> data listing = Some objects ->
        success (fst run) = true
        /\ s3Objects (store (snd run)) = objects
        /\ path (store (snd run)) = path (setPath k (store c))
        /\ sourceKey (store (snd run)) = sourceKey (store c)
        /\ operationType (store (snd run)) = operationType (store c))
  /\ path (store (updateS3Objects k c)) = path (setPath k (store c)).
Proof.
  intros listing run. subst run.
  split; [apply getS3Objects_calls|].
  assert (Hrun : forall (fresh : bool) (c0 : Client Srv),
             getS3Objects k fresh c0 =
               let listing0 := fst (getObjectsAction k fresh (server c0)) in
               let c1 := mkClient (store c0) (snd (getObjectsAction k fresh (server c0)))
                           (calls c0 ++ [GetObjects k fresh]) in
               match success listing0, data listing0 with
               | true, Some objects =>
                   (Result.Success (Some true) None,
                    updateStore (setPath k) (updateStore (setS3Objects objects) c1))
               | _, _ => (Result.ConvertFailure listing0, c1)
               end).
  { intros fresh c0. unfold getS3Objects. rewrite after_mutation. reflexivity. }
  split; [|split].
  - intros Hfail. rewrite Hrun. cbv zeta. fold listing.
    destruct Hfail as [Hs|Hd].
    + rewrite Hs. repeat split; reflexivity.
    + rewrite Hd. destruct (success listing); repeat split; reflexivity.
  - intros objects Hs Hd. rewrite Hrun. cbv zeta. fold listing.
    rewrite Hs, Hd. repeat split; reflexivity.
  - unfold updateS3Objects. rewrite Hrun. cbv zeta.
    destruct (success _); [destruct (data _)|]; reflexivity.
Qed.

Lemma getS3Objects_updates_on_success_only_witness :
  let c := StubServer.pending "docs/a.txt" MOVE true in
  success (fst (getS3Objects "img" false c)) = true
  /\ path (store (snd (getS3Objects "img" false c))) = "img/"
  /\ sourceKey (store (snd (getS3Objects "img" false c))) = Some "docs/a.txt".
Proof.
  intros c.
  destruct (proj1 (proj2 (proj2 (getS3Objects_updates_on_success_only
                                   bool StubServer.actions "img" false c))) []
              ltac:(reflexivity) ltac:(reflexivity))
    as (Hok & _ & Hpath & Hsource & _).
  split; [exact Hok|]. split; [exact Hpath|exact Hsource].
Defined.

Lemma lastIndexOf_absent (s : string) (c : ascii) :
  Js.includes s c = false -> JsIndex.lastIndexOf s c = None.
Proof.
  induction s as [|x rest IH]; [reflexivity|].
  simpl. intros Hno. apply orb_false_iff in Hno as [Hx Hrest].
  rewrite (IH Hrest), Hx. reflexivity.
Qed.

Lemma lastIndexOf_append (q name0 : string) (c : ascii) :
  Js.includes name0 c = false ->
  JsIndex.lastIndexOf (q +:+ String c name0) c = Some (String.length q).
Proof.
  intros Hno. induction q as [|x q IH].
  - rewrite append_nil_l. simpl.
    rewrite (lastIndexOf_absent name0 c Hno), Ascii.eqb_refl. reflexivity.
  - rewrite append_cons. simpl. rewrite IH. reflexivity.
Qed.

Lemma substring_prefix (a b : string) :
  substring 0 (String.length a) (a +:+ b) = a.
Proof.
  induction a as [|x a IH].
  - rewrite append_nil_l. apply substring_none.
  - rewrite append_cons. simpl. f_equal. exact IH.
Qed.

Lemma dropLast_append_slash (s : string) : JsIndex.dropLast (s +:+ "/") = s.
Proof.
  unfold JsIndex.dropLast. rewrite length_append.
  replace (String.length s + String.length "/" - 1)%nat with (String.length s)
    by (simpl; lia).
  apply substring_prefix.
Qed.

Lemma longer_than_slash (a b : string) :
  a <> "" -> String.eqb (a +:+ "/" +:+ b) "/" = false.
Proof.
  intros Ha. apply String.eqb_neq. intros Heq.
  apply (f_equal String.length) in Heq.
  rewrite !length_append in Heq. simpl in Heq.
  destruct a; [contradiction|simpl in Heq; lia].
Qed.

Lemma nonempty_append (a b : string) : a <> "" -> String.eqb (a +:+ b) "" = false.
Proof. intros Ha. apply String.eqb_neq. destruct a; [contradiction|discriminate]. Qed.

(** X22: [toParentDirectory] does nothing at the root (path [''] or
    ['/']). From a folder [q/name/] it lists the parent [q/]; from a top-level
    folder [name/] it lists the root and sets the path to the root. *)
Theorem toParentDirectory_goes_up
    (Srv : Type) (actions : S3Actions Srv) (q name0 : string) (c : Client Srv) :
  Js.includes name0 "/" = false ->
  (path (store c) = "" \/ path (store c) = "/" -> toParentDirectory c = c)
  /\ (q <> "" -> path (store c) = q +:+ "/" +:+ name0 +:+ "/" ->
      toParentDirectory c = snd (getS3Objects (q +:+ "/") false c))
  /\ (name0 <> "" -> path (store c) = name0 +:+ "/" ->
      toParentDirectory c = updateStore (setPath "") (snd (getS3Objects "" false c))).
Proof.
  intros Hslash. unfold toParentDirectory, getPath. split; [|split].
  - intros [-> | ->]; reflexivity.
  - intros Hq ->.
    rewrite (longer_than_slash q (name0 +:+ "/") Hq).
    rewrite (nonempty_append q _ Hq). simpl orb. cbv iota.
    replace (q +:+ "/" +:+ name0 +:+ "/") with ((q +:+ String "/" name0) +:+ "/")
      by (rewrite !append_assoc; reflexivity).
    rewrite endsWith_append_slash, dropLast_append_slash.
    rewrite (lastIndexOf_append q name0 "/" Hslash).
    destruct (String.length q) as [|i] eqn:Hlen; [destruct q; [contradiction|discriminate]|].
    rewrite <- Hlen, substring_prefix. reflexivity.
  - intros Hname ->.
    assert (Hroot : String.eqb (name0 +:+ "/") "/" = false).
    { apply String.eqb_neq. intros Heq. apply (f_equal String.length) in Heq.
      rewrite length_append in Heq. simpl in Heq.
      destruct name0; [contradiction|simpl in Heq; lia]. }
    rewrite Hroot, (nonempty_append name0 _ Hname). simpl orb. cbv iota.
    rewrite endsWith_append_slash, dropLast_append_slash.
    rewrite (lastIndexOf_absent name0 "/" Hslash). reflexivity.
Qed.

Lemma toParentDirectory_goes_up_witness :
  let c : Client bool :=
    {| store := mkStore [] None None None None None "docs/img/";
       server := true; calls := [] |} in
  calls (toParentDirectory c) = [GetObjects "docs/" false]
  /\ path (store (toParentDirectory c)) = "docs/".
Proof.
  intros c.
  rewrite (proj1 (proj2 (toParentDirectory_goes_up bool StubServer.actions
                           "docs" "img" c ltac:(reflexivity)))
             ltac:(discriminate) ltac:(reflexivity)).
  split; reflexivity.
Defined.

(** X23: [setOperationContext] refuses an empty key and then changes
    nothing; any other key is stored with the operation type. At the root the
    navigation path is empty, so the context that the create dialog asks for
    ([setOperationContext(getPath(), CREATE)]) is refused, and unless a CREATE
    was already pending [createS3Directory] then fails its guard without any
    server call: the client stays as it was. *)
Theorem setOperationContext_refuses_root
    (Srv : Type) (actions : S3Actions Srv) (k : string)
    (operationType0 : FileOperationType) (c : Client Srv) :
  setOperationContext "" operationType0 c =
    (Result.Failure "Key cannot be empty" None, c)
  /\ (k <> "" ->
      let run := setOperationContext k operationType0 c in
      success (fst run) = true
      /\ sourceKey (store (snd run)) = Some k
      /\ operationType (store (snd run)) = Some operationType0
      /\ path (store (snd run)) = path (store c)
      /\ s3Objects (store (snd run)) = s3Objects (store c)
      /\ calls (snd run) = calls c)
  /\ (path (store c) = "" ->
      operationType (store c) <> Some CREATE ->
      forall n : string,
        let opened := snd (setOperationContext (getPath (store c)) CREATE c) in
        success (fst (createS3Directory n opened)) = false
        /\ snd (createS3Directory n opened) = c).
Proof.
  split; [reflexivity|]. split.
  - intros Hk. unfold setOperationContext.
    apply String.eqb_neq in Hk. rewrite Hk. repeat split; reflexivity.
  - intros Hpath Hop n. unfold getPath. rewrite Hpath.
    unfold setOperationContext. simpl. unfold createS3Directory.
    rewrite (bool_decide_eq_false_2 _ Hop). split; reflexivity.
Qed.

Lemma setOperationContext_refuses_root_witness :
  let c : Client bool :=
    {| store := mkStore [] None None None None None ""; server := true; calls := [] |} in
  success (fst (createS3Directory "new"
                  (snd (setOperationContext (getPath (store c)) CREATE c)))) = false
  /\ snd (createS3Directory "new"
            (snd (setOperationContext (getPath (store c)) CREATE c))) = c.
Proof.
  intros c.
  apply (proj2 (proj2 (setOperationContext_refuses_root bool StubServer.actions
                         "docs/" CREATE c)));
    [reflexivity|discriminate].
Defined.

(** ** More of the upload hook *)

Lemma updateFileStatus_cancel (l : list Upload.FileUploadStatus) (i : nat)
    (s : Upload.FileUploadStatus) :
  l !! i = Some s ->
  match Upload.status s with
  | Upload.uploading | Upload.pending =>
      Upload.updateFileStatus l i
        {| Upload.newProgress := None; Upload.newStatus := Some Upload.cancelled;
           Upload.newError := None |}
  | _ => l
  end = <[i := UploadChecks.markCancelled s]> l.
Proof.
  intros Hs. unfold UploadChecks.markCancelled, Upload.updateFileStatus.
  rewrite Hs.
  destruct (Upload.status s); simpl; try reflexivity;
    symmetry; apply list_insert_id; exact Hs.
Qed.

Lemma cancelAll_loop_map (n i : nat) (l : list Upload.FileUploadStatus) :
  (i + n = List.length l)%nat ->
  Upload.cancelAll_loop n i l =
    take i l ++ map UploadChecks.markCancelled (drop i l).
Proof.
  revert i l. induction n as [|n IH]; intros i l Hlen.
  - simpl. replace i with (List.length l) by lia.
    rewrite drop_all, firstn_all, app_nil_r. reflexivity.
  - assert (Hi : (i < List.length l)%nat) by lia.
    destruct (lookup_lt_is_Some_2 l i Hi) as [s Hs].
    cbn [Upload.cancelAll_loop]. rewrite Hs.
    rewrite (updateFileStatus_cancel l i s Hs).
    rewrite IH by (rewrite length_insert; lia).
    rewrite (take_S_r _ i (UploadChecks.markCancelled s))
      by (apply list_lookup_insert_eq; exact Hi).
    rewrite take_insert_ge by lia.
    rewrite drop_insert_lt by lia.
    rewrite (drop_S l s i Hs). simpl. rewrite <- app_assoc. reflexivity.
Qed.

Lemma cancelAllUploads_statuses (st : Upload.State) :
  Upload.fileStatuses (Upload.cancelAllUploads st) =
    map UploadChecks.markCancelled (Upload.fileStatuses st).
Proof.
  unfold Upload.cancelAllUploads, Upload.cancelUpload.
  destruct (Upload.abortControllerRef st); simpl;
    rewrite cancelAll_loop_map by reflexivity; reflexivity.
Qed.

(** X24: [cancelAllUploads] turns every entry that is pending or uploading
    into cancelled and leaves the others (completed, error, cancelled) as they
    are, in place: the list of files, the length and order of the statuses,
    and each entry's file, progress and error message are kept. Afterwards no
    entry is pending or uploading, and no transfer is current. *)
Theorem cancelAllUploads_marks_unfinished (st : Upload.State) :
  Upload.fileStatuses (Upload.cancelAllUploads st) =
    map UploadChecks.markCancelled (Upload.fileStatuses st)
  /\ Upload.files (Upload.cancelAllUploads st) = Upload.files st
  /\ Upload.currentFileIndex (Upload.cancelAllUploads st) = (-1)%Z
  /\ (forall s, In s (Upload.fileStatuses (Upload.cancelAllUploads st)) ->
      Upload.status s <> Upload.pending /\ Upload.status s <> Upload.uploading)
  /\ (forall i s,
        Upload.fileStatuses st !! i = Some s ->
        Upload.status s = Upload.completed \/ Upload.status s = Upload.error ->
        Upload.fileStatuses (Upload.cancelAllUploads st) !! i = Some s).
Proof.
  pose proof (cancelAllUploads_statuses st) as Hmap.
  split; [exact Hmap|]. split; [|split; [|split]].
  - unfold Upload.cancelAllUploads, Upload.cancelUpload.
    destruct (Upload.abortControllerRef st); reflexivity.
  - unfold Upload.cancelAllUploads, Upload.cancelUpload.
    destruct (Upload.abortControllerRef st); reflexivity.
  - intros s Hin. rewrite Hmap in Hin. apply in_map_iff in Hin as (s0 & <- & _).
    unfold UploadChecks.markCancelled.
    destruct (Upload.status s0) eqn:Hs; simpl; rewrite ?Hs; split; discriminate.
  - intros i s Hs Hdone. rewrite Hmap, list_lookup_fmap, Hs. simpl.
    unfold UploadChecks.markCancelled. destruct Hdone as [-> | ->]; reflexivity.
Qed.

Lemma cancelAllUploads_marks_unfinished_witness :
  let a := Upload.mkFile "a.txt" 10%Z in
  let b := Upload.mkFile "b.txt" 20%Z in
  let st := Upload.setFileStatuses
              (fun _ => [Upload.mkFileUploadStatus a 100%Z Upload.completed None;
                         Upload.mkFileUploadStatus b 40%Z Upload.uploading None])
              (Upload.selected "docs/" [a; b]) in
  map Upload.status (Upload.fileStatuses (Upload.cancelAllUploads st)) =
    [Upload.completed; Upload.cancelled]
  /\ Upload.fileStatuses (Upload.cancelAllUploads st) !! 0%nat =
       Some (Upload.mkFileUploadStatus a 100%Z Upload.completed None).
Proof.
  intros a b st. split; [reflexivity|].
  apply (proj2 (proj2 (proj2 (proj2 (cancelAllUploads_marks_unfinished st)))) 0%nat);
    [reflexivity|left; reflexivity].
Defined.

Section UploadFacts.

Variable getUploadPresignedUrlAction : string -> bool -> OperationResult string.

(** The answer of the upload-URL action to the request [uploadSingleFile]
    makes for [f] in the state [st]. *)
Let urlResponse (f : Upload.File) (overwrite : bool) (st : Upload.State)
  : OperationResult string :=
  getUploadPresignedUrlAction
    ((if Js.endsWith (Upload.navigationPath st) "/"
      then Upload.navigationPath st
      else Upload.navigationPath st +:+ "/") +:+ Upload.fileName f)
    overwrite.

Lemma truthy_orEmpty (x : option string) :
  Js.truthy x = true -> Js.truthy (Some (Js.orEmpty x)) = true.
Proof. destruct x as [s|]; [|discriminate]. intros H; exact H. Qed.

(** When the upload-URL request rejects, [uploadSingleFile] leaves through
    its [catch] block with nothing done but [setCurrentFile]. *)
Lemma uploadSingleFile_rejected (f : Upload.File) (overwrite : bool)
    (e : JsError) (st : Upload.State) :
  Upload.uploadSingleFile getUploadPresignedUrlAction f overwrite
    (Upload.UrlRequestRejects e) st =
    (Result.Failure ("Upload error: " +:+ Upload.handleError e) None,
     Upload.setCurrentFile (Some f) st).
Proof. reflexivity. Qed.

Lemma uploadSingleFile_refused (f : Upload.File) (overwrite : bool)
    (inFlight : Upload.InFlight) (st : Upload.State) :
  UploadChecks.urlRequestAnswers inFlight = true ->
  negb (success (urlResponse f overwrite st))
    || negb (Js.truthy (data (urlResponse f overwrite st))) = true ->
  Upload.uploadSingleFile getUploadPresignedUrlAction f overwrite inFlight st =
    (Result.ConvertFailure (urlResponse f overwrite st),
     Upload.setFileNameExist
       (bool_decide (message (urlResponse f overwrite st) =
                     message S3Responses.FileNameExists))
       (Upload.setCurrentFile (Some f) st)).
Proof.
  intros Hanswers Hno. unfold Upload.uploadSingleFile, Upload.prepareUpload.
  cbn [Upload.navigationPath Upload.setCurrentFile].
  fold (urlResponse f overwrite st).
  destruct inFlight; try discriminate Hanswers; rewrite Hno; reflexivity.
Qed.

Lemma uploadSingleFile_issued (f : Upload.File) (overwrite : bool)
    (inFlight : Upload.InFlight) (st : Upload.State) :
  UploadChecks.urlRequestAnswers inFlight = true ->
  negb (success (urlResponse f overwrite st))
    || negb (Js.truthy (data (urlResponse f overwrite st))) = false ->
  Upload.uploadSingleFile getUploadPresignedUrlAction f overwrite inFlight st =
    let '(uploadSuccess, st1) :=
      Upload.performUpload f (Js.orEmpty (data (urlResponse f overwrite st)))
        {| Upload.aborted := false |} inFlight
        (Upload.setAbortControllerRef (Some {| Upload.aborted := false |})
           (Upload.setCurrentFile (Some f) st)) in
    match uploadSuccess with
    | Some true =>
        match inFlight with
        | Upload.RelistingRejects e =>
            (Result.Failure ("Upload error: " +:+ Upload.handleError e) None,
             Upload.setProgress 0%Z st1)
        | _ =>
            (Result.Success (Some true) None,
             Upload.setCurrentFile None
               (Upload.updateS3Objects (Upload.navigationPath st)
                  (Upload.setProgress 0%Z st1)))
        end
    | _ => (Result.Failure "Upload failed" None, st1)
    end.
Proof.
  intros Hanswers Hyes. unfold Upload.uploadSingleFile, Upload.prepareUpload.
  cbn [Upload.navigationPath Upload.setCurrentFile].
  fold (urlResponse f overwrite st).
  assert (Hdata : Js.truthy (data (urlResponse f overwrite st)) = true).
  { apply orb_false_iff in Hyes as [_ Hdata].
    apply negb_false_iff in Hdata. exact Hdata. }
  destruct inFlight; try discriminate Hanswers; rewrite Hyes;
    cbn [success Result.Success negb data Upload.signedUrl Upload.controller];
    rewrite (truthy_orEmpty _ Hdata); cbn [negb];
    cbn [Upload.performUpload]; reflexivity.
Qed.

Lemma uploadSingleFile_refreshes (f : Upload.File) (overwrite : bool)
    (inFlight : Upload.InFlight) (st : Upload.State) :
  let '(result, st') :=
    Upload.uploadSingleFile getUploadPresignedUrlAction f overwrite inFlight st in
  Upload.navigationPath st' = Upload.navigationPath st
  /\ Upload.refreshes st' =
       Upload.refreshes st
         ++ (if success result then [Upload.navigationPath st] else []).
Proof.
  destruct (UploadChecks.urlRequestAnswers inFlight) eqn:Hanswers.
  - destruct (negb (success (urlResponse f overwrite st))
              || negb (Js.truthy (data (urlResponse f overwrite st)))) eqn:Hurl.
    + rewrite (uploadSingleFile_refused f overwrite inFlight st Hanswers Hurl).
      cbn. rewrite app_nil_r. split; reflexivity.
    + rewrite (uploadSingleFile_issued f overwrite inFlight st Hanswers Hurl).
      destruct inFlight; cbn; rewrite ?app_nil_r; split; reflexivity.
  - destruct inFlight; try discriminate Hanswers.
    rewrite uploadSingleFile_rejected. cbn. rewrite app_nil_r.
    split; reflexivity.
Qed.

(** The loop of [uploadMultipleFiles] counts one success or one error for
    every entry it attempts, and re-lists the folder once per success. *)
Lemma uploadMultipleFiles_loop_counts (captured : list Upload.FileUploadStatus)
    (overwrite : bool) (inFlight : nat -> Upload.InFlight)
    (remaining : list Upload.File) :
  forall (i : nat) (counts : Upload.Counts) (st : Upload.State),
  (i + List.length remaining <= List.length captured)%nat ->
  let '(counts', st') :=
    Upload.uploadMultipleFiles_loop getUploadPresignedUrlAction remaining i
      captured overwrite inFlight counts st in
  exists s e : nat,
    Upload.successCount counts' = (Upload.successCount counts + s)%nat
    /\ Upload.errorCount counts' = (Upload.errorCount counts + e)%nat
    /\ (s + e)%nat =
         List.length
           (List.filter UploadChecks.attempted
              (take (List.length remaining) (drop i captured)))
    /\ Upload.navigationPath st' = Upload.navigationPath st
    /\ Upload.refreshes st' =
         Upload.refreshes st ++ repeat (Upload.navigationPath st) s.
Proof.
  induction remaining as [|f rest IH]; intros i counts st Hlen.
  - cbn. exists 0%nat, 0%nat. rewrite !Nat.add_0_r, app_nil_r. auto.
  - cbn [List.length] in Hlen.
    assert (Hi : (i < List.length captured)%nat) by lia.
    destruct (lookup_lt_is_Some_2 captured i Hi) as [s0 Hs0].
    cbn [Upload.uploadMultipleFiles_loop List.length].
    rewrite (drop_S captured s0 i Hs0), Hs0.
    cbn [fmap option_fmap option_map take List.filter].
    assert (Hskip :
      UploadChecks.attempted s0 = false ->
      let '(counts', st') :=
        Upload.uploadMultipleFiles_loop getUploadPresignedUrlAction rest
          (Datatypes.S i) captured overwrite inFlight counts st in
      exists s e : nat,
        Upload.successCount counts' = (Upload.successCount counts + s)%nat
        /\ Upload.errorCount counts' = (Upload.errorCount counts + e)%nat
        /\ (s + e)%nat =
             List.length
               (if UploadChecks.attempted s0
                then s0 :: List.filter UploadChecks.attempted
                              (take (List.length rest) (drop (Datatypes.S i) captured))
                else List.filter UploadChecks.attempted
                       (take (List.length rest) (drop (Datatypes.S i) captured)))
        /\ Upload.navigationPath st' = Upload.navigationPath st
        /\ Upload.refreshes st' =
             Upload.refreshes st ++ repeat (Upload.navigationPath st) s).
    { intros ->. apply IH. lia. }
    assert (Hrun :
      UploadChecks.attempted s0 = true ->
      let st0 :=
        Upload.setFileStatuses
          (fun prev =>
             Upload.updateFileStatus prev i
               {| Upload.newProgress := None;
                  Upload.newStatus := Some Upload.uploading;
                  Upload.newError := None |})
          (Upload.setCurrentFileIndex (Z.of_nat i) st) in
      let '(counts', st') :=
        let (result, st1) :=
          Upload.uploadSingleFile getUploadPresignedUrlAction f overwrite
            (inFlight i) st0 in
        Upload.uploadMultipleFiles_loop getUploadPresignedUrlAction rest
          (Datatypes.S i) captured overwrite inFlight
          (if negb (success result)
           then Upload.mkCounts (Upload.successCount counts)
                  (Datatypes.S (Upload.errorCount counts))
           else Upload.mkCounts (Datatypes.S (Upload.successCount counts))
                  (Upload.errorCount counts))
          (Upload.setFileStatuses
             (fun prev =>
                if negb (success result)
                then Upload.updateFileStatus prev i
                       {| Upload.newProgress := None;
                          Upload.newStatus := Some Upload.error;
                          Upload.newError := message result |}
                else Upload.updateFileStatus prev i
                       {| Upload.newProgress := Some 100%Z;
                          Upload.newStatus := Some Upload.completed;
                          Upload.newError := None |}) st1) in
      exists s e : nat,
        Upload.successCount counts' = (Upload.successCount counts + s)%nat
        /\ Upload.errorCount counts' = (Upload.errorCount counts + e)%nat
        /\ (s + e)%nat =
             List.length
               (if UploadChecks.attempted s0
                then s0 :: List.filter UploadChecks.attempted
                              (take (List.length rest) (drop (Datatypes.S i) captured))
                else List.filter UploadChecks.attempted
                       (take (List.length rest) (drop (Datatypes.S i) captured)))
        /\ Upload.navigationPath st' = Upload.navigationPath st
        /\ Upload.refreshes st' =
             Upload.refreshes st ++ repeat (Upload.navigationPath st) s).
    { intros ->. intros st0.
      pose proof (uploadSingleFile_refreshes f overwrite (inFlight i) st0) as Hone.
      destruct (Upload.uploadSingleFile getUploadPresignedUrlAction f overwrite
                  (inFlight i) st0) as [result st1].
      destruct Hone as [Hnav Href].
      match goal with
      | |- context [Upload.uploadMultipleFiles_loop _ rest _ _ _ _ ?c ?s] =>
          pose proof (IH (Datatypes.S i) c s ltac:(lia)) as Hrest;
          destruct (Upload.uploadMultipleFiles_loop getUploadPresignedUrlAction
                      rest (Datatypes.S i) captured overwrite inFlight c s)
            as [counts' st']
      end.
      destruct Hrest as (s & e & Hs & He & Hse & Hnav' & Href').
      cbn [Upload.navigationPath Upload.refreshes Upload.setFileStatuses] in Hnav', Href'.
      subst st0.
      cbn [Upload.navigationPath Upload.refreshes Upload.setFileStatuses
           Upload.setCurrentFileIndex] in Hnav, Href.
      rewrite Hnav in Hnav', Href'. rewrite Href in Href'.
      destruct (success result); cbn [negb Upload.successCount Upload.errorCount] in Hs, He.
      - exists (Datatypes.S s), e. cbn [List.length repeat].
        repeat split; try lia; try assumption.
        rewrite Href', <- app_assoc. reflexivity.
      - exists s, (Datatypes.S e). cbn [List.length].
        repeat split; try lia; try assumption.
        rewrite Href', app_nil_r. reflexivity. }
    unfold UploadChecks.attempted in Hskip, Hrun |- *.
    destruct (Upload.status s0);
      first [ exact (Hskip eq_refl) | exact (Hrun eq_refl) ].
Qed.

End UploadFacts.

(** X25: [uploadMultipleFiles], called with one status entry per selected
    file, skips the entries that are completed or cancelled and counts every
    other entry exactly once, as a success or as an error. It re-lists the
    current folder once for every file uploaded and once more at the end, and
    leaves the hook not submitting with no current index. *)
Theorem uploadMultipleFiles_counts_attempted
    (getUploadPresignedUrlAction : string -> bool -> OperationResult string)
    (overwrite : bool) (inFlight : nat -> Upload.InFlight) (st : Upload.State)
    (counts : Upload.Counts) (st' : Upload.State) :
  Upload.files st <> [] ->
  List.length (Upload.files st) = List.length (Upload.fileStatuses st) ->
  Upload.uploadMultipleFiles getUploadPresignedUrlAction overwrite inFlight st =
    (counts, st') ->
  (Upload.successCount counts + Upload.errorCount counts)%nat =
    List.length (List.filter UploadChecks.attempted (Upload.fileStatuses st))
  /\ Upload.refreshes st' =
       Upload.refreshes st
         ++ repeat (Upload.navigationPath st)
              (Datatypes.S (Upload.successCount counts))
  /\ Upload.isSubmitting st' = false
  /\ Upload.currentFileIndex st' = (-1)%Z.
Proof.
  intros Hfiles Hlen. unfold Upload.uploadMultipleFiles.
  destruct (Nat.eqb_spec (List.length (Upload.files st)) 0) as [Hzero|_].
  { destruct (Upload.files st); [congruence|discriminate]. }
  pose proof (uploadMultipleFiles_loop_counts getUploadPresignedUrlAction
                (Upload.fileStatuses st) overwrite inFlight (Upload.files st)
                0%nat (Upload.mkCounts 0 0) (Upload.setIsSubmitting true st)
                ltac:(lia)) as Hloop.
  destruct (Upload.uploadMultipleFiles_loop getUploadPresignedUrlAction
              (Upload.files st) 0 (Upload.fileStatuses st) overwrite inFlight
              (Upload.mkCounts 0 0) (Upload.setIsSubmitting true st))
    as [counts2 st2].
  destruct Hloop as (s & e & Hs & He & Hse & Hnav & Href).
  intros Heq. inversion Heq; subst counts st'. clear Heq.
  cbn in Hs, He, Hnav, Href. cbn.
  rewrite Hlen, drop_0, firstn_all in Hse.
  rewrite Hs, He, Hnav, Href, <- Hse.
  split; [reflexivity|]. split; [|split; reflexivity].
  rewrite <- app_assoc. f_equal.
  change (repeat (Upload.navigationPath st) (Datatypes.S s))
    with ([Upload.navigationPath st] ++ repeat (Upload.navigationPath st) s).
  rewrite repeat_cons. reflexivity.
Qed.

Lemma uploadMultipleFiles_counts_attempted_witness :
  let a := Upload.mkFile "a.txt" 10%Z in
  let b := Upload.mkFile "b.txt" 20%Z in
  let c := Upload.mkFile "c.txt" 30%Z in
  let st := Upload.setFileStatuses
              (fun _ => [Upload.mkFileUploadStatus a 100%Z Upload.completed None;
                         Upload.mkFileUploadStatus b 0%Z Upload.pending None;
                         Upload.mkFileUploadStatus c 0%Z Upload.pending None])
              (Upload.selected "docs/" [a; b; c]) in
  let inFlight := fun i : nat =>
                    if (i =? 1)%nat then Upload.Completes
                    else Upload.Fails (AxiosError "Network Error") in
  let run := Upload.uploadMultipleFiles Upload.signsAll false inFlight st in
  fst run = Upload.mkCounts 1 1
  /\ Upload.refreshes (snd run) = ["docs/"; "docs/"].
Proof.
  intros a b c st inFlight run.
  destruct (uploadMultipleFiles_counts_attempted Upload.signsAll false inFlight
              st (fst run) (snd run))
    as (_ & Href & _);
    [discriminate | reflexivity | reflexivity |].
  split; [reflexivity | exact Href].
Defined.

(** X26: The outcomes of [uploadSingleFile]. If the upload-URL request
    rejects, the [catch] block answers the failure [Upload error: ] followed
    by the error's message, and nothing is done but [setCurrentFile]. If the
    request is answered with a refusal, the refusal is handed on as a failure
    without a transfer: abort controller, statuses and re-listings are as
    before. If a URL is issued the controller is released in every case and:
    a completed transfer followed by the re-listing gives success; a
    completed transfer whose re-listing rejects gives the [catch] block's
    failure; any other end of the transfer gives [Upload failed]. The result
    is a success exactly in the first of these cases, and exactly then one
    re-listing of the folder is recorded. *)
Theorem uploadSingleFile_outcomes
    (getUploadPresignedUrlAction : string -> bool -> OperationResult string)
    (f : Upload.File) (overwrite : bool) (inFlight : Upload.InFlight)
    (st : Upload.State) (result : OperationResult bool) (st' : Upload.State) :
  Upload.uploadSingleFile getUploadPresignedUrlAction f overwrite inFlight st =
    (result, st') ->
  let response :=
    getUploadPresignedUrlAction
      ((if Js.endsWith (Upload.navigationPath st) "/"
        then Upload.navigationPath st
        else Upload.navigationPath st +:+ "/") +:+ Upload.fileName f)
      overwrite in
  let issued := success response && Js.truthy (data response) in
  match inFlight with
  | Upload.UrlRequestRejects e =>
      result = Result.Failure ("Upload error: " +:+ Upload.handleError e) None
      /\ st' = Upload.setCurrentFile (Some f) st
  | _ =>
      (issued = false ->
         result = Result.ConvertFailure response
         /\ Upload.abortControllerRef st' = Upload.abortControllerRef st
         /\ Upload.fileStatuses st' = Upload.fileStatuses st
         /\ Upload.refreshes st' = Upload.refreshes st)
      /\ (issued = true ->
            Upload.abortControllerRef st' = None
            /\ Upload.fileNameExist st' = false
            /\ match inFlight with
               | Upload.Completes =>
                   result = Result.Success (Some true) None
                   /\ Upload.currentFile st' = None
                   /\ Upload.refreshes st' =
                        Upload.refreshes st ++ [Upload.navigationPath st]
               | Upload.RelistingRejects e =>
                   result =
                     Result.Failure
                       ("Upload error: " +:+ Upload.handleError e) None
                   /\ Upload.currentFile st' = Some f
                   /\ Upload.refreshes st' = Upload.refreshes st
               | _ =>
                   result = Result.Failure "Upload failed" None
                   /\ Upload.refreshes st' = Upload.refreshes st
               end)
  end
  /\ (success result = true <-> issued = true /\ inFlight = Upload.Completes)
  /\ Upload.refreshes st' =
       Upload.refreshes st
         ++ (if success result then [Upload.navigationPath st] else []).
Proof.
  intros Hrun response issued.
  assert (Hneg : negb (success response) || negb (Js.truthy (data response)) =
                 negb issued).
  { unfold issued. destruct (success response), (Js.truthy (data response));
      reflexivity. }
  destruct (UploadChecks.urlRequestAnswers inFlight) eqn:Hanswers.
  - destruct issued eqn:Hissued; cbn [negb] in Hneg.
    + rewrite (uploadSingleFile_issued getUploadPresignedUrlAction f overwrite
                 inFlight st Hanswers Hneg) in Hrun.
      destruct inFlight; try discriminate Hanswers;
        cbn in Hrun; inversion Hrun; subst result st'; cbn;
        rewrite ?app_nil_r;
        (split; [split; [discriminate|]; intros _; repeat split; reflexivity|]);
        (split; [split; [try discriminate; intros _; split; reflexivity
                        | intros [_ H]; try reflexivity; discriminate]|]);
        reflexivity.
    + rewrite (uploadSingleFile_refused getUploadPresignedUrlAction f overwrite
                 inFlight st Hanswers Hneg) in Hrun.
      inversion Hrun; subst result st'.
      destruct inFlight; try discriminate Hanswers; cbn; rewrite app_nil_r;
        (split; [split; [intros _; repeat split; reflexivity | discriminate]|]);
        (split; [split; [discriminate | intros [H _]; discriminate]|]);
        reflexivity.
  - destruct inFlight; try discriminate Hanswers.
    rewrite uploadSingleFile_rejected in Hrun.
    inversion Hrun; subst result st'. cbn. rewrite app_nil_r.
    split; [split; reflexivity|].
    split; [split; [discriminate | intros [_ H]; discriminate]|].
    reflexivity.
Qed.

Lemma uploadSingleFile_outcomes_witness :
  let f := Upload.mkFile "a.txt" 10%Z in
  let run := Upload.uploadSingleFile Upload.signsAll f false
               (Upload.RelistingRejects (Error "fetch failed"))
               (Upload.selected "docs" [f]) in
  fst run = Result.Failure "Upload error: fetch failed" None
  /\ Upload.abortControllerRef (snd run) = None
  /\ Upload.refreshes (snd run) = [].
Proof.
  intros f run.
  destruct (uploadSingleFile_outcomes Upload.signsAll f false
              (Upload.RelistingRejects (Error "fetch failed"))
              (Upload.selected "docs" [f]) (fst run) (snd run) eq_refl)
    as ((_ & Hissued) & _ & _).
  destruct (Hissued eq_refl) as (Hctl & _ & Hfail & _ & Href).
  split; [exact Hfail|]. split; [exact Hctl | exact Href].
Defined.

Lemma oversized_none (limit : Z) (l : list Upload.File) :
  List.filter (fun f => (Upload.size f >? limit)%Z) l = []
  <-> Forall (fun f => (Upload.size f <= limit)%Z) l.
Proof.
  induction l as [|f l IH]; cbn [List.filter].
  - split; [constructor | reflexivity].
  - destruct (Z.gtb_spec (Upload.size f) limit) as [Hgt|Hle].
    + split; [discriminate|]. intros H. inversion H; subst. lia.
    + rewrite IH. split.
      * intros H. constructor; [lia | exact H].
      * intros H. inversion H; assumption.
Qed.

(** X27: [validateFiles] refuses an empty selection. With files selected and
    a limit that is missing or zero it accepts whatever their sizes; with a
    limit that is not zero it accepts exactly when no file is larger than the
    limit, and a refusal carries no data. *)
Theorem validateFiles_limit (readableFileSize : Z -> string)
    (uploadLimit : option Z) (st : Upload.State) :
  (Upload.files st = [] ->
     UploadChecks.validateFiles readableFileSize uploadLimit st =
       Result.Failure "Please select at least one file" None)
  /\ (Upload.files st <> [] ->
      (uploadLimit = None \/ uploadLimit = Some 0%Z ->
         UploadChecks.validateFiles readableFileSize uploadLimit st =
           Result.Success None None)
      /\ (forall limit, uploadLimit = Some limit -> limit <> 0%Z ->
            (success (UploadChecks.validateFiles readableFileSize uploadLimit st) = true
               <-> Forall (fun f => (Upload.size f <= limit)%Z) (Upload.files st))
            /\ (success (UploadChecks.validateFiles readableFileSize uploadLimit st) = true ->
                  UploadChecks.validateFiles readableFileSize uploadLimit st =
                    Result.Success None None)
            /\ (success (UploadChecks.validateFiles readableFileSize uploadLimit st) = false ->
                  data (UploadChecks.validateFiles readableFileSize uploadLimit st) = None))).
Proof.
  unfold UploadChecks.validateFiles. split.
  - intros ->. reflexivity.
  - intros Hfiles.
    destruct (Nat.eqb_spec (List.length (Upload.files st)) 0) as [Hzero|_].
    { destruct (Upload.files st); [congruence|discriminate]. }
    split.
    + intros [-> | ->]; reflexivity.
    + intros limit -> Hlimit.
      destruct (Z.eqb_spec limit 0) as [|_]; [contradiction|].
      pose proof (oversized_none limit (Upload.files st)) as Hall.
      destruct (List.filter (fun f => (Upload.size f >? limit)%Z) (Upload.files st));
        cbn.
      * repeat split; try reflexivity. intros _. apply Hall. reflexivity.
      * split; [|split; [discriminate | reflexivity]].
        split; [discriminate|]. intros H. apply Hall in H. discriminate.
Qed.

Lemma validateFiles_limit_witness :
  let small := Upload.mkFile "a.txt" 10%Z in
  let large := Upload.mkFile "b.bin" 5000%Z in
  success (UploadChecks.validateFiles (fun _ => "1 KB") (Some 1024%Z)
             (Upload.selected "docs/" [small; large])) = false
  /\ UploadChecks.validateFiles (fun _ => "1 KB") (Some 0%Z)
       (Upload.selected "docs/" [small; large]) = Result.Success None None.
Proof.
  intros small large.
  destruct (validateFiles_limit (fun _ => "1 KB") (Some 0%Z)
              (Upload.selected "docs/" [small; large])) as [_ Hsome].
  destruct (Hsome ltac:(discriminate)) as [Hoff _].
  split; [reflexivity | apply Hoff; right; reflexivity].
Defined.

(** ** The signing-service URL *)

(** X28: [keyToSigningServiceUrl] joins the service URL and the trimmed key
    with exactly one ['/'] between them: one trailing slash of the service
    URL and a leading slash of the key make no difference. Without a
    configured service URL (unset or empty) there is no URL. *)
Theorem keyToSigningServiceUrl_one_slash (trim : string -> string)
    (base p apiUrl key : string) :
  apiUrl <> "" ->
  Js.endsWith base "/" = false ->
  Js.startsWith p "/" = false ->
  apiUrl = base \/ apiUrl = base +:+ "/" ->
  trim key = p \/ trim key = "/" +:+ p ->
  UrlUtilities.keyToSigningServiceUrl trim (Some apiUrl) key =
    Some (base +:+ "/" +:+ p)
  /\ UrlUtilities.keyToSigningServiceUrl trim None key = None
  /\ UrlUtilities.keyToSigningServiceUrl trim (Some "") key = None.
Proof.
  intros Hurl Hbase Hp Hapi Hkey. split; [|split; reflexivity].
  unfold UrlUtilities.keyToSigningServiceUrl, UrlUtilities.configProvider.
  assert (Htruthy : Js.truthy (Some apiUrl) = true).
  { unfold Js.truthy. destruct (String.eqb_spec apiUrl ""); [contradiction|reflexivity]. }
  rewrite Htruthy. cbn [negb]. rewrite Htruthy. cbn [negb Js.orEmpty].
  assert (Hslash : Js.startsWith ("/" +:+ p) "/" = true)
    by (unfold Js.startsWith; apply (prefix_append "/")).
  assert (Hb : (if Js.endsWith apiUrl "/" then JsIndex.dropLast apiUrl else apiUrl)
               = base).
  { destruct Hapi as [-> | ->].
    - rewrite Hbase. reflexivity.
    - rewrite endsWith_append_slash, dropLast_append_slash. reflexivity. }
  rewrite Hb.
  destruct Hkey as [-> | ->].
  - rewrite Hp. reflexivity.
  - rewrite Hslash. reflexivity.
Qed.

Lemma keyToSigningServiceUrl_one_slash_witness :
  UrlUtilities.keyToSigningServiceUrl (fun s => s)
    (Some "https://sign.example/") "/docs/a.txt" =
    Some ("https://sign.example" +:+ "/" +:+ "docs/a.txt").
Proof.
  apply (keyToSigningServiceUrl_one_slash (fun s => s) "https://sign.example"
           "docs/a.txt" "https://sign.example/" "/docs/a.txt");
    [discriminate | reflexivity | reflexivity | right; reflexivity
    | right; reflexivity].
Defined.

(** ** The statuses after a batch *)

Lemma updateFileStatus_length (l : list Upload.FileUploadStatus) (i : nat)
    (u : Upload.StatusUpdate) :
  List.length (Upload.updateFileStatus l i u) = List.length l.
Proof.
  unfold Upload.updateFileStatus.
  destruct (l !! i); [apply length_insert | reflexivity].
Qed.

Lemma updateFileStatus_other (l : list Upload.FileUploadStatus) (i j : nat)
    (u : Upload.StatusUpdate) :
  i <> j -> Upload.updateFileStatus l i u !! j = l !! j.
Proof.
  intros Hij. unfold Upload.updateFileStatus.
  destruct (l !! i); [apply list_lookup_insert_ne; exact Hij | reflexivity].
Qed.

Lemma updateFileStatus_at (l : list Upload.FileUploadStatus) (i : nat)
    (u : Upload.StatusUpdate) (c : Upload.FileUploadStatus) :
  l !! i = Some c ->
  exists c',
    Upload.updateFileStatus l i u !! i = Some c'
    /\ Upload.file c' = Upload.file c
    /\ Upload.status c' = default (Upload.status c) (Upload.newStatus u).
Proof.
  intros Hc. unfold Upload.updateFileStatus. rewrite Hc.
  eexists. split.
  - apply list_lookup_insert_eq. eapply lookup_lt_Some. exact Hc.
  - split; reflexivity.
Qed.

Lemma markCancelled_file (c : Upload.FileUploadStatus) :
  Upload.file (UploadChecks.markCancelled c) = Upload.file c.
Proof. unfold UploadChecks.markCancelled. destruct (Upload.status c); reflexivity. Qed.

Lemma markCancelled_ended (c : Upload.FileUploadStatus) :
  Upload.status c = Upload.completed \/ Upload.status c = Upload.error ->
  UploadChecks.markCancelled c = c.
Proof.
  unfold UploadChecks.markCancelled. intros [-> | ->]; reflexivity.
Qed.

Lemma markCancelled_not_attempted (c : Upload.FileUploadStatus) :
  UploadChecks.attempted c = false -> UploadChecks.markCancelled c = c.
Proof.
  unfold UploadChecks.attempted, UploadChecks.markCancelled.
  destruct (Upload.status c); first [reflexivity | discriminate].
Qed.

(** One round of the batch on entry [i]: the entry is set to [uploading],
    the transfer may cancel everything unfinished, and the entry is then set
    to the round's end state [fs]. *)
Lemma batch_round_statuses (cur cur2 : list Upload.FileUploadStatus) (i : nat)
    (u1 u3 : Upload.StatusUpdate) (fs : Upload.Status) :
  cur2 = Upload.updateFileStatus cur i u1
    \/ cur2 = map UploadChecks.markCancelled (Upload.updateFileStatus cur i u1) ->
  Upload.newStatus u3 = Some fs ->
  List.length (Upload.updateFileStatus cur2 i u3) = List.length cur
  /\ (forall j c, cur !! j = Some c -> i <> j ->
        Upload.updateFileStatus cur2 i u3 !! j = Some c
        \/ Upload.updateFileStatus cur2 i u3 !! j =
             Some (UploadChecks.markCancelled c))
  /\ (forall c, cur !! i = Some c ->
        exists c3,
          Upload.updateFileStatus cur2 i u3 !! i = Some c3
          /\ Upload.file c3 = Upload.file c
          /\ Upload.status c3 = fs).
Proof.
  intros Hcur2 Hfs. split; [|split].
  - rewrite updateFileStatus_length.
    destruct Hcur2 as [-> | ->];
      rewrite ?length_map, updateFileStatus_length; reflexivity.
  - intros j c Hc Hij. rewrite updateFileStatus_other by exact Hij.
    destruct Hcur2 as [-> | ->].
    + left. rewrite updateFileStatus_other by exact Hij. exact Hc.
    + right. rewrite list_lookup_fmap, updateFileStatus_other by exact Hij.
      rewrite Hc. reflexivity.
  - intros c Hc.
    destruct (updateFileStatus_at cur i u1 c Hc) as (c1 & Hc1 & Hfile1 & _).
    assert (Hc2 : exists c2, cur2 !! i = Some c2 /\ Upload.file c2 = Upload.file c).
    { destruct Hcur2 as [-> | ->].
      - exists c1. split; assumption.
      - exists (UploadChecks.markCancelled c1).
        rewrite list_lookup_fmap, Hc1. split; [reflexivity|].
        rewrite markCancelled_file. exact Hfile1. }
    destruct Hc2 as (c2 & Hc2 & Hfile2).
    destruct (updateFileStatus_at cur2 i u3 c2 Hc2) as (c3 & Hc3 & Hfile3 & Hst3).
    exists c3. split; [exact Hc3|]. split; [congruence|].
    rewrite Hst3, Hfs. reflexivity.
Qed.

Section UploadStatusFacts.

Variable getUploadPresignedUrlAction : string -> bool -> OperationResult string.

(** A single upload leaves the statuses alone, or cancels the unfinished
    ones when the user cancels everything during the transfer. *)
Lemma uploadSingleFile_statuses (f : Upload.File) (overwrite : bool)
    (inFlight : Upload.InFlight) (st : Upload.State) :
  Upload.fileStatuses
    (snd (Upload.uploadSingleFile getUploadPresignedUrlAction f overwrite
            inFlight st)) = Upload.fileStatuses st
  \/ Upload.fileStatuses
       (snd (Upload.uploadSingleFile getUploadPresignedUrlAction f overwrite
               inFlight st)) =
       map UploadChecks.markCancelled (Upload.fileStatuses st).
Proof.
  destruct (UploadChecks.urlRequestAnswers inFlight) eqn:Hanswers.
  - match goal with
    | |- context [Upload.uploadSingleFile ?a ?f ?o ?i ?s] =>
        pose proof (uploadSingleFile_refused a f o i s Hanswers) as Hno;
        pose proof (uploadSingleFile_issued a f o i s Hanswers) as Hyes
    end.
    cbv zeta in Hno, Hyes.
    match type of Hno with
    | ?c = true -> _ => destruct c
    end.
    + rewrite (Hno eq_refl). left. reflexivity.
    + rewrite (Hyes eq_refl).
      destruct inFlight; cbn [Upload.performUpload snd];
        try (left; reflexivity).
      right.
      cbn [Upload.fileStatuses Upload.setFileNameExist
           Upload.setAbortControllerRef].
      rewrite cancelAllUploads_statuses. reflexivity.
  - destruct inFlight; try discriminate Hanswers.
    rewrite uploadSingleFile_rejected. left. reflexivity.
Qed.

Lemma uploadMultipleFiles_loop_statuses
    (captured : list Upload.FileUploadStatus) (overwrite : bool)
    (inFlight : nat -> Upload.InFlight) (remaining : list Upload.File) :
  forall (i : nat) (counts : Upload.Counts) (st : Upload.State),
  List.length (Upload.fileStatuses st) = List.length captured ->
  (i + List.length remaining <= List.length captured)%nat ->
  List.length
    (Upload.fileStatuses
       (snd (Upload.uploadMultipleFiles_loop getUploadPresignedUrlAction
               remaining i captured overwrite inFlight counts st))) =
    List.length captured
  /\ forall (j : nat) (c : Upload.FileUploadStatus),
       Upload.fileStatuses st !! j = Some c ->
       exists c',
         Upload.fileStatuses
           (snd (Upload.uploadMultipleFiles_loop getUploadPresignedUrlAction
                   remaining i captured overwrite inFlight counts st)) !! j =
           Some c'
         /\ Upload.file c' = Upload.file c
         /\ ((j < i)%nat
             \/ UploadChecks.attempted <$> captured !! j = Some false ->
             UploadChecks.markCancelled c = c -> c' = c)
         /\ ((i <= j < i + List.length remaining)%nat ->
             UploadChecks.attempted <$> captured !! j = Some true ->
             Upload.status c' = Upload.completed
             \/ Upload.status c' = Upload.error).
Proof.
  induction remaining as [|f rest IH]; intros i counts st Hcur Hlen.
  - cbn. split; [exact Hcur|]. intros j c Hc. exists c.
    split; [exact Hc|]. split; [reflexivity|].
    split; [intros _ _; reflexivity | intros Hj; lia].
  - cbn [List.length] in Hlen.
    assert (Hi : (i < List.length captured)%nat) by lia.
    destruct (lookup_lt_is_Some_2 captured i Hi) as [s0 Hs0].
    pose (Post := fun r : Upload.Counts * Upload.State =>
      List.length (Upload.fileStatuses (snd r)) = List.length captured
      /\ forall (j : nat) (c : Upload.FileUploadStatus),
           Upload.fileStatuses st !! j = Some c ->
           exists c',
             Upload.fileStatuses (snd r) !! j = Some c'
             /\ Upload.file c' = Upload.file c
             /\ ((j < i)%nat
                 \/ UploadChecks.attempted <$> captured !! j = Some false ->
                 UploadChecks.markCancelled c = c -> c' = c)
             /\ ((i <= j < i + Datatypes.S (List.length rest))%nat ->
                 UploadChecks.attempted <$> captured !! j = Some true ->
                 Upload.status c' = Upload.completed
                 \/ Upload.status c' = Upload.error)).
    assert (Hskip :
      UploadChecks.attempted s0 = false ->
      Post (Upload.uploadMultipleFiles_loop getUploadPresignedUrlAction rest
              (Datatypes.S i) captured overwrite inFlight counts st)).
    { intros Hatt.
      destruct (IH (Datatypes.S i) counts st Hcur ltac:(lia)) as [Hl Hall].
      split; [exact Hl|]. intros j c Hc.
      destruct (Hall j c Hc) as (c' & Hfin & Hfile & Hkeep & Hend).
      exists c'. split; [exact Hfin|]. split; [exact Hfile|]. split.
      - intros [Hj | Hj]; apply Hkeep; [left; lia | right; exact Hj].
      - intros Hj Hatt'. apply Hend; [|exact Hatt'].
        assert (j <> i).
        { intros ->. rewrite Hs0 in Hatt'. cbn in Hatt'. congruence. }
        lia. }
    assert (Hround :
      forall (result : OperationResult bool) (st1 : Upload.State)
             (u3 : Upload.StatusUpdate) (counts1 : Upload.Counts),
      Upload.newStatus u3 = Some Upload.completed
        \/ Upload.newStatus u3 = Some Upload.error ->
      Upload.fileStatuses st1 =
        Upload.updateFileStatus (Upload.fileStatuses st) i
          {| Upload.newProgress := None;
             Upload.newStatus := Some Upload.uploading;
             Upload.newError := None |}
      \/ Upload.fileStatuses st1 =
           map UploadChecks.markCancelled
             (Upload.updateFileStatus (Upload.fileStatuses st) i
                {| Upload.newProgress := None;
                   Upload.newStatus := Some Upload.uploading;
                   Upload.newError := None |}) ->
      UploadChecks.attempted s0 = true ->
      Post (Upload.uploadMultipleFiles_loop getUploadPresignedUrlAction rest
              (Datatypes.S i) captured overwrite inFlight counts1
              (Upload.setFileStatuses
                 (fun prev => Upload.updateFileStatus prev i u3) st1))).
    { intros result st1 u3 counts1 Hu3 Hst1 Hatt.
      assert (Hfs : exists fs, Upload.newStatus u3 = Some fs
                      /\ (fs = Upload.completed \/ fs = Upload.error)).
      { destruct Hu3 as [Hu3 | Hu3]; eexists; (split; [exact Hu3|]); auto. }
      destruct Hfs as (fs & Hfs & Hended).
      destruct (batch_round_statuses (Upload.fileStatuses st)
                  (Upload.fileStatuses st1) i _ u3 fs Hst1 Hfs)
        as (Hl3 & Hother & Hat).
      match goal with
      | |- Post (Upload.uploadMultipleFiles_loop _ _ _ _ _ _ _ ?s) =>
          destruct (IH (Datatypes.S i) counts1 s) as [Hl Hall];
            [cbn [Upload.fileStatuses Upload.setFileStatuses];
             rewrite Hl3; exact Hcur
            | lia |]
      end.
      cbn [Upload.fileStatuses Upload.setFileStatuses] in Hall.
      split; [exact Hl|]. intros j c Hc.
      destruct (Nat.eq_dec i j) as [<- | Hij].
      - destruct (Hat c Hc) as (c3 & Hc3 & Hfile3 & Hst3).
        destruct (Hall i c3 Hc3) as (c' & Hfin & Hfile & Hkeep & _).
        assert (Hsame : c' = c3).
        { apply Hkeep; [left; lia|]. apply markCancelled_ended.
          rewrite Hst3. exact Hended. }
        subst c'. exists c3. split; [exact Hfin|]. split; [exact Hfile3|].
        split.
        + intros [Hj | Hj]; [lia|].
          rewrite Hs0 in Hj. cbn in Hj. congruence.
        + intros _ _. rewrite Hst3. exact Hended.
      - destruct (Hother j c Hc Hij) as [Hc3 | Hc3].
        + destruct (Hall j c Hc3) as (c' & Hfin & Hfile & Hkeep & Hend).
          exists c'. split; [exact Hfin|]. split; [exact Hfile|]. split.
          * intros [Hj | Hj]; apply Hkeep; [left; lia | right; exact Hj].
          * intros Hj Hatt'. apply Hend; [lia | exact Hatt'].
        + destruct (Hall j _ Hc3) as (c' & Hfin & Hfile & Hkeep & Hend).
          exists c'. split; [exact Hfin|].
          split; [rewrite Hfile; apply markCancelled_file|]. split.
          * intros Hj Hsettled. rewrite Hsettled in Hkeep.
            apply Hkeep; [|exact Hsettled].
            destruct Hj as [Hj | Hj]; [left; lia | right; exact Hj].
          * intros Hj Hatt'. apply Hend; [lia | exact Hatt']. }
    assert (Hrun :
      UploadChecks.attempted s0 = true ->
      Post (let st0 :=
              Upload.setFileStatuses
                (fun prev =>
                   Upload.updateFileStatus prev i
                     {| Upload.newProgress := None;
                        Upload.newStatus := Some Upload.uploading;
                        Upload.newError := None |})
                (Upload.setCurrentFileIndex (Z.of_nat i) st) in
            let (result, st1) :=
              Upload.uploadSingleFile getUploadPresignedUrlAction f overwrite
                (inFlight i) st0 in
            Upload.uploadMultipleFiles_loop getUploadPresignedUrlAction rest
              (Datatypes.S i) captured overwrite inFlight
              (if negb (success result)
               then Upload.mkCounts (Upload.successCount counts)
                      (Datatypes.S (Upload.errorCount counts))
               else Upload.mkCounts (Datatypes.S (Upload.successCount counts))
                      (Upload.errorCount counts))
              (Upload.setFileStatuses
                 (fun prev =>
                    if negb (success result)
                    then Upload.updateFileStatus prev i
                           {| Upload.newProgress := None;
                              Upload.newStatus := Some Upload.error;
                              Upload.newError := message result |}
                    else Upload.updateFileStatus prev i
                           {| Upload.newProgress := Some 100%Z;
                              Upload.newStatus := Some Upload.completed;
                              Upload.newError := None |}) st1))).
    { intros Hatt. cbv zeta.
      match goal with
      | |- context [Upload.uploadSingleFile ?a ?f ?o ?k ?s] =>
          pose proof (uploadSingleFile_statuses f o k s) as Hone;
          destruct (Upload.uploadSingleFile a f o k s) as [result st1]
      end.
      cbn [snd Upload.fileStatuses Upload.setFileStatuses
           Upload.setCurrentFileIndex] in Hone.
      destruct (success result); cbn [negb].
      - eapply (Hround result st1); [left; reflexivity | exact Hone | exact Hatt].
      - eapply (Hround result st1); [right; reflexivity | exact Hone | exact Hatt]. }
    cbn [Upload.uploadMultipleFiles_loop List.length].
    rewrite Hs0. cbn [fmap option_fmap option_map].
    unfold UploadChecks.attempted in Hskip, Hrun.
    destruct (Upload.status s0);
      first [ exact (Hskip eq_refl) | exact (Hrun eq_refl) ].
Qed.

End UploadStatusFacts.

(** X29: After [uploadMultipleFiles], called with one status entry per
    selected file, there are as many status entries as before and each
    belongs to the same file. An entry the batch skips (completed or
    cancelled when the batch was called) is exactly as it was; every other
    entry has ended as completed or as error, whatever happened during the
    transfers, a cancellation of all uploads included. *)
Theorem uploadMultipleFiles_final_statuses
    (getUploadPresignedUrlAction : string -> bool -> OperationResult string)
    (overwrite : bool) (inFlight : nat -> Upload.InFlight) (st : Upload.State)
    (counts : Upload.Counts) (st' : Upload.State) :
  List.length (Upload.files st) = List.length (Upload.fileStatuses st) ->
  Upload.uploadMultipleFiles getUploadPresignedUrlAction overwrite inFlight st =
    (counts, st') ->
  List.length (Upload.fileStatuses st') = List.length (Upload.fileStatuses st)
  /\ forall (i : nat) (s : Upload.FileUploadStatus),
       Upload.fileStatuses st !! i = Some s ->
       exists s',
         Upload.fileStatuses st' !! i = Some s'
         /\ Upload.file s' = Upload.file s
         /\ (UploadChecks.attempted s = false -> s' = s)
         /\ (UploadChecks.attempted s = true ->
             Upload.status s' = Upload.completed
             \/ Upload.status s' = Upload.error).
Proof.
  intros Hlen. unfold Upload.uploadMultipleFiles.
  destruct (Nat.eqb_spec (List.length (Upload.files st)) 0) as [Hzero|_].
  - intros Hrun. inversion Hrun; subst counts st'. split; [reflexivity|].
    intros i s Hs. apply lookup_lt_Some in Hs. lia.
  - pose proof (uploadMultipleFiles_loop_statuses getUploadPresignedUrlAction
                  (Upload.fileStatuses st) overwrite inFlight (Upload.files st)
                  0%nat (Upload.mkCounts 0 0) (Upload.setIsSubmitting true st)
                  eq_refl ltac:(lia)) as [Hl Hall].
    destruct (Upload.uploadMultipleFiles_loop getUploadPresignedUrlAction
                (Upload.files st) 0 (Upload.fileStatuses st) overwrite inFlight
                (Upload.mkCounts 0 0) (Upload.setIsSubmitting true st))
      as [counts2 st2].
    intros Hrun. inversion Hrun; subst counts st'. clear Hrun.
    cbn [snd Upload.fileStatuses Upload.setIsSubmitting] in Hl, Hall.
    cbn [Upload.fileStatuses Upload.updateS3Objects Upload.setIsSubmitting
         Upload.setCurrentFileIndex].
    split; [exact Hl|]. intros i s Hs.
    destruct (Hall i s Hs) as (s' & Hfin & Hfile & Hkeep & Hend).
    exists s'. split; [exact Hfin|]. split; [exact Hfile|]. split.
    + intros Hatt. apply Hkeep.
      * right. rewrite Hs. cbn. rewrite Hatt. reflexivity.
      * apply markCancelled_not_attempted. exact Hatt.
    + intros Hatt. apply Hend.
      * apply lookup_lt_Some in Hs. lia.
      * rewrite Hs. cbn. rewrite Hatt. reflexivity.
Qed.

Lemma uploadMultipleFiles_final_statuses_witness :
  let a := Upload.mkFile "a.txt" 10%Z in
  let b := Upload.mkFile "b.txt" 20%Z in
  let st := Upload.selected "docs/" [a; b] in
  let inFlight := fun i : nat =>
                    if (i =? 0)%nat then Upload.UserCancelsAll
                    else Upload.Completes in
  let run := Upload.uploadMultipleFiles Upload.signsAll false inFlight st in
  exists s',
    Upload.fileStatuses (snd run) !! 1%nat = Some s'
    /\ Upload.file s' = b
    /\ (Upload.status s' = Upload.completed \/ Upload.status s' = Upload.error).
Proof.
  intros a b st inFlight run.
  destruct (uploadMultipleFiles_final_statuses Upload.signsAll false inFlight
              st (fst run) (snd run) eq_refl eq_refl) as [_ Hall].
  destruct (Hall 1%nat (Upload.mkFileUploadStatus b 0%Z Upload.pending None) eq_refl)
    as (s' & Hfin & Hfile & _ & Hend).
  exists s'. split; [exact Hfin|]. split; [exact Hfile|].
  apply Hend. reflexivity.
Defined.
